(** * Image-to-text mapping tools: the dHash hasher and the mapping synchronisation

    A shallow embedding of [scripts/processors/image_hasher.py] and
    [scripts/processors/sync_processor.py] (with the parts of
    [image_downloader.py], [file_utils.py] and [validation_result.py] they
    call), and the properties of them that the specification states.

    Conventions of the embedding:
    - a Python [str] is a [string], a Python [int] is a [Z], [len] is a [Z];
      a hash is a string of ['0'] and ['1'], and where the code goes through
      the characters of a file name the string is read as UTF-8
      ([characters]);
    - a Python [dict] is the list of its items in insertion order ([pydict]);
      a Python [set] of strings is a [gset string];
    - a Python exception inside a [try] block is [None] of an [option], and the
      [except] branch is the default taken on [None];
    - files, the image cache and the input/output that was performed are an
      explicit [world] threaded through the functions that touch them;
    - the image library (Pillow), the network and the Unicode database of the
      interpreter are parameters ([PIL], [env]). *)

From Stdlib Require Import ZArith Lia Ascii String.
From stdpp Require Import base option list list_numbers gmap strings pretty sorting.

Local Open Scope Z_scope.
#[local] Set Warnings "-clear-no-such-hyp".

(** ** Python helpers *)

(** [l[i]] for a Python list: a negative index counts from the end, an index
    out of range raises [IndexError] ([None]). *)
Definition py_index {A} (l : list A) (i : Z) : option A :=
  if bool_decide (0 ≤ i) then l !! Z.to_nat i
  else if bool_decide (- Z.of_nat (length l) ≤ i) then l !! Z.to_nat (Z.of_nat (length l) + i)
  else None.

(** [range(n)]. *)
Definition range (n : Z) : list Z := seqZ 0 n.

(** ["".join(parts)]. *)
Definition join (parts : list string) : string := String.concat "" parts.

(** [len(s)] for a string. *)
Definition len (s : string) : Z := Z.of_nat (String.length s).

(** A [str] is a sequence of code points, and a [string] holds it in UTF-8: a
    character is a byte that is no continuation byte, with the continuation
    bytes that follow it.  [characters s] is what [for c in s] goes through. *)
Definition is_continuation (c : ascii) : bool :=
  bool_decide (128 ≤ Z.of_N (N_of_ascii c) < 192).

Definition starts_with_continuation (s : string) : bool :=
  match s with
  | String c _ => is_continuation c
  | EmptyString => false
  end.

Fixpoint characters (s : string) : list string :=
  match s with
  | EmptyString => []
  | String c rest =>
      match characters rest with
      | character :: others =>
          if starts_with_continuation rest then String c character :: others
          else String c EmptyString :: character :: others
      | [] => [String c EmptyString]
      end
  end.

(** [ord(c)] for a character. *)
Definition code_point (character : string) : Z :=
  match character with
  | EmptyString => 0
  | String c rest =>
      let n := Z.of_N (N_of_ascii c) in
      let lead := if bool_decide (n < 128) then n
                  else if bool_decide (n < 224) then Z.land n 31
                  else if bool_decide (n < 240) then Z.land n 15
                  else Z.land n 7 in
      foldl (λ acc b, acc * 64 + Z.land (Z.of_N (N_of_ascii b)) 63) lead
            (list_ascii_of_string rest)
  end.

(** ** The image library

    Pillow is not part of the repository: the hasher is parameterised by what
    it uses of it.  [Image_open] is [Image.open(io.BytesIO(data))] and
    [resize_L_getdata img w h] is
    [list(img.resize((w, h), LANCZOS).convert('L').getdata())]; each is [None]
    when Pillow raises. *)
Record PIL := {
  Image : Type;
  Image_open : list Byte.byte → option Image;
  resize_L_getdata : Image → Z → Z → option (list Z)
}.

Module ImageHasher.

Section Hasher.
(** [self.hash_size] *)
Variable hash_size : Z.

(** The body of the inner [for x] loop of [_calculate_dhash], run over the
    remaining columns [xs] with the bits appended so far. *)
Fixpoint dhash_columns (pixels : list Z) (width y : Z) (xs : list Z)
    (hash_bits : list string) : option (list string) :=
  match xs with
  | [] => Some hash_bits
  | x :: xs' =>
      left_pixel ← py_index pixels (y * width + x);
      right_pixel ← py_index pixels (y * width + x + 1);
      let bit := if bool_decide (left_pixel < right_pixel) then "1" else "0" in
      dhash_columns pixels width y xs' (hash_bits ++ [bit])
  end.

(** The outer [for y] loop. *)
Fixpoint dhash_rows (pixels : list Z) (width : Z) (ys : list Z)
    (hash_bits : list string) : option (list string) :=
  match ys with
  | [] => Some hash_bits
  | y :: ys' =>
      hash_bits' ← dhash_columns pixels width y (range hash_size) hash_bits;
      dhash_rows pixels width ys' hash_bits'
  end.

(** An index out of range anywhere in the loops ends the function with the
    empty string (the [except] branch). *)
Definition _calculate_dhash (pixels : list Z) : string :=
  let width := hash_size + 1 in
  match dhash_rows pixels width (range hash_size) [] with
  | Some hash_bits => join hash_bits
  | None => ""
  end.

Variable pil : PIL.

(** The pixels of the image resized to (hash_size + 1) x hash_size and
    converted to grey; the empty list when Pillow raises. *)
Definition _preprocess_image (image : Image pil) : list Z :=
  let scaled_width := hash_size + 1 in
  let scaled_height := hash_size in
  match resize_L_getdata pil image scaled_width scaled_height with
  | Some pixels => pixels
  | None => []
  end.

(** The hash of a byte buffer; the empty string when it cannot be opened. *)
Definition hash_image_data (image_data : list Byte.byte) : string :=
  match Image_open pil image_data with
  | Some image =>
      let grayscale_pixels := _preprocess_image image in
      _calculate_dhash grayscale_pixels
  | None => ""
  end.
End Hasher.

(** The comparison loop of [hamming_distance] over [zip(hash1, hash2)]. *)
Fixpoint hamming_loop (hash1 hash2 : string) (diff_count : Z) : Z :=
  match hash1, hash2 with
  | String bit1 rest1, String bit2 rest2 =>
      hamming_loop rest1 rest2
        (if bool_decide (bit1 ≠ bit2) then diff_count + 1 else diff_count)
  | _, _ => diff_count
  end.

(** Strings of different lengths raise [ValueError], which the function
    catches to return -1. *)
Definition hamming_distance (hash1 hash2 : string) : Z :=
  if bool_decide (len hash1 ≠ len hash2) then -1
  else hamming_loop hash1 hash2 0.

Definition validate_hash_format (hash_size : Z) (hash_string : string) : bool :=
  let expected_length := hash_size * hash_size in
  if bool_decide (len hash_string ≠ expected_length) then false
  else forallb (λ c, bool_decide (c ∈ ["0"%char; "1"%char]))
         (list_ascii_of_string hash_string).

End ImageHasher.

(** ** Python dictionaries

    A [dict] keeps its items in insertion order; assigning to a key that is
    present replaces the value in place, assigning to a new key appends. *)
Abbreviation pydict V := (list (string * V)).

Section PyDict.
Context {V : Type}.

(** [d.get(k)]: [None] when [k not in d]. *)
Fixpoint dict_get (d : pydict V) (k : string) : option V :=
  match d with
  | [] => None
  | (k', v) :: d' => if bool_decide (k' = k) then Some v else dict_get d' k
  end.

(** [d[k] = v] *)
Fixpoint dict_setitem (d : pydict V) (k : string) (v : V) : pydict V :=
  match d with
  | [] => [(k, v)]
  | (k', v') :: d' =>
      if bool_decide (k' = k) then (k', v) :: d' else (k', v') :: dict_setitem d' k v
  end.

(** [d.update(other)] *)
Definition dict_update (d other : pydict V) : pydict V :=
  foldl (λ acc kv, dict_setitem acc kv.1 kv.2) d other.

(** [d.values()] *)
Definition dict_values (d : pydict V) : list V := d.*2.
End PyDict.

(** ** validation_result.py *)

(** A value stored in [ValidationResult.details]. [DRate a b] stands for the
    float [a / b * 100]. *)
#[local] Unset Elimination Schemes.
Inductive detail :=
| DStr (s : string)
| DInt (n : Z)
| DRate (num den : Z)
| DMap (d : pydict string)
| DSub (ds : list (string * detail)).
#[local] Set Elimination Schemes.

(** [ValidationResult]; an error or a warning is kept as its message (the other
    fields of [ValidationError] keep their defaults in the code below), and
    [timestamp] and [execution_time] are left out. *)
Record ValidationResult := {
  success : bool;
  errors : list string;
  warnings : list string;
  processed_files : Z;
  total_files : Z;
  details : list (string * detail)
}.

Definition new_result (ok : bool) : ValidationResult :=
  {| success := ok; errors := []; warnings := [];
     processed_files := 0; total_files := 0; details := [] |}.

Definition add_error (r : ValidationResult) (message : string) : ValidationResult :=
  {| success := false; errors := errors r ++ [message]; warnings := warnings r;
     processed_files := processed_files r; total_files := total_files r;
     details := details r |}.

Definition add_warning (r : ValidationResult) (message : string) : ValidationResult :=
  {| success := success r; errors := errors r; warnings := warnings r ++ [message];
     processed_files := processed_files r; total_files := total_files r;
     details := details r |}.

Definition set_counts (r : ValidationResult) (processed total : Z) : ValidationResult :=
  {| success := success r; errors := errors r; warnings := warnings r;
     processed_files := processed; total_files := total; details := details r |}.

Definition set_details (r : ValidationResult) (ds : list (string * detail)) : ValidationResult :=
  {| success := success r; errors := errors r; warnings := warnings r;
     processed_files := processed_files r; total_files := total_files r;
     details := ds |}.

(** ** The world: mapping files, image cache, and the input/output performed *)

(** What a [.json] path holds: text that does not parse, or a flat JSON object. *)
Inductive json_content :=
| Unparsable
| JsonObject (d : pydict string).

Inductive io_event :=
| EvReadJson (path : string)
| EvWriteJson (path : string)
| EvFetch (domain filename : string)
| EvWriteImage (path : string)
| EvReadImage (path : string).

Record world := {
  w_json : gmap string json_content;        (* the .json files, by path *)
  w_cache : gmap string (list Byte.byte);   (* the files of temp_dir, by path *)
  w_log : list io_event                     (* oldest event first *)
}.

Definition log (ev : io_event) (w : world) : world :=
  {| w_json := w_json w; w_cache := w_cache w; w_log := w_log w ++ [ev] |}.

Definition put_json (path : string) (c : json_content) (w : world) : world :=
  {| w_json := <[path := c]> (w_json w); w_cache := w_cache w; w_log := w_log w |}.

Definition put_image (path : string) (data : list Byte.byte) (w : world) : world :=
  {| w_json := w_json w; w_cache := <[path := data]> (w_cache w); w_log := w_log w |}.

(** [DomainConfig], with the field the URL is built from; headers, delays and
    time-outs only parameterise the HTTP request. *)
Record DomainConfig := {
  domain_name : string;
  image_url_pattern : string
}.

(** What the program is run against.  [http_download cfg filename] is the
    outcome of [construct_image_url] followed by the retried GET of
    [download_image_async]: the bytes of a non-empty response that Pillow
    verified, or the error message recorded after the last attempt.
    [can_write path] tells whether [write_json_file] manages to write.
    [unicode_isalnum cp] is [chr(cp).isalnum()] for a code point above 127,
    which the interpreter reads off its Unicode database. *)
Record env := {
  pil : PIL;
  temp_dir : string;
  DOMAIN_CONFIGS : gmap string DomainConfig;
  http_download : DomainConfig → string → list Byte.byte + string;
  can_write : string → bool;
  unicode_isalnum : Z → bool
}.

(** ** file_utils.py *)

Definition json_exists (path : string) (w : world) : bool :=
  bool_decide (is_Some (w_json w !! path)).

Definition read_json_file (path : string) (w : world) : option (pydict string) * world :=
  match w_json w !! path with
  | None => (None, w)
  | Some Unparsable => (None, log (EvReadJson path) w)
  | Some (JsonObject data) => (Some data, log (EvReadJson path) w)
  end.

(** The write goes to a temporary file that replaces the target: the target is
    either replaced whole or left as it was, and the function reports which. *)
Definition write_json_file (E : env) (path : string) (data : pydict string) (w : world)
    : bool * world :=
  if can_write E path then (true, log (EvWriteJson path) (put_json path (JsonObject data) w))
  else (false, w).

(** [read_json_file(path) or {}] *)
Definition or_empty (r : option (pydict string)) : pydict string := default [] r.

(** ** config/domain_configs.py *)

Definition get_domain_config (E : env) (domain : string) : option DomainConfig :=
  DOMAIN_CONFIGS E !! domain.

(** ** processors/image_downloader.py *)

Module ImageDownloader.

(** [self.stats] *)
Record stats := {
  downloaded : Z;
  failed : Z;
  cached : Z;
  stat_errors : list string
}.

Definition reset_stats : stats :=
  {| downloaded := 0; failed := 0; cached := 0; stat_errors := [] |}.

(** [c.isalnum()] for a character: the ASCII letters and digits, and above
    U+007F what the Unicode database says. *)
Definition isalnum (E : env) (c : string) : bool :=
  let cp := code_point c in
  if bool_decide (cp < 128) then
    bool_decide (48 ≤ cp ≤ 57) || bool_decide (65 ≤ cp ≤ 90)
    || bool_decide (97 ≤ cp ≤ 122)
  else unicode_isalnum E cp.

(** ["".join(c for c in filename if c.isalnum() or c in ".-_")] *)
Definition safe_filename (E : env) (filename : string) : string :=
  join (filter (λ c, isalnum E c || bool_decide (c ∈ ["."; "-"; "_"]) = true)
          (characters filename)).

Definition get_cached_image_path (E : env) (domain filename : string) : string :=
  temp_dir E +:+ "/" +:+ domain +:+ "_" +:+ safe_filename E filename.

(** [cache_path.exists() and cache_path.stat().st_size > 0] *)
Definition is_image_cached (E : env) (domain filename : string) (w : world) : bool :=
  match w_cache w !! get_cached_image_path E domain filename with
  | Some data => bool_decide (data ≠ [])
  | None => false
  end.

(** One download: the returned [success] flag, the statistics and the world
    after it. *)
Definition download_image_async (E : env) (config : DomainConfig)
    (domain filename : string) (st : stats) (w : world) : bool * stats * world :=
  if is_image_cached E domain filename w then
    (true, {| downloaded := downloaded st; failed := failed st;
              cached := cached st + 1; stat_errors := stat_errors st |}, w)
  else
    let cache_path := get_cached_image_path E domain filename in
    let w := log (EvFetch domain filename) w in
    match http_download E config filename with
    | inl content =>
        (true, {| downloaded := downloaded st + 1; failed := failed st;
                  cached := cached st; stat_errors := stat_errors st |},
         log (EvWriteImage cache_path) (put_image cache_path content w))
    | inr error_msg =>
        (false, {| downloaded := downloaded st; failed := failed st + 1;
                   cached := cached st; stat_errors := stat_errors st ++ [error_msg] |}, w)
    end.

(** The gathered downloads of [download_images_batch_async], with the lists
    the results are sorted into.  [asyncio.gather] runs them concurrently, at
    most [max_concurrent] at a time; they are taken here one after the other,
    in the order of [filenames].  Downloads of file names with different cache
    paths do not see each other, so the statistics, the cache and the two
    lists are then those of every schedule, and only the order of the
    recorded errors is that of this one.  Of two file names with one cache
    path the later finds the image of the earlier cached here, where a
    schedule that starts both before either has written downloads both. *)
Fixpoint download_all (E : env) (config : DomainConfig) (domain : string)
    (filenames : list string) (successful_downloads failed_downloads : list string)
    (st : stats) (w : world) : list string * list string * stats * world :=
  match filenames with
  | [] => (successful_downloads, failed_downloads, st, w)
  | filename :: rest =>
      let '(ok, st, w) := download_image_async E config domain filename st w in
      if ok then download_all E config domain rest
                   (successful_downloads ++ [filename]) failed_downloads st w
      else download_all E config domain rest
             successful_downloads (failed_downloads ++ [filename]) st w
  end.

Definition join_with (sep : string) (parts : list string) : string :=
  String.concat sep parts.

Definition download_images_batch_async (E : env) (domain : string)
    (filenames : list string) (w : world) : ValidationResult * world :=
  if bool_decide (filenames = []) then
    (set_details (new_result true) [("message", DStr "No images to download")], w)
  else
    match get_domain_config E domain with
    | None =>
        let result := add_error (new_result false)
                        ("No configuration found for domain: " +:+ domain) in
        (set_details result [("domain", DStr domain); ("error", DStr "Unsupported domain")], w)
    | Some config =>
        let '(successful_downloads, failed_downloads, st, w) :=
          download_all E config domain filenames [] [] reset_stats w in
        let total_processed := downloaded st + failed st + cached st in
        let ok := bool_decide (failed st = 0) in
        let message_parts :=
          (if bool_decide (downloaded st > 0)
           then ["Downloaded: " +:+ pretty (downloaded st)] else [])
          ++ (if bool_decide (cached st > 0)
              then ["Cached: " +:+ pretty (cached st)] else [])
          ++ (if bool_decide (failed st > 0)
              then ["Failed: " +:+ pretty (failed st)] else []) in
        let message := "Image download for " +:+ domain +:+ ": "
                       +:+ join_with ", " message_parts in
        let result := set_counts (new_result ok) total_processed
                        (Z.of_nat (length filenames)) in
        let result := set_details result
          [("message", DStr message); ("domain", DStr domain);
           ("downloaded", DInt (downloaded st)); ("cached", DInt (cached st));
           ("failed", DInt (failed st));
           ("success_rate", DRate (downloaded st + cached st)
                              (Z.of_nat (length filenames)))] in
        let result := foldl add_error result (take 10 (stat_errors st)) in
        let result :=
          if negb ok then
            add_warning result ("Failed to download "
              +:+ pretty (Z.of_nat (length failed_downloads)) +:+ " images")
          else result in
        (result, w)
    end.

(** The synchronous wrapper runs the batch to completion. *)
Definition download_images_sync (E : env) (domain : string)
    (filenames : list string) (w : world) : ValidationResult * world :=
  download_images_batch_async E domain filenames w.

Definition get_downloaded_image_path (E : env) (domain filename : string) (w : world)
    : option string :=
  let cache_path := get_cached_image_path E domain filename in
  if bool_decide (is_Some (w_cache w !! cache_path)) then Some cache_path else None.

End ImageDownloader.

(** [ImageHasher.hash_image_file] with the default [hash_size] of 8 that
    [SyncProcessor] constructs its hasher with: a file that cannot be read gives
    the empty string. *)
Definition hash_image_file (E : env) (file_path : string) (w : world) : string * world :=
  match w_cache w !! file_path with
  | Some image_data =>
      (ImageHasher.hash_image_data 8 (pil E) image_data, log (EvReadImage file_path) w)
  | None => ("", w)
  end.

(** ** processors/sync_processor.py *)

Module SyncProcessor.
Import ImageDownloader.

(** [mappings_dir / "filename-mappings" / f"{domain}.json"] and its
    counterpart for the hash mapping. *)
Definition filename_mapping_path (mappings_dir domain : string) : string :=
  mappings_dir +:+ "/filename-mappings/" +:+ domain +:+ ".json".

Definition hash_mapping_path (mappings_dir domain : string) : string :=
  mappings_dir +:+ "/hash-mappings/" +:+ domain +:+ ".json".

(** A mapping file that is missing, or that [read_json_file] cannot read,
    gives the empty dictionary; nothing here raises, so the [except] branch
    around the call in [sync_domain] is never taken. *)
Definition load_mappings (domain mappings_dir : string) (w : world)
    : pydict string * pydict string * world :=
  let filename_file := filename_mapping_path mappings_dir domain in
  let hash_file := hash_mapping_path mappings_dir domain in
  let '(filename_mapping, w) :=
    if json_exists filename_file w
    then let '(r, w) := read_json_file filename_file w in (or_empty r, w)
    else ([], w) in
  let '(hash_mapping, w) :=
    if json_exists hash_file w
    then let '(r, w) := read_json_file hash_file w in (or_empty r, w)
    else ([], w) in
  (filename_mapping, hash_mapping, w).

(** The characters of the filename mapping that no hash maps to. *)
Definition find_missing_hashes (filename_mapping hash_mapping : pydict string)
    : gset string :=
  let filename_characters : gset string := list_to_set (dict_values filename_mapping) in
  let hash_characters : gset string := list_to_set (dict_values hash_mapping) in
  filename_characters ∖ hash_characters.

(** The body of the loop of [get_filenames_for_characters] for one item of
    the filename mapping. *)
Definition add_filename (characters : gset string)
    (char_to_filenames : pydict (list string)) (item : string * string)
    : pydict (list string) :=
  let '(filename, character) := item in
  if bool_decide (character ∈ characters) then
    let char_to_filenames :=
      match dict_get char_to_filenames character with
      | None => dict_setitem char_to_filenames character []
      | Some _ => char_to_filenames
      end in
    dict_setitem char_to_filenames character
      (default [] (dict_get char_to_filenames character) ++ [filename])
  else char_to_filenames.

Definition get_filenames_for_characters (filename_mapping : pydict string)
    (characters : gset string) : pydict (list string) :=
  foldl (add_filename characters) [] filename_mapping.

(** "Collect all filenames to download": [all_filenames.extend(filenames)]
    for each value of the dictionary. *)
Definition collect_filenames (char_to_filenames : pydict (list string)) : list string :=
  foldl (λ all_filenames filenames, all_filenames ++ filenames)
        [] (dict_values char_to_filenames).

(** "Remove duplicates while preserving order": the loop over
    [all_filenames] with its two accumulators. *)
Fixpoint remove_duplicates (all_filenames unique_filenames : list string)
    (seen : gset string) : list string :=
  match all_filenames with
  | [] => unique_filenames
  | filename :: rest =>
      if bool_decide (filename ∉ seen)
      then remove_duplicates rest (unique_filenames ++ [filename]) ({[filename]} ∪ seen)
      else remove_duplicates rest unique_filenames seen
  end.

(** The list handed to [download_images_sync]. *)
Definition download_list (char_to_filenames : pydict (list string)) : list string :=
  remove_duplicates (collect_filenames char_to_filenames) [] ∅.

(** The inner [for filename in filenames] loop: it stops at the first file
    whose hash is not empty.  [character_hash] is [None] for Python's [None]. *)
Fixpoint hash_first_image (E : env) (domain character : string)
    (filenames : list string) (character_hash : option string)
    (hash_results : pydict string) (w : world)
    : option string * pydict string * world :=
  match filenames with
  | [] => (character_hash, hash_results, w)
  | filename :: rest =>
      match get_downloaded_image_path E domain filename w with
      | Some image_path =>
          let '(h, w) := hash_image_file E image_path w in
          if bool_decide (h ≠ "")
          then (Some h, dict_setitem hash_results h character, w)
          else hash_first_image E domain character rest (Some h) hash_results w
      | None => hash_first_image E domain character rest character_hash hash_results w
      end
  end.

(** The outer [for character, filenames in char_to_filenames.items()] loop. *)
Fixpoint hash_characters (E : env) (domain : string)
    (items : pydict (list string)) (hash_results : pydict string)
    (failed_hashes : list string) (w : world)
    : pydict string * list string * world :=
  match items with
  | [] => (hash_results, failed_hashes, w)
  | (character, filenames) :: rest =>
      let '(character_hash, hash_results, w) :=
        hash_first_image E domain character filenames None hash_results w in
      let failed_hashes :=
        match character_hash with
        | None => failed_hashes ++ [character]
        | Some _ => failed_hashes
        end in
      hash_characters E domain rest hash_results failed_hashes w
  end.

(** [len(d)] for a dictionary. *)
Definition dict_len {V} (d : pydict V) : Z := Z.of_nat (length d).

(** Download the candidate images, then hash the first usable image of each
    character.  A failed download ends the function with the download result. *)
Definition process_missing_characters (E : env) (domain : string)
    (char_to_filenames : pydict (list string)) (w : world) : ValidationResult * world :=
  if bool_decide (char_to_filenames = []) then
    (set_details (new_result true)
       [("message", DStr "No missing characters to process")], w)
  else
    match get_domain_config E domain with
    | None =>
        (add_error (new_result false)
           ("No configuration found for domain: " +:+ domain), w)
    | Some config =>
        let unique_filenames := download_list char_to_filenames in
        let '(download_result, w) := download_images_sync E domain unique_filenames w in
        if negb (success download_result) then (download_result, w)
        else
          let '(hash_results, failed_hashes, w) :=
            hash_characters E domain char_to_filenames [] [] w in
          let result := new_result (bool_decide (length failed_hashes = 0%nat)) in
          let result := set_counts result (dict_len hash_results)
                          (dict_len char_to_filenames) in
          let result := set_details result
            [("domain", DStr domain);
             ("characters_processed", DInt (dict_len char_to_filenames));
             ("hashes_created", DInt (dict_len hash_results));
             ("failed_characters", DInt (Z.of_nat (length failed_hashes)));
             ("download_stats", DSub (details download_result))] in
          let result :=
            foldl (λ r character,
                     add_error r ("Failed to create hash for character: " +:+ character))
                  result failed_hashes in
          let result :=
            if bool_decide (Z.of_nat (length failed_hashes) > 0) then
              add_warning result ("Failed to create hashes for "
                +:+ pretty (Z.of_nat (length failed_hashes)) +:+ " characters")
            else result in
          let result := set_details result
                          (details result ++ [("hash_results", DMap hash_results)]) in
          (result, w)
    end.

(** The message of one conflict, or nothing for an entry that does not
    conflict: the body of the "Check for conflicts" loop. *)
Definition conflict_of (existing_mapping : pydict string) (entry : string * string)
    : list string :=
  let '(hash_value, character) := entry in
  match dict_get existing_mapping hash_value with
  | Some existing =>
      if bool_decide (existing ≠ character)
      then ["Hash " +:+ hash_value +:+ " maps to '" +:+ existing
            +:+ "' but trying to add '" +:+ character +:+ "'"]
      else []
  | None => []
  end.

(** The "Check for conflicts" loop over [new_hashes.items()]. *)
Definition find_conflicts (existing_mapping new_hashes : pydict string) : list string :=
  foldl (λ conflicts entry, conflicts ++ conflict_of existing_mapping entry) [] new_hashes.

(** Merge [new_hashes] into the mapping stored at [hash_file].  Any conflict
    ends the function before the merge.  [write_json_file] reports a failure
    through its result, which is not looked at, and never raises. *)
Definition update_hash_mapping (E : env) (hash_file : string)
    (new_hashes : pydict string) (w : world) : ValidationResult * world :=
  if bool_decide (new_hashes = []) then
    (set_details (new_result true) [("message", DStr "No new hashes to add")], w)
  else
    let '(existing_mapping, w) :=
      if json_exists hash_file w
      then let '(r, w) := read_json_file hash_file w in (or_empty r, w)
      else ([], w) in
    let conflicts := find_conflicts existing_mapping new_hashes in
    if bool_decide (conflicts ≠ []) then
      (foldl add_error (new_result false) conflicts, w)
    else
      let updated_mapping := dict_update existing_mapping new_hashes in
      let '(_, w) := write_json_file E hash_file updated_mapping w in
      let result := set_counts (new_result true) (dict_len new_hashes)
                      (dict_len updated_mapping) in
      let result := set_details result
        [("file", DStr hash_file);
         ("existing_hashes", DInt (dict_len existing_mapping));
         ("new_hashes", DInt (dict_len new_hashes));
         ("total_hashes", DInt (dict_len updated_mapping))] in
      (result, w).

(** [process_result.details.get('hash_results', {})] *)
Definition hash_results_of (r : ValidationResult) : pydict string :=
  match dict_get (details r) "hash_results" with
  | Some (DMap d) => d
  | _ => []
  end.

(** "Create final result" of [sync_domain]. *)
Definition final_result (domain : string) (missing_characters : gset string)
    (filename_mapping hash_mapping new_hashes : pydict string)
    (process_result : ValidationResult) : ValidationResult :=
  let result := set_counts (new_result true) (dict_len new_hashes)
                  (Z.of_nat (size missing_characters)) in
  let result := set_details result
    [("domain", DStr domain);
     ("missing_characters", DInt (Z.of_nat (size missing_characters)));
     ("hashes_created", DInt (dict_len new_hashes));
     ("filename_entries", DInt (dict_len filename_mapping));
     ("hash_entries_before", DInt (dict_len hash_mapping));
     ("hash_entries_after", DInt (dict_len hash_mapping + dict_len new_hashes));
     ("process_details", DSub (details process_result))] in
  if bool_decide (dict_len new_hashes < Z.of_nat (size missing_characters)) then
    let failed_count := Z.of_nat (size missing_characters) - dict_len new_hashes in
    add_warning result ("Failed to create hashes for " +:+ pretty failed_count
                        +:+ " characters")
  else result.

(** The synchronisation of one domain. *)
Definition sync_domain (E : env) (domain mappings_dir : string) (w : world)
    : ValidationResult * world :=
  let '(filename_mapping, hash_mapping, w) := load_mappings domain mappings_dir w in
  let missing_characters := find_missing_hashes filename_mapping hash_mapping in
  if bool_decide (missing_characters = ∅) then
    (set_details (new_result true)
       [("domain", DStr domain);
        ("message", DStr "All characters from filename mapping exist in hash mapping");
        ("filename_entries", DInt (dict_len filename_mapping));
        ("hash_entries", DInt (dict_len hash_mapping))], w)
  else
    let char_to_filenames :=
      get_filenames_for_characters filename_mapping missing_characters in
    let '(process_result, w) := process_missing_characters E domain char_to_filenames w in
    if negb (success process_result) then (process_result, w)
    else
      let new_hashes := hash_results_of process_result in
      let finish w :=
        (final_result domain missing_characters filename_mapping hash_mapping
           new_hashes process_result, w) in
      if bool_decide (new_hashes ≠ []) then
        let hash_file := hash_mapping_path mappings_dir domain in
        let '(update_result, w) := update_hash_mapping E hash_file new_hashes w in
        if negb (success update_result) then (update_result, w) else finish w
      else finish w.

End SyncProcessor.

(** ** A small environment to run the model on

    Used only to evaluate the functions above on concrete inputs. *)
Module Example.
Import ImageDownloader SyncProcessor.

(** A decoder of one-row grey images: each byte is a pixel and the empty
    buffer is not an image; resizing samples the nearest pixel of the row. *)
Definition raw_pil : PIL := {|
  Image := list Z;
  Image_open data :=
    match data with
    | [] => None
    | _ => Some ((λ b, Z.of_N (Byte.to_N b)) <$> data)
    end;
  resize_L_getdata img w h :=
    if bool_decide (0 < w ∧ 0 < h) then
      Some (mjoin ((λ _ : Z,
                      (λ x, default 0 (img !! Z.to_nat (x * Z.of_nat (length img) / w)))
                      <$> range w) <$> range h))
    else None
|}.

Definition rising : list Byte.byte :=
  [Byte.x01; Byte.x02; Byte.x03; Byte.x04; Byte.x05; Byte.x06; Byte.x07; Byte.x08; Byte.x09].

Definition falling : list Byte.byte := reverse rising.

Definition example_config : DomainConfig :=
  {| domain_name := "example.com";
     image_url_pattern := "https://example.com/static/images/{filename}" |}.

(** The Unicode database on the two blocks the examples draw from: the Latin-1
    supplement (its letters, the superscript digits and the fractions) and the
    CJK unified ideographs U+4E00 to U+9FA5.  The other characters above U+007F that occur in
    the examples are punctuation. *)
Definition latin1_or_cjk_isalnum (cp : Z) : bool :=
  bool_decide (cp ∈ [170; 178; 179; 181; 185; 186; 188; 189; 190])
  || bool_decide (192 ≤ cp ≤ 214) || bool_decide (216 ≤ cp ≤ 246)
  || bool_decide (248 ≤ cp ≤ 255) || bool_decide (19968 ≤ cp ≤ 40869).

(** [a.png] and [c.png] can be fetched, anything else answers 404. *)
Definition example_env : env := {|
  pil := raw_pil;
  temp_dir := "temp";
  DOMAIN_CONFIGS := {[ "example.com" := example_config ]};
  http_download cfg filename :=
    if bool_decide (filename = "a.png") then inl rising
    else if bool_decide (filename = "c.png") then inl falling
    else inr ("HTTP 404 for https://example.com/static/images/" +:+ filename);
  can_write _ := true;
  unicode_isalnum := latin1_or_cjk_isalnum
|}.

Definition ones : string :=
  "1111111111111111111111111111111111111111111111111111111111111111".
Definition zeros : string :=
  "0000000000000000000000000000000000000000000000000000000000000000".

Definition hash_file : string := hash_mapping_path "." "example.com".
Definition filename_file : string := filename_mapping_path "." "example.com".

(** A world with the two mapping files of [example.com] and an empty cache. *)
Definition world_of (filename_mapping hash_mapping : pydict string) : world :=
  {| w_json := {[ filename_file := JsonObject filename_mapping;
                  hash_file := JsonObject hash_mapping ]};
     w_cache := ∅;
     w_log := [] |}.
End Example.


(** ** image_hasher.py: the auxiliary operations *)

(** A percentage that the code computes in floating point.  [Pct0] is the
    literal [0.0] that a function returns without computing; the other two
    are the expressions the code evaluates, kept unevaluated: the float of an
    expression can be [0.0] as well ([PctRest n n], [PctOf 0 n]), and two
    expressions can round to one float, so that equality of two percentages
    says that the code took the same path with the same operands, and no
    more. *)
Inductive percentage :=
| Pct0                      (* the literal 0.0 *)
| PctOf (num den : Z)       (* (num / den) * 100 *)
| PctRest (num den : Z).    (* (1 - num / den) * 100 *)

Module HashTools.

(** [similarity_percentage]: the literal 0.0 when the lengths differ, when
    the distance is the error value, and when the division by the length
    raises (both strings empty); otherwise [max(0.0, similarity)], which is
    [similarity], as the distance never exceeds the length. *)
Definition similarity_percentage (hash1 hash2 : string) : percentage :=
  if bool_decide (len hash1 ≠ len hash2) then Pct0
  else
    let hamming_dist := ImageHasher.hamming_distance hash1 hash2 in
    if bool_decide (hamming_dist < 0) then Pct0
    else if bool_decide (len hash1 = 0) then Pct0
    else PctRest hamming_dist (len hash1).

(** [s.count(c)] for a one-character [c]. *)
Fixpoint count_char (c : ascii) (s : string) : Z :=
  match s with
  | EmptyString => 0
  | String c' rest => (if bool_decide (c' = c) then 1 else 0) + count_char c rest
  end.

(** The dictionary [get_hash_info] returns, as a record of its keys. *)
Record hash_info := {
  info_hash : string;
  info_length : Z;
  info_expected_length : Z;
  info_is_valid : bool;
  info_hash_size : Z;
  info_ones_count : Z;
  info_zeros_count : Z;
  info_ones_percentage : percentage;
  info_zeros_percentage : percentage
}.

Definition get_hash_info (hash_size : Z) (hash_string : string) : hash_info :=
  let ones_count := count_char "1" hash_string in
  let zeros_count := count_char "0" hash_string in
  {| info_hash := hash_string;
     info_length := len hash_string;
     info_expected_length := hash_size * hash_size;
     info_is_valid := ImageHasher.validate_hash_format hash_size hash_string;
     info_hash_size := hash_size;
     info_ones_count := ones_count;
     info_zeros_count := zeros_count;
     info_ones_percentage :=
       if bool_decide (len hash_string > 0)
       then PctOf ones_count (len hash_string) else Pct0;
     info_zeros_percentage :=
       if bool_decide (len hash_string > 0)
       then PctOf zeros_count (len hash_string) else Pct0 |}.

(** An element of the list [compare_with_database] returns. *)
Record similar_image (M : Type) := {
  sim_hash : string;
  sim_metadata : M;
  sim_hamming_distance : Z;
  sim_similarity_percentage : percentage
}.
Arguments sim_hash {M}.
Arguments sim_metadata {M}.
Arguments sim_hamming_distance {M}.
Arguments sim_similarity_percentage {M}.

(** [l.sort(key=...)]: Python's sort is stable, and a stable sort has one
    result, whatever the algorithm; this one inserts each element before the
    first element that does not have a smaller key. *)
Fixpoint insert_by_key {A} (key : A → Z) (x : A) (l : list A) : list A :=
  match l with
  | [] => [x]
  | y :: l' => if bool_decide (key x ≤ key y) then x :: y :: l'
               else y :: insert_by_key key x l'
  end.

Definition sort_by_key {A} (key : A → Z) (l : list A) : list A :=
  foldr (insert_by_key key) [] l.

(** The loop of [compare_with_database] over [hash_database.items()]. *)
Definition collect_similar {M} (new_hash : string) (threshold : Z)
    (hash_database : pydict M) : list (similar_image M) :=
  foldl (λ similar_images item,
           let '(stored_hash, metadata) := item in
           let distance := ImageHasher.hamming_distance new_hash stored_hash in
           if bool_decide (0 ≤ distance ≤ threshold) then
             similar_images ++
               [{| sim_hash := stored_hash; sim_metadata := metadata;
                   sim_hamming_distance := distance;
                   sim_similarity_percentage :=
                     similarity_percentage new_hash stored_hash |}]
           else similar_images)
        [] hash_database.

Definition compare_with_database {M} (new_hash : string) (hash_database : pydict M)
    (threshold : Z) : list (similar_image M) :=
  sort_by_key sim_hamming_distance (collect_similar new_hash threshold hash_database).

End HashTools.

(** ** The callers of [sync_domain]: [sync_all_domains] and main.py's
    [run_synchronization] *)

Module Callers.
Import SyncProcessor.

(** [s.startswith(p)], [s.endswith(p)] and [sub in s] *)
Definition startswith (s p : string) : bool := String.prefix p s.

Definition endswith (s p : string) : bool :=
  bool_decide (String.length p ≤ String.length s)%nat
  && String.eqb (String.substring (String.length s - String.length p)
                   (String.length p) s) p.

Fixpoint contains (sub s : string) : bool :=
  String.prefix sub s
  || match s with
     | EmptyString => false
     | String _ rest => contains sub rest
     end.

(** [name.rfind('.')], counting positions from [i]. *)
Fixpoint rfind_dot (name : string) (i : nat) : option nat :=
  match name with
  | EmptyString => None
  | String c rest =>
      match rfind_dot rest (S i) with
      | Some j => Some j
      | None => if bool_decide (c = "."%char) then Some i else None
      end
  end.

(** [Path.stem] of a file name: the name without its last suffix. *)
Definition stem (name : string) : string :=
  match rfind_dot name 0 with
  | Some i =>
      if bool_decide (0 < i < String.length name - 1)%nat
      then String.substring 0 i name else name
  | None => name
  end.

(** An [env] whose [SyncProcessor] was constructed with [temp_dir]. *)
Definition with_temp_dir (E : env) (dir : string) : env :=
  {| pil := pil E; temp_dir := dir; DOMAIN_CONFIGS := DOMAIN_CONFIGS E;
     http_download := http_download E; can_write := can_write E;
     unicode_isalnum := unicode_isalnum E |}.

(** The loop [for domain in domains: results[domain] = sync_domain(domain,
    mappings_dir)] of both callers.  [sync_domain] never raises here, so the
    [except] branch of the loop in [sync_all_domains] is never taken. *)
Fixpoint sync_domains (E : env) (mappings_dir : string) (domains : list string)
    (results : pydict ValidationResult) (w : world)
    : pydict ValidationResult * world :=
  match domains with
  | [] => (results, w)
  | domain :: rest =>
      let '(result, w) := sync_domain E domain mappings_dir w in
      sync_domains E mappings_dir rest (dict_setitem results domain result) w
  end.

(** The file names the filter of [sync_all_domains] skips. *)
Definition skipped (name : string) : bool :=
  endswith name ".min.json" || contains ".backup" name || startswith name ".".

(** [sync_all_domains].  [domain_files] is what the directory
    [filename-mappings] holds: [None] when it does not exist, or else the names
    of the files [glob("*.json")] lists, in the order it lists them. *)
Definition sync_all_domains (E : env) (domain_files : option (list string))
    (mappings_dir : string) (w : world) : pydict ValidationResult * world :=
  match domain_files with
  | None => ([], w)
  | Some domain_files =>
      let domains := stem <$> filter (λ name, skipped name = false) domain_files in
      if bool_decide (domains = []) then ([], w)
      else sync_domains E mappings_dir domains [] w
  end.

(** [sync_all_domain_mappings]: a [SyncProcessor] with the default
    [temp_dir]. *)
Definition sync_all_domain_mappings (E : env) (domain_files : option (list string))
    (mappings_dir : string) (w : world) : pydict ValidationResult * world :=
  sync_all_domains (with_temp_dir E "temp") domain_files mappings_dir w.

(** main.py's [run_synchronization]; [domains] is [[]] for [None]. *)
Definition run_synchronization (E : env) (domain_files : option (list string))
    (mappings_dir temp_dir : string) (domains : list string) (dry_run : bool)
    (w : world) : pydict ValidationResult * world :=
  if dry_run then ([], w)
  else if bool_decide (domains ≠ []) then
    sync_domains (with_temp_dir E temp_dir) mappings_dir domains [] w
  else sync_all_domain_mappings E domain_files mappings_dir w.

End Callers.

(** ** Vocabulary of the statements *)

(** A piece of a string that [characters] gives: a byte with continuation
    bytes. *)
Definition piece (s : string) : Prop :=
  ∃ c continuation,
    s = String c continuation
    ∧ forallb is_continuation (list_ascii_of_string continuation) = true.

(** An ASCII letter or digit, or one of the three marks a cache file name
    keeps. *)
Definition plain_char (c : ascii) : bool :=
  let n := Z.of_N (N_of_ascii c) in
  bool_decide (48 ≤ n ≤ 57) || bool_decide (65 ≤ n ≤ 90) || bool_decide (97 ≤ n ≤ 122)
  || bool_decide (c ∈ ["."%char; "-"%char; "_"%char]).

(** The bit the dHash emits for a pair of neighbouring pixels. *)
Definition dhash_bit (left_pixel right_pixel : Z) : ascii :=
  if bool_decide (left_pixel < right_pixel) then "1"%char else "0"%char.

(** The bits of row [y] for the columns [xs] of a raster of the given width. *)
Definition row_bits (pixels : list Z) (width y : Z) (xs : list Z) : list ascii :=
  (λ x, dhash_bit (pixels !!! Z.to_nat (y * width + x))
                  (pixels !!! Z.to_nat (y * width + x + 1))) <$> xs.

(** The hash mapping a path holds: what [update_hash_mapping] loads from it. *)
Definition stored_mapping (path : string) (w : world) : pydict string :=
  match w_json w !! path with
  | Some (JsonObject d) => d
  | _ => []
  end.

(** [x] occurs in [l] at position [a] and nowhere before. *)
Definition first_at {A} (l : list A) (a : nat) (x : A) : Prop :=
  l !! a = Some x ∧ ∀ k, (k < a)%nat → l !! k ≠ Some x.

(** The file names requested from the network, in the order of the requests. *)
Definition fetched (evs : list io_event) : list string :=
  omap (λ ev, match ev with EvFetch _ filename => Some filename | _ => None end) evs.

(** The events that only read a mapping file. *)
Definition is_json_read (ev : io_event) : Prop := ∃ path, ev = EvReadJson path.

(** A new entry conflicts when its hash is bound to another character. *)
Definition conflicting (existing_mapping : pydict string) (entry : string * string) : Prop :=
  ∃ existing, dict_get existing_mapping entry.1 = Some existing ∧ existing ≠ entry.2.

(** From [w] to [w'] no mapping file changed, and the network requests made in
    between are for file names of [filenames], in that order, each at most as
    often as it occurs there. *)
Definition io_step (w w' : world) (filenames : list string) : Prop :=
  w_json w' = w_json w
  ∧ ∃ evs, w_log w' = w_log w ++ evs ∧ fetched evs `sublist_of` filenames.


(** The path of the downloaded image of a file name, when there is none. *)
Definition no_image (E : env) (domain : string) (w : world) (filename : string) : Prop :=
  ImageDownloader.get_downloaded_image_path E domain filename w = None.

(** The hash of the downloaded image of a file name: [None] without an image,
    the empty string when the image cannot be hashed. *)
Definition candidate_hash (E : env) (domain : string) (w : world) (filename : string)
    : option string :=
  match ImageDownloader.get_downloaded_image_path E domain filename w with
  | Some image_path => Some (hash_image_file E image_path w).1
  | None => None
  end.

(** The cached images that were read for hashing, in the order of the reads. *)
Definition images_read (evs : list io_event) : list string :=
  omap (λ ev, match ev with EvReadImage path => Some path | _ => None end) evs.

(** * Properties *)

(** ** Strings built from one-character pieces *)

Lemma join_singletons (cs : list ascii) :
  join ((λ c, String c EmptyString) <$> cs) = string_of_list_ascii cs.
Proof.
  unfold join. induction cs as [|c [|c' cs] IH]; [done..|].
  change (String.concat "" ((λ c, String c EmptyString) <$> c :: c' :: cs))
    with (String c (String.concat "" ((λ c, String c EmptyString) <$> c' :: cs))).
  by rewrite IH.
Qed.

Lemma length_string_of_list (cs : list ascii) :
  String.length (string_of_list_ascii cs) = length cs.
Proof. induction cs; simpl; congruence. Qed.

Lemma get_string_of_list (cs : list ascii) (i : nat) :
  String.get i (string_of_list_ascii cs) = cs !! i.
Proof. revert i. induction cs as [|c cs IH]; intros [|i]; simpl; auto. Qed.

(** ** Lists of rows *)

Lemma lookup_rows {A} (n : nat) (rows : list (list A)) (i j : nat) (r : list A) :
  Forall (λ r, length r = n) rows →
  rows !! i = Some r → (j < n)%nat →
  mjoin rows !! (i * n + j)%nat = r !! j.
Proof.
  intros Hall. revert i. induction Hall as [|r0 rows Hr0 _ IH]; intros i Hi Hj.
  - by rewrite lookup_nil in Hi.
  - destruct i as [|i]; simpl in *.
    + simplify_eq. rewrite lookup_app_l; [done | lia].
    + rewrite lookup_app_r by lia.
      replace (n + i * n + j - length r0)%nat with (i * n + j)%nat by lia. auto.
Qed.

Lemma length_rows {A} (n : nat) (rows : list (list A)) :
  Forall (λ r, length r = n) rows → length (mjoin rows) = (length rows * n)%nat.
Proof.
  induction 1 as [|r rows Hr _ IH]; simpl; [done|]. rewrite length_app. lia.
Qed.

(** ** The difference hash *)

Lemma py_index_in_range {A} `{Inhabited A} (l : list A) (i : Z) :
  0 ≤ i < Z.of_nat (length l) → py_index l i = Some (l !!! Z.to_nat i).
Proof.
  intros Hi. unfold py_index. rewrite bool_decide_eq_true_2 by lia.
  apply list_lookup_lookup_total_lt. lia.
Qed.

Lemma bit_string (b : bool) :
  (if b then "1" else "0") = String (if b then "1"%char else "0"%char) EmptyString.
Proof. by destruct b. Qed.

Lemma dhash_columns_ok (pixels : list Z) (width y : Z) (xs : list Z) (acc : list string) :
  Forall (λ x, 0 ≤ y * width + x ∧ y * width + x + 1 < Z.of_nat (length pixels)) xs →
  ImageHasher.dhash_columns pixels width y xs acc
  = Some (acc ++ ((λ c, String c EmptyString) <$> row_bits pixels width y xs)).
Proof.
  intros Hxs. revert acc. induction Hxs as [|x xs [Hlo Hhi] _ IH]; intros acc.
  - by rewrite app_nil_r.
  - cbn [ImageHasher.dhash_columns].
    rewrite !py_index_in_range by lia. cbn [mbind option_bind].
    rewrite IH, bit_string, <- app_assoc. done.
Qed.

Lemma dhash_rows_ok (hash_size : Z) (pixels : list Z) (ys : list Z) (acc : list string) :
  Z.of_nat (length pixels) = (hash_size + 1) * hash_size →
  Forall (λ y, 0 ≤ y < hash_size) ys →
  ImageHasher.dhash_rows hash_size pixels (hash_size + 1) ys acc
  = Some (acc ++ ((λ c, String c EmptyString)
                  <$> mjoin ((λ y, row_bits pixels (hash_size + 1) y (range hash_size)) <$> ys))).
Proof.
  intros Hlen Hys. revert acc. induction Hys as [|y ys Hy _ IH]; intros acc.
  - by rewrite app_nil_r.
  - cbn [ImageHasher.dhash_rows]. rewrite dhash_columns_ok.
    + cbn [mbind option_bind]. rewrite IH. cbn [fmap list_fmap mjoin list_join].
      by rewrite fmap_app, app_assoc.
    + apply Forall_forall. intros x Hx. unfold range in Hx.
      apply list_elem_of_lookup in Hx as [i Hi]. apply lookup_seqZ in Hi. nia.
Qed.

Lemma calculate_dhash_bits (n : nat) (pixels : list Z) :
  length pixels = ((n + 1) * n)%nat →
  ImageHasher._calculate_dhash (Z.of_nat n) pixels
  = string_of_list_ascii
      (mjoin ((λ y, row_bits pixels (Z.of_nat n + 1) y (range (Z.of_nat n)))
              <$> range (Z.of_nat n))).
Proof.
  intros Hlen. unfold ImageHasher._calculate_dhash.
  rewrite dhash_rows_ok.
  - cbn [app]. apply join_singletons.
  - rewrite Hlen. lia.
  - apply Forall_forall. intros y Hy. unfold range in Hy.
    apply list_elem_of_lookup in Hy as [i Hi]. apply lookup_seqZ in Hi. lia.
Qed.

Lemma rows_all_length (n : nat) (pixels : list Z) (ys : list Z) :
  Forall (λ r : list ascii, length r = n)
    ((λ y, row_bits pixels (Z.of_nat n + 1) y (range (Z.of_nat n))) <$> ys).
Proof.
  apply Forall_fmap, Forall_forall. intros y _. simpl.
  unfold row_bits, range. rewrite length_fmap, length_seqZ. lia.
Qed.

Lemma dhash_bit_binary (a b : Z) : dhash_bit a b ∈ ["0"%char; "1"%char].
Proof. unfold dhash_bit. case_bool_decide; set_solver. Qed.

Lemma dhash_bits_binary (n : nat) (pixels : list Z) (ys : list Z) (c : ascii) :
  c ∈ mjoin ((λ y, row_bits pixels (Z.of_nat n + 1) y (range (Z.of_nat n))) <$> ys) →
  c ∈ ["0"%char; "1"%char].
Proof.
  intros Hc. apply list_elem_of_join in Hc as (row & Hc & Hrow).
  apply list_elem_of_fmap in Hrow as (y & -> & _).
  unfold row_bits in Hc. apply list_elem_of_fmap in Hc as (x & -> & _).
  apply dhash_bit_binary.
Qed.

Lemma calculate_dhash_length (n : nat) (pixels : list Z) :
  length pixels = ((n + 1) * n)%nat →
  len (ImageHasher._calculate_dhash (Z.of_nat n) pixels) = Z.of_nat n ^ 2.
Proof.
  intros Hlen. rewrite (calculate_dhash_bits n pixels Hlen).
  unfold len. rewrite length_string_of_list, (length_rows n) by apply rows_all_length.
  unfold range. rewrite length_fmap, length_seqZ. lia.
Qed.

Lemma calculate_dhash_format (n : nat) (pixels : list Z) :
  length pixels = ((n + 1) * n)%nat →
  ImageHasher.validate_hash_format (Z.of_nat n)
    (ImageHasher._calculate_dhash (Z.of_nat n) pixels) = true.
Proof.
  intros Hlen. unfold ImageHasher.validate_hash_format.
  rewrite bool_decide_eq_false_2
    by (rewrite (calculate_dhash_length n pixels Hlen); lia).
  rewrite (calculate_dhash_bits n pixels Hlen), list_ascii_of_string_of_list_ascii.
  apply forallb_forall. intros c Hc. apply bool_decide_eq_true_2.
  apply list_elem_of_In in Hc. by eapply dhash_bits_binary.
Qed.

(** C3: on a pixel list of length (hashSize+1)*hashSize, [_calculate_dhash]
    returns a string of exactly hashSize^2 characters, all of them '0' or '1',
    whose character at position y*hashSize+x (row-major) is '1' when the pixel
    at (x, y) is strictly less than the pixel at (x+1, y), and '0' otherwise. *)
Theorem calculate_dhash_row_major (n : nat) (pixels : list Z) :
  length pixels = ((n + 1) * n)%nat →
  let hash_size := Z.of_nat n in
  let h := ImageHasher._calculate_dhash hash_size pixels in
  len h = hash_size ^ 2
  ∧ ImageHasher.validate_hash_format hash_size h = true
  ∧ ∀ x y : Z, 0 ≤ x < hash_size → 0 ≤ y < hash_size →
      ∃ left_pixel right_pixel,
        pixels !! Z.to_nat (y * (hash_size + 1) + x) = Some left_pixel
        ∧ pixels !! Z.to_nat (y * (hash_size + 1) + x + 1) = Some right_pixel
        ∧ String.get (Z.to_nat (y * hash_size + x)) h
          = Some (if bool_decide (left_pixel < right_pixel) then "1"%char else "0"%char).
Proof.
  intros Hlen hash_size h. subst h hash_size.
  split; [by apply calculate_dhash_length|].
  split; [by apply calculate_dhash_format|].
  rewrite (calculate_dhash_bits n pixels Hlen).
  intros x y Hx Hy.
  exists (pixels !!! Z.to_nat (y * (Z.of_nat n + 1) + x)),
         (pixels !!! Z.to_nat (y * (Z.of_nat n + 1) + x + 1)).
  assert (Hin : ∀ i : Z, 0 ≤ i < (Z.of_nat n + 1) * Z.of_nat n →
            pixels !! Z.to_nat i = Some (pixels !!! Z.to_nat i)).
  { intros i Hi. apply list_lookup_lookup_total_lt. rewrite Hlen.
    apply Nat2Z.inj_lt. rewrite Z2Nat.id by lia. lia. }
  split; [apply Hin; nia|]. split; [apply Hin; nia|].
  rewrite get_string_of_list.
  replace (Z.to_nat (y * Z.of_nat n + x)) with (Z.to_nat y * n + Z.to_nat x)%nat by nia.
  rewrite (lookup_rows n _ _ _ (row_bits pixels (Z.of_nat n + 1) y (range (Z.of_nat n))));
    [| apply rows_all_length | | lia].
  - unfold row_bits, range. rewrite list_lookup_fmap, lookup_seqZ_lt by lia.
    simpl. rewrite Z.add_0_l, Z2Nat.id by lia. done.
  - unfold range. rewrite list_lookup_fmap, lookup_seqZ_lt by lia.
    simpl. rewrite Z.add_0_l, Z2Nat.id by lia. done.
Qed.

Lemma calculate_dhash_row_major_witness :
  ImageHasher._calculate_dhash 2 [1; 2; 3; 3; 2; 1] = "1100"
  ∧ len (ImageHasher._calculate_dhash 2 [1; 2; 3; 3; 2; 1]) = 2 ^ 2.
Proof.
  split; [reflexivity|].
  exact (proj1 (calculate_dhash_row_major 2 [1; 2; 3; 3; 2; 1] eq_refl)).
Defined.

(** ** Hamming distance *)

Section Hamming.
Import ImageHasher.

Lemma hamming_loop_acc (hash1 hash2 : string) (diff_count : Z) :
  hamming_loop hash1 hash2 diff_count = diff_count + hamming_loop hash1 hash2 0.
Proof.
  revert hash2 diff_count.
  induction hash1 as [|bit1 rest1 IH]; intros [|bit2 rest2] diff_count;
    cbn [hamming_loop]; try lia.
  rewrite (IH rest2 (if bool_decide (bit1 ≠ bit2) then _ else _)).
  rewrite (IH rest2 (if bool_decide (bit1 ≠ bit2) then 0 + 1 else 0)).
  case_bool_decide; lia.
Qed.

Lemma hamming_loop_cons (bit1 bit2 : ascii) (rest1 rest2 : string) :
  hamming_loop (String bit1 rest1) (String bit2 rest2) 0
  = (if bool_decide (bit1 ≠ bit2) then 1 else 0) + hamming_loop rest1 rest2 0.
Proof.
  cbn [hamming_loop]. rewrite hamming_loop_acc. by case_bool_decide.
Qed.

Lemma hamming_loop_bounds (hash1 hash2 : string) :
  0 ≤ hamming_loop hash1 hash2 0 ≤ len hash1.
Proof.
  revert hash2. unfold len.
  induction hash1 as [|bit1 rest1 IH]; intros [|bit2 rest2];
    try (cbn [hamming_loop String.length]; lia).
  rewrite hamming_loop_cons. specialize (IH rest2).
  cbn [String.length]. case_bool_decide; lia.
Qed.

Lemma hamming_loop_zero (hash1 hash2 : string) :
  String.length hash1 = String.length hash2 →
  hamming_loop hash1 hash2 0 = 0 ↔ hash1 = hash2.
Proof.
  revert hash2.
  induction hash1 as [|bit1 rest1 IH]; intros [|bit2 rest2] Hlen;
    simplify_eq/=; [done|].
  change (hamming_loop rest1 rest2 (if bool_decide (bit1 ≠ bit2) then 0 + 1 else 0))
    with (hamming_loop (String bit1 rest1) (String bit2 rest2) 0).
  rewrite hamming_loop_cons.
  pose proof (hamming_loop_bounds rest1 rest2) as Hb. specialize (IH rest2 Hlen).
  case_bool_decide as Hbit.
  - split; [lia | congruence].
  - subst bit2. rewrite Z.add_0_l, IH.
    split; congruence.
Qed.
End Hamming.

(** C8: for two strings of equal length the Hamming distance lies between 0
    and that length, and it is 0 exactly when the strings are equal. *)
Theorem hamming_distance_bounds (a b : string) :
  len a = len b →
  0 ≤ ImageHasher.hamming_distance a b ≤ len a
  ∧ (ImageHasher.hamming_distance a b = 0 ↔ a = b).
Proof.
  intros Hlen. unfold ImageHasher.hamming_distance.
  rewrite bool_decide_eq_false_2 by (intros ?; done).
  split; [apply hamming_loop_bounds|].
  apply hamming_loop_zero. unfold len in Hlen. lia.
Qed.

Lemma hamming_distance_bounds_witness :
  ImageHasher.hamming_distance "0101" "0011" = 2
  ∧ 0 ≤ ImageHasher.hamming_distance "0101" "0011" ≤ len "0101".
Proof.
  split; [reflexivity|].
  exact (proj1 (hamming_distance_bounds "0101" "0011" eq_refl)).
Defined.

(** ** Hashing a byte buffer *)

Lemma calculate_dhash_no_pixels (n : nat) :
  (0 < n)%nat → ImageHasher._calculate_dhash (Z.of_nat n) [] = "".
Proof.
  intros Hn. unfold ImageHasher._calculate_dhash, range.
  rewrite (seqZ_cons 0 (Z.of_nat n)) by lia. cbn [ImageHasher.dhash_rows].
  unfold range. rewrite (seqZ_cons 0 (Z.of_nat n)) by lia. done.
Qed.

(** C5 (as the code has it): a buffer that Pillow opens and resizes to the
    (n+1) x n raster hashes to a string of length n^2 over '0' and '1'; a buffer
    that Pillow cannot open, or for n > 0 cannot resize, hashes to the empty
    string. *)
Theorem hash_image_data_length (lib : PIL) (n : nat) (image_data : list Byte.byte) :
  let h := ImageHasher.hash_image_data (Z.of_nat n) lib image_data in
  (Image_open lib image_data = None → h = "")
  ∧ (∀ image, Image_open lib image_data = Some image →
       resize_L_getdata lib image (Z.of_nat n + 1) (Z.of_nat n) = None →
       (0 < n)%nat → h = "")
  ∧ (∀ image pixels, Image_open lib image_data = Some image →
       resize_L_getdata lib image (Z.of_nat n + 1) (Z.of_nat n) = Some pixels →
       length pixels = ((n + 1) * n)%nat →
       len h = Z.of_nat n ^ 2
       ∧ ImageHasher.validate_hash_format (Z.of_nat n) h = true).
Proof.
  intros h. subst h. unfold ImageHasher.hash_image_data, ImageHasher._preprocess_image.
  split; [by intros ->|]. split.
  - intros image -> -> Hn. by apply calculate_dhash_no_pixels.
  - intros image pixels -> -> Hlen.
    split; [by apply calculate_dhash_length | by apply calculate_dhash_format].
Qed.

Lemma hash_image_data_length_witness :
  ImageHasher.hash_image_data 8 Example.raw_pil Example.rising = Example.ones
  ∧ len (ImageHasher.hash_image_data 8 Example.raw_pil Example.rising) = 8 ^ 2.
Proof.
  split; [reflexivity|].
  pose proof (hash_image_data_length Example.raw_pil 8 Example.rising) as H.
  destruct H as (_ & _ & H).
  exact (proj1 (H _ _ eq_refl eq_refl eq_refl)).
Defined.

(** C5 fails as stated: the empty buffer is not an image, and its hash is the
    empty string, not 64 characters. *)
Lemma hash_image_data_empty_buffer :
  ImageHasher.hash_image_data 8 Example.raw_pil [] = ""
  ∧ len (ImageHasher.hash_image_data 8 Example.raw_pil []) ≠ 8 ^ 2.
Proof. split; [reflexivity | discriminate]. Qed.

(** ** Dictionaries *)

Section PyDictFacts.
Context {V : Type}.
Implicit Types (d : pydict V) (k : string) (v : V).

Lemma dict_get_setitem d k v k' :
  dict_get (dict_setitem d k v) k' = if bool_decide (k = k') then Some v else dict_get d k'.
Proof.
  induction d as [|[k0 v0] d IH]; simpl.
  - done.
  - destruct (bool_decide_reflect (k0 = k)) as [->|Hne]; simpl.
    + by destruct (bool_decide_reflect (k = k')).
    + rewrite IH. destruct (bool_decide_reflect (k0 = k')) as [->|]; [|done].
      by rewrite bool_decide_eq_false_2 by congruence.
Qed.

Lemma dict_get_app d1 d2 k :
  dict_get (d1 ++ d2) k
  = match dict_get d1 k with Some v => Some v | None => dict_get d2 k end.
Proof.
  induction d1 as [|[k0 v0] d1 IH]; simpl; [done|]. by case_bool_decide.
Qed.

Lemma dict_get_elem d k v : dict_get d k = Some v → (k, v) ∈ d.
Proof.
  induction d as [|[k0 v0] d IH]; simpl; [done|].
  case_bool_decide; intros ?; simplify_eq; [left | right; auto].
Qed.

Lemma dict_get_None d k : dict_get d k = None ↔ k ∉ d.*1.
Proof.
  induction d as [|[k0 v0] d IH]; simpl.
  - split; [intros _; apply not_elem_of_nil | done].
  - rewrite not_elem_of_cons. case_bool_decide as Hk.
    + split; [done | intros [Hne _]; by destruct Hne].
    + rewrite IH. split; [intros ?; split; [congruence | done] | by intros [_ ?]].
Qed.

Lemma dict_setitem_id d k v : dict_get d k = Some v → dict_setitem d k v = d.
Proof.
  induction d as [|[k0 v0] d IH]; simpl; [done|].
  case_bool_decide; intros ?; simplify_eq; [done | by rewrite IH].
Qed.

(** After [d.update(other)] a key holds its last value in [other], or else its
    value in [d]. *)
Lemma dict_get_update d (other : pydict V) k :
  dict_get (dict_update d other) k
  = match dict_get (reverse other) k with Some v => Some v | None => dict_get d k end.
Proof.
  unfold dict_update. revert d.
  induction other as [|[k0 v0] other IH]; intros d; simpl; [done|].
  rewrite IH, reverse_cons, dict_get_app, dict_get_setitem. simpl.
  destruct (dict_get (reverse other) k); [done|]. by case_bool_decide.
Qed.
End PyDictFacts.

(** ** Results *)

Lemma errors_foldl_add_error (r : ValidationResult) (messages : list string) :
  errors (foldl add_error r messages) = errors r ++ messages.
Proof.
  revert r. induction messages as [|m ms IH]; intros r; simpl.
  - by rewrite app_nil_r.
  - rewrite IH. simpl. by rewrite <- app_assoc.
Qed.

Lemma success_foldl_add_error (r : ValidationResult) (messages : list string) :
  success (foldl add_error r messages)
  = if bool_decide (messages = []) then success r else false.
Proof.
  revert r. induction messages as [|m ms IH]; intros r; simpl; [done|].
  rewrite IH. by case_bool_decide.
Qed.

Lemma success_foldl_add_error_false {A} (r : ValidationResult) (f : A → string)
    (xs : list A) :
  success r = false → success (foldl (λ r x, add_error r (f x)) r xs) = false.
Proof. revert r. induction xs as [|x xs IH]; intros r Hr; simpl; auto. Qed.

(** ** The stored mapping *)

Lemma stored_mapping_log (path : string) (ev : io_event) (w : world) :
  stored_mapping path (log ev w) = stored_mapping path w.
Proof. done. Qed.

Lemma read_json_file_or_empty (path : string) (w : world) :
  (if json_exists path w
   then let '(r, w) := read_json_file path w in (or_empty r, w)
   else ([], w))
  = (stored_mapping path w,
     if json_exists path w then log (EvReadJson path) w else w).
Proof.
  unfold json_exists, read_json_file, stored_mapping.
  destruct (w_json w !! path) as [[|d]|] eqn:Hfile.
  - by rewrite bool_decide_eq_true_2 by eauto.
  - by rewrite bool_decide_eq_true_2 by eauto.
  - rewrite bool_decide_eq_false_2; [done|]. by intros [? ?].
Qed.

(** ** Merging new hashes *)

Section UpdateHashMapping.
Import SyncProcessor.
Implicit Types (E : env) (w : world) (new_hashes existing : pydict string).

Lemma find_conflicts_join existing new_hashes :
  find_conflicts existing new_hashes = mjoin (conflict_of existing <$> new_hashes).
Proof.
  unfold find_conflicts.
  enough (∀ acc, foldl (λ conflicts entry, conflicts ++ conflict_of existing entry)
                   acc new_hashes
                 = acc ++ mjoin (conflict_of existing <$> new_hashes)) as H by apply H.
  induction new_hashes as [|entry rest IH]; intros acc; simpl.
  - by rewrite app_nil_r.
  - by rewrite IH, app_assoc.
Qed.

Lemma conflict_of_conflicting existing (entry : string * string) :
  conflict_of existing entry ≠ [] ↔ conflicting existing entry.
Proof.
  unfold conflict_of, conflicting. destruct entry as [hash_value character]. simpl.
  destruct (dict_get existing hash_value) as [e|].
  - case_bool_decide as Hne.
    + split; [intros _; eauto | done].
    + split; [done | intros (e' & ? & ?); simplify_eq].
  - split; [done | intros (e' & ? & ?); simplify_eq].
Qed.

Lemma conflict_of_not_conflicting existing (entry : string * string) :
  conflict_of existing entry = [] ↔ ¬ conflicting existing entry.
Proof.
  rewrite <- conflict_of_conflicting. split.
  - intros -> H. by apply H.
  - intros H. destruct (conflict_of existing entry); [done|]. exfalso. by apply H.
Qed.

Lemma find_conflicts_nil existing new_hashes :
  find_conflicts existing new_hashes = []
  ↔ ∀ entry, entry ∈ new_hashes → ¬ conflicting existing entry.
Proof.
  rewrite find_conflicts_join. induction new_hashes as [|entry rest IH]; simpl.
  - split; [intros _ ? H; by apply elem_of_nil in H | done].
  - rewrite app_nil, IH, conflict_of_not_conflicting. split.
    + intros [H1 H2] e He. apply elem_of_cons in He as [->|He]; auto.
    + intros H. split; [apply H; left | intros e He; apply H; by right].
Qed.


(** What [update_hash_mapping] does on a batch that is not empty, in terms of
    the mapping the file holds. *)
Lemma update_hash_mapping_nonempty E (hash_file : string) new_hashes w :
  new_hashes ≠ [] →
  update_hash_mapping E hash_file new_hashes w
  = let existing := stored_mapping hash_file w in
    let w1 := if json_exists hash_file w then log (EvReadJson hash_file) w else w in
    let conflicts := find_conflicts existing new_hashes in
    if bool_decide (conflicts ≠ []) then (foldl add_error (new_result false) conflicts, w1)
    else
      let updated := dict_update existing new_hashes in
      (set_details (set_counts (new_result true) (dict_len new_hashes) (dict_len updated))
         [("file", DStr hash_file);
          ("existing_hashes", DInt (dict_len existing));
          ("new_hashes", DInt (dict_len new_hashes));
          ("total_hashes", DInt (dict_len updated))],
       (write_json_file E hash_file updated w1).2).
Proof.
  intros Hne. unfold update_hash_mapping.
  rewrite bool_decide_eq_false_2 by done.
  rewrite read_json_file_or_empty. cbv zeta.
  case_bool_decide; [done|].
  by destruct (write_json_file E hash_file _ _).
Qed.

Lemma w_json_after_read (hash_file : string) w :
  w_json (if json_exists hash_file w then log (EvReadJson hash_file) w else w) = w_json w.
Proof. by destruct (json_exists hash_file w). Qed.

Lemma stored_mapping_after_write E (hash_file : string) (data : pydict string) w :
  stored_mapping hash_file (write_json_file E hash_file data w).2
  = if can_write E hash_file then data else stored_mapping hash_file w.
Proof.
  unfold write_json_file. destruct (can_write E hash_file); [|done].
  unfold stored_mapping. simpl. by rewrite lookup_insert_eq.
Qed.

End UpdateHashMapping.

Lemma dict_update_keeps (existing new_hashes : pydict string) (k v : string) :
  (∀ entry, entry ∈ new_hashes → ¬ conflicting existing entry) →
  dict_get existing k = Some v →
  dict_get (dict_update existing new_hashes) k = Some v.
Proof.
  intros Hok Hk. rewrite dict_get_update.
  destruct (dict_get (reverse new_hashes) k) as [v'|] eqn:Hnew; [|done].
  apply dict_get_elem in Hnew. rewrite elem_of_reverse in Hnew.
  destruct (decide (v = v')) as [->|Hne]; [done|].
  destruct (Hok _ Hnew). exists v. done.
Qed.

Lemma dict_update_origin (existing new_hashes : pydict string) (k v : string) :
  (∀ entry, entry ∈ new_hashes → ¬ conflicting existing entry) →
  dict_get (dict_update existing new_hashes) k = Some v →
  dict_get existing k = Some v
  ∨ (dict_get existing k = None ∧ (k, v) ∈ new_hashes).
Proof.
  intros Hok. rewrite dict_get_update.
  destruct (dict_get (reverse new_hashes) k) as [v'|] eqn:Hnew; [|by left].
  intros [= ->]. apply dict_get_elem in Hnew. rewrite elem_of_reverse in Hnew.
  destruct (dict_get existing k) as [v0|] eqn:Hk; [|by right].
  left. destruct (decide (v0 = v)) as [->|Hne]; [done|].
  destruct (Hok _ Hnew). exists v0. done.
Qed.

(** C10: with an empty dictionary of new hashes [update_hash_mapping] succeeds
    and leaves the world as it was: no file is read or written (the log of
    input/output is part of the world) and every mapping file is unchanged. *)
Theorem update_hash_mapping_empty (E : env) (hash_file : string) (w : world) :
  success (SyncProcessor.update_hash_mapping E hash_file [] w).1 = true
  ∧ errors (SyncProcessor.update_hash_mapping E hash_file [] w).1 = []
  ∧ (SyncProcessor.update_hash_mapping E hash_file [] w).2 = w.
Proof. done. Qed.

(** C4: when [update_hash_mapping] returns success, every key the hash mapping
    held before the call holds the same character after it, and a key the
    mapping holds after the call either held that character before or was
    absent before and comes from the new entries. *)
Theorem update_hash_mapping_no_overwrite (E : env) (hash_file : string)
    (new_hashes : pydict string) (w w' : world) (r : ValidationResult) :
  SyncProcessor.update_hash_mapping E hash_file new_hashes w = (r, w') →
  success r = true →
  (∀ k v, dict_get (stored_mapping hash_file w) k = Some v →
          dict_get (stored_mapping hash_file w') k = Some v)
  ∧ (∀ k v, dict_get (stored_mapping hash_file w') k = Some v →
            dict_get (stored_mapping hash_file w) k = Some v
            ∨ (dict_get (stored_mapping hash_file w) k = None ∧ (k, v) ∈ new_hashes)).
Proof.
  intros Hrun Hok. destruct (decide (new_hashes = [])) as [->|Hne].
  { injection Hrun as <- <-. split; auto. }
  rewrite update_hash_mapping_nonempty in Hrun by done. cbv zeta in Hrun.
  case_bool_decide as Hconf.
  { injection Hrun as <- <-. rewrite success_foldl_add_error in Hok.
    by rewrite bool_decide_eq_false_2 in Hok. }
  rewrite find_conflicts_nil in Hconf.
  injection Hrun as <- <-. rewrite stored_mapping_after_write.
  destruct (can_write E hash_file).
  - split; intros k v; [by apply dict_update_keeps | by apply dict_update_origin].
  - unfold stored_mapping. rewrite w_json_after_read. split; auto.
Qed.

Lemma update_hash_mapping_no_overwrite_witness :
  dict_get
    (stored_mapping Example.hash_file
       (SyncProcessor.update_hash_mapping Example.example_env Example.hash_file
          [(Example.zeros, "云")] (Example.world_of [] [(Example.ones, "雨")])).2)
    Example.ones = Some "雨".
Proof.
  refine (proj1 (update_hash_mapping_no_overwrite _ _ _ _ _ _ (surjective_pairing _) _)
            Example.ones "雨" _); vm_compute; reflexivity.
Defined.




(** C1 (as the code has it): when an entry of the batch conflicts, the call
    fails, its errors are the conflict messages of the batch (one for each
    conflicting entry and none for any other), and no entry of the batch is
    merged: every mapping file is as before the call. *)
Theorem update_hash_mapping_conflict_rejects_batch (E : env) (hash_file : string)
    (new_hashes : pydict string) (w w' : world) (r : ValidationResult)
    (entry : string * string) :
  SyncProcessor.update_hash_mapping E hash_file new_hashes w = (r, w') →
  entry ∈ new_hashes →
  conflicting (stored_mapping hash_file w) entry →
  success r = false
  ∧ errors r = mjoin (SyncProcessor.conflict_of (stored_mapping hash_file w) <$> new_hashes)
  ∧ (∀ other, SyncProcessor.conflict_of (stored_mapping hash_file w) other ≠ []
              ↔ conflicting (stored_mapping hash_file w) other)
  ∧ w_json w' = w_json w
  ∧ stored_mapping hash_file w' = stored_mapping hash_file w.
Proof.
  intros Hrun Hin Hconf.
  assert (Hne : new_hashes ≠ []) by (intros ->; by apply elem_of_nil in Hin).
  rewrite update_hash_mapping_nonempty in Hrun by done. cbv zeta in Hrun.
  rewrite bool_decide_eq_true_2 in Hrun.
  - injection Hrun as <- <-.
    rewrite errors_foldl_add_error, success_foldl_add_error, find_conflicts_join.
    split.
    { rewrite <- find_conflicts_join. case_bool_decide as Hnil; [|done].
      rewrite find_conflicts_nil in Hnil. by destruct (Hnil _ Hin). }
    split; [done|]. split; [apply conflict_of_conflicting|].
    unfold stored_mapping. by rewrite w_json_after_read.
  - rewrite find_conflicts_nil. intros Hnil. by destruct (Hnil _ Hin).
Qed.

Lemma update_hash_mapping_conflict_rejects_batch_witness :
  success (SyncProcessor.update_hash_mapping Example.example_env Example.hash_file
             [(Example.ones, "云"); (Example.zeros, "山")]
             (Example.world_of [] [(Example.ones, "雨")])).1 = false.
Proof.
  refine (proj1 (update_hash_mapping_conflict_rejects_batch _ _ _ _ _ _
                   (Example.ones, "云") (surjective_pairing _) _ _)).
  - apply list_elem_of_here.
  - exists "雨". split; [vm_compute; reflexivity | discriminate].
Defined.

(** C1 fails as stated: the batch below has one entry that conflicts and one
    that does not, and the entry that does not conflict is not merged. *)
Lemma update_hash_mapping_conflict_blocks_others :
  let w := Example.world_of [] [(Example.ones, "雨")] in
  let run := SyncProcessor.update_hash_mapping Example.example_env Example.hash_file
               [(Example.ones, "云"); (Example.zeros, "山")] w in
  dict_get (stored_mapping Example.hash_file w) Example.zeros = None
  ∧ success run.1 = false
  ∧ dict_get (stored_mapping Example.hash_file run.2) Example.zeros = None
  ∧ stored_mapping Example.hash_file run.2 = [(Example.ones, "雨")].
Proof. vm_compute. done. Qed.

(** ** The download list *)

Section DownloadList.
Import SyncProcessor.

Lemma collect_filenames_join (char_to_filenames : pydict (list string)) :
  collect_filenames char_to_filenames = mjoin (dict_values char_to_filenames).
Proof.
  unfold collect_filenames.
  enough (∀ (ls : list (list string)) acc,
            foldl (λ all_filenames filenames, all_filenames ++ filenames) acc ls
            = acc ++ mjoin ls) as H by apply H.
  induction ls as [|l ls IH]; intros acc; simpl.
  - by rewrite app_nil_r.
  - by rewrite IH, app_assoc.
Qed.

(** The loop can be cut anywhere: the second part continues with the
    accumulators the first part leaves. *)
Lemma remove_duplicates_app (l1 l2 unique : list string) (seen : gset string) :
  remove_duplicates (l1 ++ l2) unique seen
  = remove_duplicates l2 (remove_duplicates l1 unique seen) (list_to_set l1 ∪ seen).
Proof.
  revert unique seen. induction l1 as [|f l1 IH]; intros unique seen; simpl.
  - f_equal. set_solver.
  - case_bool_decide as Hf; rewrite IH; f_equal; set_solver.
Qed.

Lemma remove_duplicates_snoc (l : list string) (f : string) :
  remove_duplicates (l ++ [f]) [] ∅
  = if bool_decide (f ∈ l) then remove_duplicates l [] ∅
    else remove_duplicates l [] ∅ ++ [f].
Proof.
  rewrite remove_duplicates_app. simpl.
  destruct (bool_decide_reflect (f ∈ l)) as [Hin|Hout].
  - rewrite bool_decide_eq_false_2; [done|]. set_solver.
  - rewrite bool_decide_eq_true_2; [done|]. set_solver.
Qed.

Lemma first_at_app {A} (l l' : list A) (a : nat) (x : A) :
  first_at l a x → first_at (l ++ l') a x.
Proof.
  intros [Ha Hfirst]. pose proof (lookup_lt_Some _ _ _ Ha) as Hlt. split.
  - by rewrite lookup_app_l.
  - intros k Hk. rewrite lookup_app_l by lia. by apply Hfirst.
Qed.

Lemma first_at_snoc {A} (l : list A) (x : A) :
  x ∉ l → first_at (l ++ [x]) (length l) x.
Proof.
  intros Hout. split.
  - by rewrite list_lookup_middle.
  - intros k Hk Hx. rewrite lookup_app_l in Hx by done.
    apply Hout. by eapply list_elem_of_lookup_2.
Qed.

(** The result of the loop from empty accumulators: no repetition, the same
    members as the input, in the order of their first occurrences. *)
Lemma remove_duplicates_first_seen (l : list string) :
  let unique := remove_duplicates l [] ∅ in
  NoDup unique
  ∧ (∀ f, f ∈ unique ↔ f ∈ l)
  ∧ (∀ i x, unique !! i = Some x → ∃ a, first_at l a x)
  ∧ (∀ i j x y,
       unique !! i = Some x → unique !! j = Some y → (i < j)%nat →
       ∃ a b, first_at l a x ∧ first_at l b y ∧ (a < b)%nat).
Proof.
  induction l as [|f l (Hnodup & Hmem & Hpos & Hord)] using rev_ind; cbv zeta in *.
  { simpl. split; [constructor|]. split; [done|]. split; intros *; by rewrite lookup_nil. }
  rewrite remove_duplicates_snoc.
  destruct (bool_decide_reflect (f ∈ l)) as [Hin|Hout].
  - split; [done|]. split; [|split].
    + intros g. rewrite Hmem. set_solver.
    + intros i x Hi. destruct (Hpos i x Hi) as [a Ha]. eauto using first_at_app.
    + intros i j x y Hi Hj Hlt. destruct (Hord i j x y Hi Hj Hlt) as (a & b & ? & ? & ?).
      exists a, b. auto using first_at_app.
  - assert (Hnew : f ∉ remove_duplicates l [] ∅) by (by rewrite Hmem).
    split; [|split; [|split]].
    + apply NoDup_app. split; [done|]. split; [|apply NoDup_singleton].
      intros g Hg Hg'. apply list_elem_of_singleton in Hg'. by subst.
    + intros g. rewrite !elem_of_app, Hmem. done.
    + intros i x Hi. apply lookup_snoc_Some in Hi as [[_ Hi]|[_ <-]].
      * destruct (Hpos i x Hi) as [a Ha]. eauto using first_at_app.
      * eauto using first_at_snoc.
    + intros i j x y Hi Hj Hlt.
      apply lookup_snoc_Some in Hi as [[Hilt Hi]|[-> <-]];
        apply lookup_snoc_Some in Hj as [[Hjlt Hj]|[-> <-]]; try lia.
      * destruct (Hord i j x y Hi Hj Hlt) as (a & b & ? & ? & ?).
        exists a, b. auto using first_at_app.
      * destruct (Hpos i x Hi) as [a Ha]. exists a, (length l).
        split; [by apply first_at_app|]. split; [by apply first_at_snoc|].
        destruct Ha as [Ha _]. by apply lookup_lt_Some in Ha.
Qed.

End DownloadList.

(** ** Input and output of the download and hashing steps *)

Section Frames.
Import ImageDownloader SyncProcessor.
Implicit Types (E : env) (w : world).

Lemma io_step_refl w (filenames : list string) : io_step w w filenames.
Proof.
  split; [done|]. exists []. rewrite app_nil_r. split; [done | apply sublist_nil_l].
Qed.

Lemma io_step_trans w1 w2 w3 (fs1 fs2 : list string) :
  io_step w1 w2 fs1 → io_step w2 w3 fs2 → io_step w1 w3 (fs1 ++ fs2).
Proof.
  intros (Hj1 & evs1 & Hl1 & Hs1) (Hj2 & evs2 & Hl2 & Hs2).
  split; [congruence|]. exists (evs1 ++ evs2).
  split; [by rewrite Hl2, Hl1, app_assoc|].
  unfold fetched. rewrite omap_app. by apply sublist_app.
Qed.

Lemma io_step_log w (ev : io_event) (filenames : list string) :
  fetched [ev] `sublist_of` filenames → io_step w (log ev w) filenames.
Proof. intros Hs. split; [done|]. exists [ev]. by split. Qed.

Lemma io_step_put_image w (path : string) (data : list Byte.byte) :
  io_step w (put_image path data w) [].
Proof. split; [done|]. exists []. simpl. by rewrite app_nil_r. Qed.

Lemma download_image_async_io E (config : DomainConfig) (domain filename : string)
    (st : stats) w :
  io_step w (download_image_async E config domain filename st w).2 [filename].
Proof.
  unfold download_image_async. destruct (is_image_cached E domain filename w).
  - apply io_step_refl.
  - destruct (http_download E config filename) as [content|error_msg]; cbn [snd].
    + apply (io_step_trans w (log (EvFetch domain filename) w) _ [filename] ([] ++ []));
        [apply io_step_log; reflexivity|].
      eapply io_step_trans; [apply io_step_put_image|].
      apply io_step_log. apply sublist_nil_l.
    + apply io_step_log. reflexivity.
Qed.

Lemma download_all_io E (config : DomainConfig) (domain : string)
    (filenames successful_downloads failed_downloads : list string) (st : stats) w :
  io_step w (download_all E config domain filenames
               successful_downloads failed_downloads st w).2 filenames.
Proof.
  revert successful_downloads failed_downloads st w.
  induction filenames as [|filename rest IH]; intros sd fd st w; simpl.
  - apply io_step_refl.
  - pose proof (download_image_async_io E config domain filename st w) as Hone.
    destruct (download_image_async E config domain filename st w) as [[ok st1] w1].
    change (filename :: rest) with ([filename] ++ rest).
    destruct ok; (eapply io_step_trans; [exact Hone | apply IH]).
Qed.

Lemma download_images_sync_io E (domain : string) (filenames : list string) w :
  io_step w (download_images_sync E domain filenames w).2 filenames.
Proof.
  unfold download_images_sync, download_images_batch_async.
  case_bool_decide; [apply io_step_refl|].
  destruct (get_domain_config E domain) as [config|]; [|apply io_step_refl].
  pose proof (download_all_io E config domain filenames [] [] reset_stats w) as Hall.
  by destruct (download_all E config domain filenames [] [] reset_stats w)
    as [[[sd fd] st] w1].
Qed.

Lemma hash_image_file_io E (file_path : string) w :
  io_step w (hash_image_file E file_path w).2 [].
Proof.
  unfold hash_image_file. destruct (w_cache w !! file_path); [|apply io_step_refl].
  apply io_step_log. apply sublist_nil_l.
Qed.

Lemma hash_first_image_io E (domain character : string) (filenames : list string)
    (character_hash : option string) (hash_results : pydict string) w :
  io_step w (hash_first_image E domain character filenames
               character_hash hash_results w).2 [].
Proof.
  revert character_hash w.
  induction filenames as [|filename rest IH]; intros character_hash w; simpl.
  - apply io_step_refl.
  - destruct (get_downloaded_image_path E domain filename w) as [image_path|]; [|apply IH].
    pose proof (hash_image_file_io E image_path w) as Hone.
    destruct (hash_image_file E image_path w) as [h w1].
    case_bool_decide; [exact Hone|].
    change (@nil string) with (@nil string ++ []).
    eapply io_step_trans; [exact Hone | apply IH].
Qed.

Lemma hash_characters_io E (domain : string) (items : pydict (list string))
    (hash_results : pydict string) (failed_hashes : list string) w :
  io_step w (hash_characters E domain items hash_results failed_hashes w).2 [].
Proof.
  revert hash_results failed_hashes w.
  induction items as [|[character filenames] rest IH];
    intros hash_results failed_hashes w; simpl.
  - apply io_step_refl.
  - pose proof (hash_first_image_io E domain character filenames None hash_results w)
      as Hone.
    destruct (hash_first_image E domain character filenames None hash_results w)
      as [[character_hash hash_results1] w1].
    change (@nil string) with (@nil string ++ []).
    eapply io_step_trans; [exact Hone | apply IH].
Qed.

Lemma process_missing_characters_io E (domain : string)
    (char_to_filenames : pydict (list string)) w :
  io_step w (process_missing_characters E domain char_to_filenames w).2
    (download_list char_to_filenames).
Proof.
  unfold process_missing_characters.
  case_bool_decide; [apply io_step_refl|].
  destruct (get_domain_config E domain) as [config|]; [|apply io_step_refl].
  pose proof (download_images_sync_io E domain (download_list char_to_filenames) w)
    as Hdown.
  destruct (download_images_sync E domain (download_list char_to_filenames) w)
    as [download_result w1].
  destruct (success download_result); simpl; [|exact Hdown].
  pose proof (hash_characters_io E domain char_to_filenames [] [] w1) as Hhash.
  destruct (hash_characters E domain char_to_filenames [] [] w1)
    as [[hash_results failed_hashes] w2].
  rewrite <- (app_nil_r (download_list char_to_filenames)).
  eapply io_step_trans; [exact Hdown | exact Hhash].
Qed.

End Frames.

(** C9: the list handed to the downloader contains every candidate file name
    of the per-character lists exactly once (no repetition, the same members as
    the concatenated lists), ordered by the position of the first occurrence in
    the concatenation; and the network requests that
    [process_missing_characters] makes are for names of that list, none of
    them requested twice. *)
Theorem download_list_first_seen (char_to_filenames : pydict (list string)) :
  let all_filenames := mjoin (dict_values char_to_filenames) in
  let unique_filenames := SyncProcessor.download_list char_to_filenames in
  NoDup unique_filenames
  ∧ (∀ filename, filename ∈ unique_filenames ↔ filename ∈ all_filenames)
  ∧ (∀ i j x y,
       unique_filenames !! i = Some x → unique_filenames !! j = Some y → (i < j)%nat →
       ∃ a b, first_at all_filenames a x ∧ first_at all_filenames b y ∧ (a < b)%nat)
  ∧ ∀ (E : env) (domain : string) (w : world),
      ∃ evs,
        w_log (SyncProcessor.process_missing_characters E domain char_to_filenames w).2
        = w_log w ++ evs
        ∧ NoDup (fetched evs)
        ∧ ∀ filename, filename ∈ fetched evs → filename ∈ unique_filenames.
Proof.
  intros all_filenames unique_filenames. subst all_filenames unique_filenames.
  unfold SyncProcessor.download_list. rewrite collect_filenames_join.
  destruct (remove_duplicates_first_seen (mjoin (dict_values char_to_filenames)))
    as (Hnodup & Hmem & _ & Hord).
  split; [done|]. split; [done|]. split; [done|].
  intros E domain w.
  destruct (process_missing_characters_io E domain char_to_filenames w)
    as (_ & evs & Hlog & Hsub).
  unfold SyncProcessor.download_list in Hsub. rewrite collect_filenames_join in Hsub.
  exists evs. split; [done|]. split.
  - by eapply sublist_NoDup.
  - intros filename Hf. by eapply sublist_subseteq.
Qed.

Example download_list_example :
  SyncProcessor.download_list [("雨", ["a.png"; "b.png"]); ("云", ["b.png"; "c.png"; "a.png"])]
  = ["a.png"; "b.png"; "c.png"].
Proof. vm_compute. reflexivity. Qed.

(** ** Synchronising a domain *)

Section SyncDomain.
Import ImageDownloader SyncProcessor.
Implicit Types (E : env) (w : world).

Lemma load_mappings_eq (domain mappings_dir : string) w :
  load_mappings domain mappings_dir w
  = (stored_mapping (filename_mapping_path mappings_dir domain) w,
     stored_mapping (hash_mapping_path mappings_dir domain) w,
     let w1 := if json_exists (filename_mapping_path mappings_dir domain) w
               then log (EvReadJson (filename_mapping_path mappings_dir domain)) w
               else w in
     if json_exists (hash_mapping_path mappings_dir domain) w1
     then log (EvReadJson (hash_mapping_path mappings_dir domain)) w1
     else w1).
Proof.
  unfold load_mappings. cbv zeta. rewrite read_json_file_or_empty.
  rewrite read_json_file_or_empty. do 2 f_equal.
  by destruct (json_exists (filename_mapping_path mappings_dir domain) w).
Qed.

Lemma load_mappings_frame (domain mappings_dir : string) w w1
    (filename_mapping hash_mapping : pydict string) :
  load_mappings domain mappings_dir w = (filename_mapping, hash_mapping, w1) →
  filename_mapping = stored_mapping (filename_mapping_path mappings_dir domain) w
  ∧ hash_mapping = stored_mapping (hash_mapping_path mappings_dir domain) w
  ∧ w_json w1 = w_json w
  ∧ w_cache w1 = w_cache w
  ∧ ∃ evs, w_log w1 = w_log w ++ evs ∧ Forall is_json_read evs.
Proof.
  rewrite load_mappings_eq. cbv zeta. intros [= <- <- <-].
  split; [done|]. split; [done|].
  destruct (json_exists (filename_mapping_path mappings_dir domain) w);
    match goal with |- context [json_exists ?p ?w0] => destruct (json_exists p w0) end;
    (split; [done|]); (split; [done|]); simpl.
  - eexists [_; _]. rewrite <- app_assoc. split; [done|].
    repeat constructor; by eexists.
  - eexists [_]. split; [done|]. repeat constructor; by eexists.
  - eexists [_]. split; [done|]. repeat constructor; by eexists.
  - exists []. by rewrite app_nil_r.
Qed.

Lemma find_missing_hashes_empty (filename_mapping hash_mapping : pydict string) :
  find_missing_hashes filename_mapping hash_mapping = ∅
  ↔ ∀ character, character ∈ dict_values filename_mapping →
                 character ∈ dict_values hash_mapping.
Proof.
  unfold find_missing_hashes. split.
  - intros Hempty character Hc.
    destruct (decide (character ∈ dict_values hash_mapping)) as [|Hout]; [done|].
    assert (character ∈ (∅ : gset string)) as Hbad; [|by apply not_elem_of_empty in Hbad].
    rewrite <- Hempty. apply elem_of_difference.
    by rewrite !elem_of_list_to_set.
  - intros Hall. apply set_eq. intros character.
    rewrite elem_of_difference, !elem_of_list_to_set. split.
    + intros [Hin Hout]. by destruct Hout; apply Hall.
    + intros Hbad. by apply not_elem_of_empty in Hbad.
Qed.

End SyncDomain.

(** C6: when every character of the filename mapping occurs among the values
    of the hash mapping, [sync_domain] returns a successful result with no
    error, and the world it leaves is the one left by loading the two mapping
    files: no mapping file and no cached image changed, and the only
    input/output performed is the reading of the mapping files (no download, no
    hashing, no write). *)
Theorem sync_domain_nothing_missing (E : env) (domain mappings_dir : string)
    (w w1 : world) (filename_mapping hash_mapping : pydict string) :
  SyncProcessor.load_mappings domain mappings_dir w
    = (filename_mapping, hash_mapping, w1) →
  (∀ character, character ∈ dict_values filename_mapping →
                character ∈ dict_values hash_mapping) →
  ∃ r, SyncProcessor.sync_domain E domain mappings_dir w = (r, w1)
       ∧ success r = true ∧ errors r = []
       ∧ w_json w1 = w_json w ∧ w_cache w1 = w_cache w
       ∧ ∃ evs, w_log w1 = w_log w ++ evs ∧ Forall is_json_read evs.
Proof.
  intros Hload Hall. unfold SyncProcessor.sync_domain. rewrite Hload.
  apply find_missing_hashes_empty in Hall.
  rewrite bool_decide_eq_true_2 by done.
  eexists. split; [done|]. split; [done|]. split; [done|].
  apply load_mappings_frame in Hload as (_ & _ & ? & ? & ?). done.
Qed.

Lemma sync_domain_nothing_missing_witness :
  let w := Example.world_of [("a.png", "雨"); ("b.png", "雨")] [(Example.ones, "雨")] in
  ∃ r w1, SyncProcessor.sync_domain Example.example_env "example.com" "." w = (r, w1)
          ∧ success r = true ∧ w_json w1 = w_json w.
Proof.
  cbv zeta.
  destruct (sync_domain_nothing_missing Example.example_env "example.com" "."
              (Example.world_of [("a.png", "雨"); ("b.png", "雨")] [(Example.ones, "雨")])
              _ _ _ (load_mappings_eq _ _ _))
    as (r & Hrun & Hok & _ & Hjson & _).
  - intros character Hc. vm_compute in Hc. vm_compute.
    apply elem_of_cons in Hc as [->|Hc]; [left|].
    apply elem_of_cons in Hc as [->|Hc]; [left|]. by apply elem_of_nil in Hc.
  - eauto.
Defined.

(** ** Candidates of the missing characters *)

Section Candidates.
Import SyncProcessor.
Implicit Types (characters : gset string) (acc : pydict (list string)).

Lemma dict_get_add_filename characters acc (filename character c : string) :
  character ∈ characters →
  dict_get (add_filename characters acc (filename, character)) c
  = if bool_decide (character = c)
    then Some (default [] (dict_get acc character) ++ [filename])
    else dict_get acc c.
Proof.
  intros Hin. unfold add_filename. rewrite bool_decide_eq_true_2 by done.
  destruct (dict_get acc character) as [fs|] eqn:Hget.
  - by rewrite dict_get_setitem, Hget.
  - rewrite !dict_get_setitem.
    rewrite (bool_decide_eq_true_2 (character = character)) by done. simpl.
    by case_bool_decide.
Qed.

Lemma add_filename_other characters acc (filename character : string) :
  character ∉ characters → add_filename characters acc (filename, character) = acc.
Proof. intros Hout. unfold add_filename. by rewrite bool_decide_eq_false_2. Qed.




End Candidates.

(** ** A download that fails *)

Section FailedDownload.
Import ImageDownloader SyncProcessor.
Context (E : env) (domain path : string).
(** No file name stored at [path] can be downloaded. *)
Context (Hfail : ∀ filename config,
           get_cached_image_path E domain filename = path →
           ∃ error_msg, http_download E config filename = inr error_msg).





End FailedDownload.






(** The scenario of the specification in which every image can be fetched:
    two characters are missing, two hash entries are created and merged. *)
Example sync_domain_two_characters :
  let w := Example.world_of [("a.png", "雨"); ("b.png", "雨"); ("c.png", "云")] [] in
  let w0 := put_image "temp/example.com_b.png" Example.rising w in
  let run := SyncProcessor.sync_domain Example.example_env "example.com" "." w0 in
  success run.1 = true
  ∧ stored_mapping Example.hash_file run.2 = [(Example.ones, "雨"); (Example.zeros, "云")]
  ∧ fetched (w_log run.2) = ["a.png"; "c.png"].
Proof. vm_compute. done. Qed.

(** * Further properties of the code *)

(** ** The difference hash on a raster of any length *)

Lemma py_index_Some_lt {A} (l : list A) (i : Z) :
  0 ≤ i → is_Some (py_index l i) → i < Z.of_nat (length l).
Proof.
  intros Hi [x Hx]. unfold py_index in Hx. rewrite bool_decide_eq_true_2 in Hx by done.
  apply lookup_lt_Some in Hx. lia.
Qed.

Lemma dhash_columns_Some (pixels : list Z) (width y : Z) (xs : list Z)
    (acc r : list string) (x : Z) :
  ImageHasher.dhash_columns pixels width y xs acc = Some r → x ∈ xs →
  is_Some (py_index pixels (y * width + x + 1)).
Proof.
  revert acc. induction xs as [|x0 xs IH]; intros acc Hrun Hx.
  - by apply elem_of_nil in Hx.
  - cbn [ImageHasher.dhash_columns] in Hrun.
    destruct (py_index pixels (y * width + x0)) as [left_pixel|]; [|done].
    destruct (py_index pixels (y * width + x0 + 1)) as [right_pixel|] eqn:Hright; [|done].
    cbn [mbind option_bind] in Hrun.
    apply elem_of_cons in Hx as [->|Hx]; [by rewrite Hright | by eapply IH].
Qed.

Lemma dhash_rows_Some (hash_size : Z) (pixels : list Z) (width : Z) (ys : list Z)
    (acc r : list string) (y : Z) :
  ImageHasher.dhash_rows hash_size pixels width ys acc = Some r → y ∈ ys →
  ∃ acc' r', ImageHasher.dhash_columns pixels width y (range hash_size) acc' = Some r'.
Proof.
  revert acc. induction ys as [|y0 ys IH]; intros acc Hrun Hy.
  - by apply elem_of_nil in Hy.
  - cbn [ImageHasher.dhash_rows] in Hrun.
    destruct (ImageHasher.dhash_columns pixels width y0 (range hash_size) acc)
      as [acc1|] eqn:Hcols; [|done].
    cbn [mbind option_bind] in Hrun.
    apply elem_of_cons in Hy as [->|Hy]; [eauto | by eapply IH].
Qed.

Lemma elem_of_range (n i : Z) : i ∈ range n ↔ 0 ≤ i < n.
Proof.
  unfold range. rewrite list_elem_of_lookup. split.
  - intros [k Hk]. apply lookup_seqZ in Hk. lia.
  - intros Hi. exists (Z.to_nat i). apply lookup_seqZ. lia.
Qed.

Lemma dhash_rows_ok_ge (hash_size : Z) (pixels : list Z) (ys : list Z) (acc : list string) :
  (hash_size + 1) * hash_size ≤ Z.of_nat (length pixels) →
  Forall (λ y, 0 ≤ y < hash_size) ys →
  ImageHasher.dhash_rows hash_size pixels (hash_size + 1) ys acc
  = Some (acc ++ ((λ c, String c EmptyString)
                  <$> mjoin ((λ y, row_bits pixels (hash_size + 1) y (range hash_size)) <$> ys))).
Proof.
  intros Hlen Hys. revert acc. induction Hys as [|y ys Hy _ IH]; intros acc.
  - by rewrite app_nil_r.
  - cbn [ImageHasher.dhash_rows]. rewrite dhash_columns_ok.
    + cbn [mbind option_bind]. rewrite IH. cbn [fmap list_fmap mjoin list_join].
      by rewrite fmap_app, app_assoc.
    + apply Forall_forall. intros x Hx. apply elem_of_range in Hx. nia.
Qed.

Lemma calculate_dhash_bits_ge (n : nat) (pixels : list Z) :
  ((n + 1) * n ≤ length pixels)%nat →
  ImageHasher._calculate_dhash (Z.of_nat n) pixels
  = string_of_list_ascii
      (mjoin ((λ y, row_bits pixels (Z.of_nat n + 1) y (range (Z.of_nat n)))
              <$> range (Z.of_nat n))).
Proof.
  intros Hlen. unfold ImageHasher._calculate_dhash.
  rewrite dhash_rows_ok_ge.
  - cbn [app]. apply join_singletons.
  - lia.
  - apply Forall_forall. intros y Hy. by apply elem_of_range in Hy.
Qed.

Lemma row_bits_take (n : nat) (pixels : list Z) (y : Z) :
  0 ≤ y < Z.of_nat n →
  row_bits (take ((n + 1) * n) pixels) (Z.of_nat n + 1) y (range (Z.of_nat n))
  = row_bits pixels (Z.of_nat n + 1) y (range (Z.of_nat n)).
Proof.
  intros Hy. unfold row_bits. apply list_fmap_ext. intros i x Hx.
  apply list_elem_of_lookup_2, elem_of_range in Hx.
  rewrite !list_lookup_total_alt, !lookup_take_lt by nia. done.
Qed.

Lemma dhash_rows_short (n : nat) (pixels : list Z) :
  (length pixels < (n + 1) * n)%nat →
  ImageHasher.dhash_rows (Z.of_nat n) pixels (Z.of_nat n + 1) (range (Z.of_nat n)) []
  = None.
Proof.
  intros Hshort.
  destruct (ImageHasher.dhash_rows (Z.of_nat n) pixels (Z.of_nat n + 1)
              (range (Z.of_nat n)) []) as [hash_bits|] eqn:Hrows; [|done].
  exfalso.
  assert (Hlast : Z.of_nat n - 1 ∈ range (Z.of_nat n)) by (apply elem_of_range; nia).
  destruct (dhash_rows_Some _ _ _ _ _ _ _ Hrows Hlast) as (acc' & r' & Hcols).
  pose proof (dhash_columns_Some _ _ _ _ _ _ _ Hcols Hlast) as Hsome.
  apply py_index_Some_lt in Hsome; nia.
Qed.

Lemma calculate_dhash_take (n : nat) (pixels : list Z) :
  ((n + 1) * n ≤ length pixels)%nat →
  ImageHasher._calculate_dhash (Z.of_nat n) pixels
  = ImageHasher._calculate_dhash (Z.of_nat n) (take ((n + 1) * n) pixels).
Proof.
  intros Hlen.
  assert (Htake : length (take ((n + 1) * n) pixels) = ((n + 1) * n)%nat)
    by (rewrite length_take; lia).
  rewrite (calculate_dhash_bits_ge n pixels Hlen), (calculate_dhash_bits n _ Htake).
  do 2 f_equal. apply list_fmap_ext. intros i y Hy.
  apply list_elem_of_lookup_2, elem_of_range in Hy. by rewrite row_bits_take.
Qed.

(** X1: a pixel list shorter than the (hashSize+1) x hashSize raster makes
    [_calculate_dhash] return the empty string (the index error is caught). *)
Theorem calculate_dhash_short (n : nat) (pixels : list Z) :
  (length pixels < (n + 1) * n)%nat →
  ImageHasher._calculate_dhash (Z.of_nat n) pixels = "".
Proof.
  intros Hshort. unfold ImageHasher._calculate_dhash. cbv zeta.
  by rewrite dhash_rows_short.
Qed.

Lemma calculate_dhash_short_witness :
  ImageHasher._calculate_dhash 2 [1; 2; 3; 4; 5] = "".
Proof. apply (calculate_dhash_short 2 [1; 2; 3; 4; 5]). simpl. lia. Defined.

(** X2: on a pixel list at least as long as the raster, [_calculate_dhash]
    reads only the first (hashSize+1)*hashSize pixels, and its result has the
    format [validate_hash_format] accepts. *)
Theorem calculate_dhash_ignores_extra (n : nat) (pixels : list Z) :
  ((n + 1) * n ≤ length pixels)%nat →
  ImageHasher._calculate_dhash (Z.of_nat n) pixels
  = ImageHasher._calculate_dhash (Z.of_nat n) (take ((n + 1) * n) pixels)
  ∧ ImageHasher.validate_hash_format (Z.of_nat n)
      (ImageHasher._calculate_dhash (Z.of_nat n) pixels) = true.
Proof.
  intros Hlen. split; [by apply calculate_dhash_take|].
  rewrite calculate_dhash_take by done.
  apply calculate_dhash_format. rewrite length_take. lia.
Qed.

Lemma calculate_dhash_ignores_extra_witness :
  ImageHasher._calculate_dhash 2 [1; 2; 3; 3; 2; 1; 9; 9]
  = ImageHasher._calculate_dhash 2 [1; 2; 3; 3; 2; 1].
Proof.
  refine (proj1 (calculate_dhash_ignores_extra 2 [1; 2; 3; 3; 2; 1; 9; 9] _)).
  simpl. lia.
Defined.

(** X3: whatever the buffer and the image library do, [hash_image_data]
    returns the empty string or a string of hashSize^2 characters '0' and '1'
    (one that [validate_hash_format] accepts): never a malformed hash. *)
Theorem hash_image_data_empty_or_valid (lib : PIL) (n : nat) (image_data : list Byte.byte) :
  ImageHasher.hash_image_data (Z.of_nat n) lib image_data = ""
  ∨ ImageHasher.validate_hash_format (Z.of_nat n)
      (ImageHasher.hash_image_data (Z.of_nat n) lib image_data) = true.
Proof.
  unfold ImageHasher.hash_image_data. destruct (Image_open lib image_data); [|by left].
  cbv zeta.
  destruct (decide ((n + 1) * n ≤ length (ImageHasher._preprocess_image (Z.of_nat n) lib i))%nat)
    as [Hlen|Hshort].
  - right. rewrite calculate_dhash_take by done.
    apply calculate_dhash_format. rewrite length_take. lia.
  - left. unfold ImageHasher._calculate_dhash. cbv zeta.
    rewrite dhash_rows_short; [done | lia].
Qed.

(** ** Hamming distance as a metric *)

Lemma hamming_loop_sym (hash1 hash2 : string) :
  ImageHasher.hamming_loop hash1 hash2 0 = ImageHasher.hamming_loop hash2 hash1 0.
Proof.
  revert hash2. induction hash1 as [|bit1 rest1 IH]; intros [|bit2 rest2]; try done.
  rewrite !hamming_loop_cons, IH.
  destruct (decide (bit1 = bit2)) as [->|Hne]; [done|].
  rewrite !bool_decide_eq_true_2 by congruence. done.
Qed.

(** X4: the Hamming distance is symmetric, also for strings of different
    lengths, where both orders give the error value -1. *)
Theorem hamming_distance_sym (a b : string) :
  ImageHasher.hamming_distance a b = ImageHasher.hamming_distance b a.
Proof.
  unfold ImageHasher.hamming_distance.
  destruct (decide (len a = len b)) as [Heq|Hne].
  - rewrite !bool_decide_eq_false_2 by (intros ?; congruence). apply hamming_loop_sym.
  - rewrite !bool_decide_eq_true_2 by congruence. done.
Qed.

Lemma hamming_distance_same_length (a b : string) :
  len a = len b → 0 ≤ ImageHasher.hamming_distance a b ≤ len a.
Proof.
  intros Hlen. unfold ImageHasher.hamming_distance.
  rewrite bool_decide_eq_false_2 by (intros ?; done). apply hamming_loop_bounds.
Qed.

Lemma hamming_distance_other_length (a b : string) :
  len a ≠ len b → ImageHasher.hamming_distance a b = -1.
Proof.
  intros Hlen. unfold ImageHasher.hamming_distance. by rewrite bool_decide_eq_true_2.
Qed.

(** X5: [hamming_distance] returns its error value -1 exactly when the two
    strings differ in length. *)
Theorem hamming_distance_error (a b : string) :
  ImageHasher.hamming_distance a b = -1 ↔ len a ≠ len b.
Proof.
  split.
  - intros Hd Hlen. pose proof (hamming_distance_same_length a b Hlen). lia.
  - apply hamming_distance_other_length.
Qed.

Lemma hamming_loop_triangle (a b c : string) :
  String.length a = String.length b → String.length b = String.length c →
  ImageHasher.hamming_loop a c 0
  ≤ ImageHasher.hamming_loop a b 0 + ImageHasher.hamming_loop b c 0.
Proof.
  revert b c. induction a as [|x a IH]; intros [|y b] [|z c] Hab Hbc;
    simplify_eq/=; [done|].
  change (ImageHasher.hamming_loop a c (if bool_decide (x ≠ z) then 0 + 1 else 0))
    with (ImageHasher.hamming_loop (String x a) (String z c) 0).
  change (ImageHasher.hamming_loop a b (if bool_decide (x ≠ y) then 0 + 1 else 0))
    with (ImageHasher.hamming_loop (String x a) (String y b) 0).
  change (ImageHasher.hamming_loop b c (if bool_decide (y ≠ z) then 0 + 1 else 0))
    with (ImageHasher.hamming_loop (String y b) (String z c) 0).
  rewrite !hamming_loop_cons. specialize (IH b c Hab Hbc).
  repeat case_bool_decide; simplify_eq; lia.
Qed.

(** X6: among strings of one length the Hamming distance satisfies the
    triangle inequality. *)
Theorem hamming_distance_triangle (a b c : string) :
  len a = len b → len b = len c →
  ImageHasher.hamming_distance a c
  ≤ ImageHasher.hamming_distance a b + ImageHasher.hamming_distance b c.
Proof.
  intros Hab Hbc. unfold ImageHasher.hamming_distance.
  rewrite !bool_decide_eq_false_2 by (intros ?; congruence).
  unfold len in *. apply hamming_loop_triangle; lia.
Qed.

Lemma hamming_distance_triangle_witness :
  ImageHasher.hamming_distance "0000" "1111"
  ≤ ImageHasher.hamming_distance "0000" "0011" + ImageHasher.hamming_distance "0011" "1111".
Proof. apply (hamming_distance_triangle "0000" "0011" "1111"); reflexivity. Defined.

(** ** Hash information and the search for similar hashes *)

Section HashToolsFacts.
Import HashTools.

Lemma count_char_binary (s : string) :
  0 ≤ count_char "1" s ∧ 0 ≤ count_char "0" s
  ∧ count_char "1" s + count_char "0" s ≤ len s
  ∧ (count_char "1" s + count_char "0" s = len s
     ↔ forallb (λ c, bool_decide (c ∈ ["0"%char; "1"%char])) (list_ascii_of_string s) = true).
Proof.
  unfold len. induction s as [|c s (H1 & H0 & Hle & Hiff)].
  - simpl. repeat split; done.
  - cbn [count_char list_ascii_of_string forallb String.length].
    destruct (decide (c = "1"%char)) as [->|Hn1].
    + rewrite (bool_decide_eq_true_2 ("1"%char = "1"%char)) by done.
      rewrite (bool_decide_eq_false_2 ("1"%char = "0"%char)) by done.
      rewrite (bool_decide_eq_true_2 (_ ∈ _)) by set_solver.
      rewrite andb_true_l, <- Hiff. lia.
    + rewrite (bool_decide_eq_false_2 (c = "1"%char)) by done.
      destruct (decide (c = "0"%char)) as [->|Hn0].
      * rewrite (bool_decide_eq_true_2 ("0"%char = "0"%char)) by done.
        rewrite (bool_decide_eq_true_2 (_ ∈ _)) by set_solver.
        rewrite andb_true_l, <- Hiff. lia.
      * rewrite (bool_decide_eq_false_2 (c = "0"%char)) by done.
        rewrite (bool_decide_eq_false_2 (_ ∈ _)) by set_solver.
        rewrite andb_false_l. repeat split; try lia; done.
Qed.

Lemma insert_by_key_elem {A} (key : A → Z) (x e : A) (l : list A) :
  e ∈ insert_by_key key x l ↔ e = x ∨ e ∈ l.
Proof.
  induction l as [|y l IH]; simpl.
  - rewrite list_elem_of_singleton. set_solver.
  - case_bool_decide; rewrite !elem_of_cons; [done|]. rewrite IH. tauto.
Qed.

Lemma sort_by_key_elem {A} (key : A → Z) (e : A) (l : list A) :
  e ∈ sort_by_key key l ↔ e ∈ l.
Proof.
  unfold sort_by_key. induction l as [|x l IH]; simpl; [done|].
  by rewrite insert_by_key_elem, IH, elem_of_cons.
Qed.

Lemma insert_by_key_sorted {A} (key : A → Z) (x : A) (l : list A) :
  StronglySorted (λ a b, key a ≤ key b) l →
  StronglySorted (λ a b, key a ≤ key b) (insert_by_key key x l).
Proof.
  induction 1 as [|y l Hsorted IH Hall]; simpl.
  - repeat constructor.
  - case_bool_decide as Hle.
    + constructor; [by constructor|]. constructor; [done|].
      eapply Forall_impl; [exact Hall|]. simpl. intros; lia.
    + constructor; [done|]. apply Forall_forall. intros e He.
      apply insert_by_key_elem in He as [->|He]; [lia|].
      by eapply Forall_forall in Hall.
Qed.

Lemma sort_by_key_sorted {A} (key : A → Z) (l : list A) :
  StronglySorted (λ a b, key a ≤ key b) (sort_by_key key l).
Proof.
  unfold sort_by_key. induction l as [|x l IH]; simpl; [constructor|].
  by apply insert_by_key_sorted.
Qed.

Lemma insert_by_key_filter {A} (key : A → Z) (k : Z) (x : A) (l : list A) :
  filter (λ e, key e = k) (insert_by_key key x l)
  = filter (λ e, key e = k) (x :: l).
Proof.
  induction l as [|y l IH]; simpl; [done|]. case_bool_decide as Hle; [done|].
  rewrite !filter_cons in *. rewrite IH.
  destruct (decide (key y = k)), (decide (key x = k)); try done. lia.
Qed.

Lemma sort_by_key_filter {A} (key : A → Z) (k : Z) (l : list A) :
  filter (λ e, key e = k) (sort_by_key key l) = filter (λ e, key e = k) l.
Proof.
  unfold sort_by_key. induction l as [|x l IH]; simpl; [done|].
  rewrite insert_by_key_filter, !filter_cons, IH. done.
Qed.

Lemma collect_similar_elem {M} (new_hash : string) (threshold : Z)
    (hash_database : pydict M) (e : similar_image M) :
  e ∈ collect_similar new_hash threshold hash_database
  ↔ ∃ stored_hash metadata,
      (stored_hash, metadata) ∈ hash_database
      ∧ 0 ≤ ImageHasher.hamming_distance new_hash stored_hash ≤ threshold
      ∧ e = {| sim_hash := stored_hash; sim_metadata := metadata;
               sim_hamming_distance := ImageHasher.hamming_distance new_hash stored_hash;
               sim_similarity_percentage := similarity_percentage new_hash stored_hash |}.
Proof.
  unfold collect_similar.
  enough (∀ acc,
    e ∈ foldl (λ similar_images item,
                 let '(stored_hash, metadata) := item in
                 let distance := ImageHasher.hamming_distance new_hash stored_hash in
                 if bool_decide (0 ≤ distance ≤ threshold) then
                   similar_images ++
                     [{| sim_hash := stored_hash; sim_metadata := metadata;
                         sim_hamming_distance := distance;
                         sim_similarity_percentage :=
                           similarity_percentage new_hash stored_hash |}]
                 else similar_images) acc hash_database
    ↔ e ∈ acc ∨ ∃ stored_hash metadata,
        (stored_hash, metadata) ∈ hash_database
        ∧ 0 ≤ ImageHasher.hamming_distance new_hash stored_hash ≤ threshold
        ∧ e = {| sim_hash := stored_hash; sim_metadata := metadata;
                 sim_hamming_distance := ImageHasher.hamming_distance new_hash stored_hash;
                 sim_similarity_percentage := similarity_percentage new_hash stored_hash |})
    as H.
  { rewrite H. split; [intros [Hnil|?]; [by apply elem_of_nil in Hnil | done] | by right]. }
  induction hash_database as [|[stored_hash metadata] rest IH]; intros acc;
    cbn [foldl].
  - split; [by left|]. intros [?|(? & ? & Hin & _)]; [done | by apply elem_of_nil in Hin].
  - rewrite IH. cbv zeta. case_bool_decide as Hd.
    + rewrite elem_of_app, list_elem_of_singleton. split.
      * intros [[?| ->]|(s & m & Hin & ? & ?)]; [by left | right | right].
        -- exists stored_hash, metadata. split; [left | done].
        -- exists s, m. split; [by right | done].
      * intros [?|(s & m & Hin & Hr & He)]; [by left; left|].
        apply elem_of_cons in Hin as [[= -> ->]|Hin]; [left; by right|].
        right. by exists s, m.
    + split.
      * intros [?|(s & m & Hin & ? & ?)]; [by left | right].
        exists s, m. split; [by right | done].
      * intros [?|(s & m & Hin & Hr & He)]; [by left|].
        apply elem_of_cons in Hin as [[= -> ->]|Hin]; [done|].
        right. by exists s, m.
Qed.

End HashToolsFacts.

(** X7: in the dictionary of [get_hash_info] the counts of ones and zeros
    never exceed the length, and the hash is reported valid exactly when its
    length is the expected hashSize^2 and the two counts add up to the length. *)
Theorem get_hash_info_valid (hash_size : Z) (hash_string : string) :
  let info := HashTools.get_hash_info hash_size hash_string in
  HashTools.info_ones_count info + HashTools.info_zeros_count info
    ≤ HashTools.info_length info
  ∧ (HashTools.info_is_valid info = true
     ↔ HashTools.info_length info = HashTools.info_expected_length info
       ∧ HashTools.info_ones_count info + HashTools.info_zeros_count info
         = HashTools.info_length info).
Proof.
  cbv zeta. unfold HashTools.get_hash_info. simpl.
  destruct (count_char_binary hash_string) as (_ & _ & Hle & Hiff).
  split; [done|]. unfold ImageHasher.validate_hash_format. cbv zeta.
  case_bool_decide as Hlen.
  - split; [done | by intros [? _]].
  - rewrite <- Hiff. split; [done | by intros [_ ?]].
Qed.

(** X8: [compare_with_database] returns exactly the entries of the database
    whose hash has the length of the new hash and lies within the threshold,
    each with its distance: a stored hash of another length is never
    returned. *)
Theorem compare_with_database_members {M} (new_hash : string)
    (hash_database : pydict M) (threshold : Z) (e : HashTools.similar_image M) :
  e ∈ HashTools.compare_with_database new_hash hash_database threshold
  ↔ ∃ stored_hash metadata,
      (stored_hash, metadata) ∈ hash_database
      ∧ len new_hash = len stored_hash
      ∧ ImageHasher.hamming_distance new_hash stored_hash ≤ threshold
      ∧ e = {| HashTools.sim_hash := stored_hash;
               HashTools.sim_metadata := metadata;
               HashTools.sim_hamming_distance :=
                 ImageHasher.hamming_distance new_hash stored_hash;
               HashTools.sim_similarity_percentage :=
                 HashTools.similarity_percentage new_hash stored_hash |}.
Proof.
  unfold HashTools.compare_with_database.
  rewrite sort_by_key_elem, collect_similar_elem.
  split.
  - intros (s & m & Hin & Hd & He). exists s, m. split; [done|].
    split; [|split; [lia | done]].
    destruct (decide (len new_hash = len s)) as [|Hne]; [done|].
    apply hamming_distance_other_length in Hne. lia.
  - intros (s & m & Hin & Hlen & Hd & He). exists s, m. split; [done|].
    split; [|done].
    pose proof (hamming_distance_same_length new_hash s Hlen). lia.
Qed.

(** X9: the list [compare_with_database] returns is in ascending order of
    Hamming distance, and entries at the same distance keep the order of the
    database. *)
Theorem compare_with_database_order {M} (new_hash : string)
    (hash_database : pydict M) (threshold : Z) :
  StronglySorted
    (λ a b, HashTools.sim_hamming_distance a ≤ HashTools.sim_hamming_distance b)
    (HashTools.compare_with_database new_hash hash_database threshold)
  ∧ ∀ distance,
      filter (λ e, HashTools.sim_hamming_distance e = distance)
        (HashTools.compare_with_database new_hash hash_database threshold)
      = filter (λ e, HashTools.sim_hamming_distance e = distance)
          (HashTools.collect_similar new_hash threshold hash_database).
Proof.
  unfold HashTools.compare_with_database.
  split; [apply sort_by_key_sorted | intros; apply sort_by_key_filter].
Qed.

Example compare_with_database_example :
  HashTools.sim_hash <$>
    HashTools.compare_with_database "0011"
      [("1111", "c"); ("0010", "a"); ("00110", "x"); ("0011", "b"); ("0111", "d")] 1
  = ["0011"; "0010"; "0111"].
Proof. vm_compute. reflexivity. Qed.

(** ** The image cache and the batch download *)

Section DownloaderFacts.
Import ImageDownloader.
Implicit Types (E : env) (w : world) (st : stats).

Lemma append_inj_l (p a b : string) : p +:+ a = p +:+ b → a = b.
Proof. induction p as [|c p IH]; simpl; [done|]. intros [= ?]. auto. Qed.

Lemma append_nil_r (a : string) : a +:+ "" = a.
Proof. induction a as [|c a IH]; [done|]. change (String c (a +:+ "") = String c a). by rewrite IH. Qed.

Lemma join_cons (x : string) (l : list string) : join (x :: l) = x +:+ join l.
Proof. unfold join. destruct l; [by rewrite append_nil_r | done]. Qed.

Lemma characters_cons (c : ascii) (rest : string) :
  characters (String c rest)
  = match characters rest with
    | character :: others =>
        if starts_with_continuation rest then String c character :: others
        else String c EmptyString :: character :: others
    | [] => [String c EmptyString]
    end.
Proof. done. Qed.

(** A character followed by a string that starts a new character. *)
Lemma characters_chunk (c : ascii) (continuation rest : string) :
  forallb is_continuation (list_ascii_of_string continuation) = true →
  starts_with_continuation rest = false →
  characters (String c (continuation +:+ rest))
  = String c continuation :: characters rest.
Proof.
  revert c. induction continuation as [|t continuation IH]; intros c Hcont Hrest.
  - change ("" +:+ rest) with rest. rewrite characters_cons.
    destruct (characters rest); [done|]. by rewrite Hrest.
  - simpl in Hcont. apply andb_true_iff in Hcont as [Ht Hcont].
    change (String t continuation +:+ rest) with (String t (continuation +:+ rest)).
    rewrite characters_cons, (IH t Hcont Hrest). cbn [starts_with_continuation].
    by rewrite Ht.
Qed.

Lemma characters_head (c : ascii) (rest : string) :
  ∃ continuation others, characters (String c rest) = String c continuation :: others.
Proof.
  rewrite characters_cons.
  destruct (characters rest) as [|character others]; [by eexists _, _|].
  destruct (starts_with_continuation rest); by eexists _, _.
Qed.

Lemma characters_pieces (s : string) :
  Forall piece (characters s)
  ∧ Forall (λ p, starts_with_continuation p = false) (tail (characters s)).
Proof.
  induction s as [|c rest [IHp IHf]]; [by split|].
  rewrite characters_cons.
  destruct (characters rest) as [|character others] eqn:Hrest.
  { split; [|done]. constructor; [|done]. by exists c, "". }
  apply Forall_cons in IHp as [(c' & continuation & -> & Hcont) Hothers].
  simpl in IHf.
  destruct (starts_with_continuation rest) eqn:Hstart.
  - split; [|done]. constructor; [|done].
    exists c, (String c' continuation). split; [done|]. simpl.
    rewrite Hcont, andb_true_r.
    destruct rest as [|c0 rest]; [done|].
    destruct (characters_head c0 rest) as (k & o & Hhead).
    rewrite Hhead in Hrest. injection Hrest as -> _ _. done.
  - split.
    + constructor; [by exists c, ""|]. constructor; [by eexists _, _|done].
    + simpl. constructor; [|done].
      destruct rest as [|c0 rest]; [done|].
      destruct (characters_head c0 rest) as (k & o & Hhead).
      rewrite Hhead in Hrest. injection Hrest as -> _ _. done.
Qed.

Lemma characters_join (pieces : list string) :
  Forall piece pieces →
  Forall (λ p, starts_with_continuation p = false) (tail pieces) →
  characters (join pieces) = pieces.
Proof.
  induction pieces as [|p pieces IH]; intros Hp Hfresh; [done|].
  apply Forall_cons in Hp as [(c & continuation & -> & Hcont) Hp]. simpl in Hfresh.
  rewrite join_cons.
  change (String c continuation +:+ join pieces)
    with (String c (continuation +:+ join pieces)).
  rewrite characters_chunk; [|done|].
  - rewrite IH; [done | done |]. destruct pieces; [done|]. by apply Forall_cons in Hfresh as [_ ?].
  - destruct pieces as [|p' pieces]; [done|].
    apply Forall_cons in Hfresh as [Hp' _].
    apply Forall_cons in Hp as [(c' & k & -> & _) _]. rewrite join_cons. done.
Qed.

Lemma safe_filename_idemp E (filename : string) :
  safe_filename E (safe_filename E filename) = safe_filename E filename.
Proof.
  unfold safe_filename. destruct (characters_pieces filename) as [Hp Hfresh].
  rewrite characters_join.
  - by rewrite list_filter_filter_r.
  - apply Forall_forall. intros p [_ Hin]%list_elem_of_filter.
    by apply (proj1 (Forall_forall _ _) Hp).
  - destruct (characters filename) as [|p pieces]; [done|]. simpl in Hfresh.
    assert (Hall : Forall (λ p, starts_with_continuation p = false)
                     (filter (λ c, isalnum E c || bool_decide (c ∈ ["."; "-"; "_"]) = true)
                        pieces)).
    { apply Forall_forall. intros q [_ Hin]%list_elem_of_filter.
      by apply (proj1 (Forall_forall _ _) Hfresh). }
    rewrite filter_cons. destruct (decide _); [done|].
    destruct (filter _ pieces); [done|]. by apply Forall_cons in Hall as [_ ?].
Qed.

Lemma plain_char_kept E (c : ascii) :
  plain_char c = true →
  is_continuation c = false
  ∧ isalnum E (String c "") || bool_decide (String c "" ∈ ["."; "-"; "_"]) = true.
Proof.
  unfold plain_char, is_continuation, isalnum. cbn [code_point list_ascii_of_string foldl].
  intros Hc. apply orb_true_iff in Hc as [Hc|Hc].
  - assert (Hlt : Z.of_N (N_of_ascii c) < 128).
    { repeat (apply orb_true_iff in Hc as [Hc|Hc]); apply bool_decide_eq_true in Hc; lia. }
    split; [apply bool_decide_eq_false_2; lia|].
    rewrite (bool_decide_eq_true_2 (Z.of_N (N_of_ascii c) < 128)) by done.
    rewrite (bool_decide_eq_true_2 (Z.of_N (N_of_ascii c) < 128)) by done.
    by rewrite Hc.
  - apply bool_decide_eq_true in Hc. split.
    + repeat (apply elem_of_cons in Hc as [->|Hc]); [done..|by apply elem_of_nil in Hc].
    + apply orb_true_iff. right. apply bool_decide_eq_true_2.
      repeat (apply elem_of_cons in Hc as [->|Hc]);
        [left | right; left | right; right; left | by apply elem_of_nil in Hc].
Qed.

Lemma safe_filename_id E (filename : string) :
  forallb plain_char (list_ascii_of_string filename) = true →
  safe_filename E filename = filename.
Proof.
  unfold safe_filename. induction filename as [|c rest IH]; [done|].
  intros Hall. cbn [list_ascii_of_string forallb] in Hall.
  apply andb_true_iff in Hall as [Hc Hrest].
  destruct (plain_char_kept E c Hc) as [_ Hkept].
  assert (Hstart : starts_with_continuation rest = false).
  { destruct rest as [|c' rest]; [done|]. simpl in Hrest.
    apply andb_true_iff in Hrest as [Hc' _]. by apply (plain_char_kept E c'). }
  pose proof (characters_chunk c "" rest eq_refl Hstart) as Hsplit.
  change ("" +:+ rest) with rest in Hsplit. rewrite Hsplit.
  rewrite filter_cons_True by done. rewrite join_cons, IH by done. done.
Qed.

(** A download step never removes a cached file, leaves the usable cached
    images as they are, and counts one more failure exactly when it fails. *)
Lemma download_image_async_step E (config : DomainConfig) (domain filename : string)
    st w :
  let res := download_image_async E config domain filename st w in
  (∀ path, is_Some (w_cache w !! path) → is_Some (w_cache res.2 !! path))
  ∧ (∀ path data, w_cache w !! path = Some data → data ≠ [] →
       w_cache res.2 !! path = Some data)
  ∧ (res.1.1 = true →
       failed res.1.2 = failed st ∧ stat_errors res.1.2 = stat_errors st
       ∧ downloaded res.1.2 + cached res.1.2 = downloaded st + cached st + 1
       ∧ is_Some (w_cache res.2 !! get_cached_image_path E domain filename))
  ∧ (res.1.1 = false →
       failed res.1.2 = failed st + 1
       ∧ length (stat_errors res.1.2) = S (length (stat_errors st))
       ∧ downloaded res.1.2 + cached res.1.2 = downloaded st + cached st)
  ∧ ∃ evs, w_log res.2 = w_log w ++ evs
           ∧ ∀ f, f ∈ fetched evs → f = filename ∧ is_image_cached E domain filename w = false.
Proof.
  cbv zeta. unfold download_image_async.
  destruct (is_image_cached E domain filename w) eqn:Hcached.
  - simpl. split; [done|]. split; [done|]. split.
    { intros _. repeat split; try lia.
      unfold is_image_cached in Hcached.
      by destruct (w_cache w !! get_cached_image_path E domain filename). }
    split; [done|]. exists []. rewrite app_nil_r. split; [done|].
    intros f Hf. by apply elem_of_nil in Hf.
  - assert (Hlog : ∀ f, f ∈ fetched [EvFetch domain filename] →
                        f = filename ∧ false = false).
    { intros f Hf. simpl in Hf. by apply list_elem_of_singleton in Hf. }
    destruct (http_download E config filename) as [content|error_msg]; simpl.
    + split.
      { intros path Hp.
        destruct (decide (get_cached_image_path E domain filename = path)) as [->|Hne];
          [by rewrite lookup_insert_eq | by rewrite lookup_insert_ne]. }
      split.
      { intros path data Hp Hdata.
        destruct (decide (get_cached_image_path E domain filename = path)) as [<-|Hne];
          [|by rewrite lookup_insert_ne].
        unfold is_image_cached in Hcached. rewrite Hp in Hcached.
        by rewrite bool_decide_eq_true_2 in Hcached. }
      split.
      { intros _. repeat split; try lia. by rewrite lookup_insert_eq. }
      split; [done|].
      exists [EvFetch domain filename;
              EvWriteImage (get_cached_image_path E domain filename)].
      split; [by rewrite <- app_assoc|]. exact Hlog.
    + split; [done|]. split; [done|]. split; [done|]. split.
      { intros _. rewrite length_app. simpl. repeat split; lia. }
      exists [EvFetch domain filename]. split; [done | exact Hlog].
Qed.

(** The same facts along the whole batch. *)
Lemma download_all_steps E (config : DomainConfig) (domain : string)
    (filenames sd fd : list string) st w :
  let res := download_all E config domain filenames sd fd st w in
  let st' := res.1.2 in
  let w' := res.2 in
  (∀ path, is_Some (w_cache w !! path) → is_Some (w_cache w' !! path))
  ∧ (∀ path data, w_cache w !! path = Some data → data ≠ [] →
       w_cache w' !! path = Some data)
  ∧ failed st ≤ failed st'
  ∧ downloaded st' + cached st' + failed st'
    = downloaded st + cached st + failed st + Z.of_nat (length filenames)
  ∧ Z.of_nat (length (stat_errors st')) - failed st'
    = Z.of_nat (length (stat_errors st)) - failed st
  ∧ Z.of_nat (length res.1.1.2) - failed st' = Z.of_nat (length fd) - failed st
  ∧ (failed st' = failed st →
       stat_errors st' = stat_errors st
       ∧ ∀ f, f ∈ filenames → is_Some (w_cache w' !! get_cached_image_path E domain f))
  ∧ ∃ evs, w_log w' = w_log w ++ evs
           ∧ ∀ f, f ∈ fetched evs → f ∈ filenames ∧ is_image_cached E domain f w = false.
Proof.
  revert sd fd st w. induction filenames as [|filename rest IH]; intros sd fd st w;
    cbv zeta; cbn [download_all].
  - simpl. repeat split; try done; try lia.
    + intros f Hf. by apply elem_of_nil in Hf.
    + exists []. rewrite app_nil_r. split; [done|]. intros f Hf. by apply elem_of_nil in Hf.
  - pose proof (download_image_async_step E config domain filename st w) as Hone.
    cbv zeta in Hone.
    destruct (download_image_async E config domain filename st w) as [[ok st1] w1].
    cbn [fst snd] in Hone.
    destruct Hone as (Hkeep1 & Hsame1 & Hok & Hko & evs1 & Hlog1 & Hfetch1).
    assert (Hcached_mono : ∀ f, is_image_cached E domain f w = true →
              is_image_cached E domain f w1 = true).
    { intros f. unfold is_image_cached.
      destruct (w_cache w !! get_cached_image_path E domain f) as [data|] eqn:Hd; [|done].
      intros Hne%bool_decide_eq_true. by rewrite (Hsame1 _ _ Hd Hne), bool_decide_eq_true_2. }
    assert (Hrest : ∀ sd' fd', (ok = false → length fd' = S (length fd)) →
              (ok = true → fd' = fd) →
              let res := download_all E config domain rest sd' fd' st1 w1 in
              (∀ path, is_Some (w_cache w !! path) → is_Some (w_cache res.2 !! path))
              ∧ (∀ path data, w_cache w !! path = Some data → data ≠ [] →
                   w_cache res.2 !! path = Some data)
              ∧ failed st ≤ failed res.1.2
              ∧ downloaded res.1.2 + cached res.1.2 + failed res.1.2
                = downloaded st + cached st + failed st
                  + Z.of_nat (length (filename :: rest))
              ∧ Z.of_nat (length (stat_errors res.1.2)) - failed res.1.2
                = Z.of_nat (length (stat_errors st)) - failed st
              ∧ Z.of_nat (length res.1.1.2) - failed res.1.2
                = Z.of_nat (length fd) - failed st
              ∧ (failed res.1.2 = failed st →
                   stat_errors res.1.2 = stat_errors st
                   ∧ ∀ f, f ∈ filename :: rest →
                          is_Some (w_cache res.2 !! get_cached_image_path E domain f))
              ∧ ∃ evs, w_log res.2 = w_log w ++ evs
                       ∧ ∀ f, f ∈ fetched evs →
                              f ∈ filename :: rest ∧ is_image_cached E domain f w = false).
    { intros sd' fd' Hfd_ko Hfd_ok. cbv zeta.
      destruct (IH sd' fd' st1 w1)
        as (Hkeep & Hsame & Hle & Hsum & Herr & Hfd & Hall & evs & Hlog & Hfetch).
      cbv zeta in *.
      assert (Hst1 : failed st ≤ failed st1
                ∧ downloaded st1 + cached st1 + failed st1
                  = downloaded st + cached st + failed st + 1
                ∧ Z.of_nat (length (stat_errors st1)) - failed st1
                  = Z.of_nat (length (stat_errors st)) - failed st
                ∧ Z.of_nat (length fd') - failed st1 = Z.of_nat (length fd) - failed st).
      { destruct ok.
        - destruct (Hok eq_refl) as (Hf & He & Hd & _). rewrite (Hfd_ok eq_refl), He. lia.
        - destruct (Hko eq_refl) as (Hf & He & Hd). rewrite (Hfd_ko eq_refl), He. lia. }
      destruct Hst1 as (Hle1 & Hsum1 & Herr1 & Hfd1).
      split; [auto|]. split.
      { intros path data Hd Hne. apply Hsame; [|done]. by apply Hsame1. }
      split; [lia|]. split; [simpl length; lia|]. split; [lia|]. split; [lia|]. split.
      - intros Heq. assert (failed st1 = failed st) as Heq1 by lia.
        destruct ok; [|destruct (Hko eq_refl); lia].
        destruct (Hok eq_refl) as (_ & He & _ & Hthis).
        destruct Hall as [Hall_err Hall_cache]; [lia|]. split; [congruence|].
        intros f Hf. apply elem_of_cons in Hf as [->|Hf]; [by apply Hkeep | by apply Hall_cache].
      - exists (evs1 ++ evs). split; [by rewrite Hlog, Hlog1, app_assoc|].
        intros f Hf. unfold fetched in Hf. rewrite omap_app in Hf.
        apply elem_of_app in Hf as [Hf|Hf].
        + destruct (Hfetch1 f Hf) as [-> ?]. split; [left | done].
        + destruct (Hfetch f Hf) as [Hin Hnot]. split; [by right|].
          destruct (is_image_cached E domain f w) eqn:Hc; [|done].
          by rewrite (Hcached_mono f Hc) in Hnot. }
    destruct ok.
    + apply Hrest; [done | done].
    + apply Hrest; [intros _; rewrite length_app; simpl; lia | done].
Qed.

End DownloaderFacts.

(** X10: two file names share a cache path in a domain exactly when their
    sanitised names agree; sanitising is idempotent and leaves a name made of
    ASCII letters, digits, '.', '-' and '_' unchanged, so such names never
    collide. *)
Theorem cached_image_path_collisions (E : env) (domain filename : string) :
  ImageDownloader.safe_filename E (ImageDownloader.safe_filename E filename)
  = ImageDownloader.safe_filename E filename
  ∧ (forallb plain_char (list_ascii_of_string filename) = true →
     ImageDownloader.safe_filename E filename = filename)
  ∧ ∀ other,
      ImageDownloader.get_cached_image_path E domain filename
      = ImageDownloader.get_cached_image_path E domain other
      ↔ ImageDownloader.safe_filename E filename = ImageDownloader.safe_filename E other.
Proof.
  split; [apply safe_filename_idemp|]. split; [apply safe_filename_id|].
  intros other. unfold ImageDownloader.get_cached_image_path. split.
  - intros Hpath. by do 4 apply append_inj_l in Hpath.
  - by intros ->.
Qed.

(** A blank, and a full-width comma (U+FF0C, three bytes), are dropped; an
    ideograph is kept. *)
Example cached_image_path_example :
  ImageDownloader.get_cached_image_path Example.example_env "example.com" "a b.png"
  = "temp/example.com_ab.png"
  ∧ ImageDownloader.get_cached_image_path Example.example_env "example.com" "a，b.png"
    = "temp/example.com_ab.png"
  ∧ ImageDownloader.get_cached_image_path Example.example_env "example.com" "雨.png"
    = "temp/example.com_雨.png".
Proof. vm_compute. done. Qed.

(** X11: for a configured domain and a list of file names that is not empty,
    the batch download accounts for every file: downloaded + cached + failed
    is the number of file names (processed_files = total_files), the result is
    successful exactly when no download failed, which is exactly when it
    carries no error, and it never carries more than ten errors. *)
Theorem download_batch_accounting (E : env) (domain : string) (config : DomainConfig)
    (filenames : list string) (w : world) :
  get_domain_config E domain = Some config →
  filenames ≠ [] →
  let r := (ImageDownloader.download_images_batch_async E domain filenames w).1 in
  processed_files r = Z.of_nat (length filenames)
  ∧ total_files r = Z.of_nat (length filenames)
  ∧ (success r = true ↔ dict_get (details r) "failed" = Some (DInt 0))
  ∧ (success r = true ↔ errors r = [])
  ∧ (length (errors r) ≤ 10)%nat.
Proof.
  intros Hconfig Hne. cbv zeta.
  unfold ImageDownloader.download_images_batch_async.
  rewrite bool_decide_eq_false_2 by done. rewrite Hconfig.
  pose proof (download_all_steps E config domain filenames [] []
                ImageDownloader.reset_stats w) as Hall.
  cbv zeta in Hall.
  destruct (ImageDownloader.download_all E config domain filenames [] []
              ImageDownloader.reset_stats w) as [[[sd fd] st] w1].
  cbn [fst snd] in Hall. destruct Hall as (_ & _ & Hle & Hsum & Herr & _).
  simpl in Hle, Hsum, Herr. cbn [fst].
  assert (Hfields : ∀ r0 : ValidationResult,
            processed_files
              (if negb (bool_decide (ImageDownloader.failed st = 0))
               then add_warning r0 ("Failed to download "
                      +:+ pretty (Z.of_nat (length fd)) +:+ " images")
               else r0) = processed_files r0
            ∧ total_files (if negb (bool_decide (ImageDownloader.failed st = 0))
               then add_warning r0 ("Failed to download "
                      +:+ pretty (Z.of_nat (length fd)) +:+ " images")
               else r0) = total_files r0
            ∧ success (if negb (bool_decide (ImageDownloader.failed st = 0))
               then add_warning r0 ("Failed to download "
                      +:+ pretty (Z.of_nat (length fd)) +:+ " images")
               else r0) = success r0
            ∧ errors (if negb (bool_decide (ImageDownloader.failed st = 0))
               then add_warning r0 ("Failed to download "
                      +:+ pretty (Z.of_nat (length fd)) +:+ " images")
               else r0) = errors r0
            ∧ details (if negb (bool_decide (ImageDownloader.failed st = 0))
               then add_warning r0 ("Failed to download "
                      +:+ pretty (Z.of_nat (length fd)) +:+ " images")
               else r0) = details r0).
  { intros r0. by destruct (negb _). }
  assert (Hfold : ∀ (r0 : ValidationResult) (ms : list string),
            processed_files (foldl add_error r0 ms) = processed_files r0
            ∧ total_files (foldl add_error r0 ms) = total_files r0
            ∧ details (foldl add_error r0 ms) = details r0).
  { intros r0 ms. revert r0. induction ms as [|m ms IH]; intros r0; simpl; [done|].
    destruct (IH (add_error r0 m)) as (-> & -> & ->). done. }
  match goal with |- context [foldl add_error ?r0 ?ms] =>
    destruct (Hfields (foldl add_error r0 ms)) as (-> & -> & -> & -> & ->);
    destruct (Hfold r0 ms) as (-> & -> & ->);
    rewrite success_foldl_add_error, errors_foldl_add_error
  end.
  cbn [processed_files total_files success errors details set_details set_counts new_result].
  split; [lia|]. split; [done|].
  assert (Htake : take 10 (ImageDownloader.stat_errors st) = []
                  ↔ ImageDownloader.failed st = 0).
  { destruct (ImageDownloader.stat_errors st) as [|m ms] eqn:Hms; simpl in *.
    - split; [lia | done].
    - split; [done | lia]. }
  destruct (decide (ImageDownloader.failed st = 0)) as [H0|Hn0].
  - rewrite (proj2 Htake H0), app_nil_l. simpl.
    rewrite bool_decide_eq_true_2 by done. rewrite H0.
    split; [done|]. split; [done | lia].
  - rewrite app_nil_l. simpl.
    rewrite (bool_decide_eq_false_2 (take 10 _ = []))
      by (intros Hnil; by apply Htake in Hnil).
    split; [|split; [|rewrite length_take; apply Nat.le_min_l]].
    + split; [done | intros [= ?]; done].
    + split; [done | intros Hnil; by apply Htake in Hnil].
Qed.

Lemma download_batch_accounting_witness :
  processed_files
    (ImageDownloader.download_images_batch_async Example.example_env "example.com"
       ["a.png"; "b.png"; "c.png"] (Example.world_of [] [])).1 = 3.
Proof.
  refine (proj1 (download_batch_accounting Example.example_env "example.com"
                   Example.example_config ["a.png"; "b.png"; "c.png"]
                   (Example.world_of [] []) _ _)); [vm_compute; reflexivity | done].
Defined.

Lemma download_sync_success_cache (E : env) (domain : string)
    (filenames : list string) (w : world) (filename : string) :
  success (ImageDownloader.download_images_sync E domain filenames w).1 = true →
  filename ∈ filenames →
  is_Some (w_cache (ImageDownloader.download_images_sync E domain filenames w).2
           !! ImageDownloader.get_cached_image_path E domain filename).
Proof.
  unfold ImageDownloader.download_images_sync, ImageDownloader.download_images_batch_async.
  intros Hok Hin.
  rewrite bool_decide_eq_false_2 in * by (intros ->; by apply elem_of_nil in Hin).
  destruct (get_domain_config E domain) as [config|]; [|done].
  pose proof (download_all_steps E config domain filenames [] []
                ImageDownloader.reset_stats w) as Hall.
  cbv zeta in Hall.
  destruct (ImageDownloader.download_all E config domain filenames [] []
              ImageDownloader.reset_stats w) as [[[sd fd] st] w1].
  cbn [fst snd] in *. destruct Hall as (_ & _ & _ & _ & _ & _ & Hall & _).
  destruct (decide (ImageDownloader.failed st = 0)) as [H0|Hn0].
  - destruct (Hall H0) as [_ Hcache]. auto.
  - exfalso. rewrite (bool_decide_eq_false_2 (ImageDownloader.failed st = 0)) in Hok by done.
    cbn [negb] in Hok. unfold add_warning in Hok. cbn [success] in Hok.
    rewrite success_foldl_add_error in Hok. by case_bool_decide.
Qed.

(** X12: after a batch download that reports success, every requested file
    name has a downloaded image: [get_downloaded_image_path] finds it. *)
Theorem download_success_caches_all (E : env) (domain : string)
    (filenames : list string) (w : world) (filename : string) :
  success (ImageDownloader.download_images_sync E domain filenames w).1 = true →
  filename ∈ filenames →
  ImageDownloader.get_downloaded_image_path E domain filename
    (ImageDownloader.download_images_sync E domain filenames w).2
  = Some (ImageDownloader.get_cached_image_path E domain filename).
Proof.
  intros Hok Hin. unfold ImageDownloader.get_downloaded_image_path.
  rewrite bool_decide_eq_true_2; [done|].
  by apply download_sync_success_cache.
Qed.

Lemma download_success_caches_all_witness :
  ImageDownloader.get_downloaded_image_path Example.example_env "example.com" "c.png"
    (ImageDownloader.download_images_sync Example.example_env "example.com"
       ["a.png"; "c.png"] (Example.world_of [] [])).2
  = Some "temp/example.com_c.png".
Proof.
  apply (download_success_caches_all Example.example_env "example.com"
           ["a.png"; "c.png"] (Example.world_of [] []) "c.png").
  - vm_compute. reflexivity.
  - apply list_elem_of_further, list_elem_of_here.
Defined.

(** X13: the batch download requests from the network only file names of its
    list that had no usable cached image when it started: a cached image is
    never fetched again. *)
Theorem cached_images_not_requested (E : env) (domain : string)
    (filenames : list string) (w : world) :
  ∃ evs,
    w_log (ImageDownloader.download_images_sync E domain filenames w).2 = w_log w ++ evs
    ∧ ∀ filename, filename ∈ fetched evs →
        filename ∈ filenames
        ∧ ImageDownloader.is_image_cached E domain filename w = false.
Proof.
  unfold ImageDownloader.download_images_sync, ImageDownloader.download_images_batch_async.
  assert (Hnone : ∃ evs, w_log w = w_log w ++ evs
            ∧ ∀ filename, filename ∈ fetched evs →
                filename ∈ filenames
                ∧ ImageDownloader.is_image_cached E domain filename w = false).
  { exists []. rewrite app_nil_r. split; [done|]. intros f Hf. by apply elem_of_nil in Hf. }
  case_bool_decide; [done|].
  destruct (get_domain_config E domain) as [config|]; [|done].
  pose proof (download_all_steps E config domain filenames [] []
                ImageDownloader.reset_stats w) as Hall.
  cbv zeta in Hall.
  destruct (ImageDownloader.download_all E config domain filenames [] []
              ImageDownloader.reset_stats w) as [[[sd fd] st] w1].
  cbn [fst snd] in *. by destruct Hall as (_ & _ & _ & _ & _ & _ & _ & Hlog).
Qed.

(** ** Dictionaries with distinct keys *)

Section PyDictKeys.
Context {V : Type}.
Implicit Types (d : pydict V) (k : string) (v : V).

Lemma dict_setitem_keys_old d k v : k ∈ d.*1 → (dict_setitem d k v).*1 = d.*1.
Proof.
  induction d as [|[k0 v0] d IH]; intros Hin.
  - by apply elem_of_nil in Hin.
  - cbn [dict_setitem]. destruct (bool_decide_reflect (k0 = k)) as [->|Hne]; [done|].
    cbn [fmap list_fmap]. f_equal. apply IH.
    cbn [fmap list_fmap] in Hin. apply elem_of_cons in Hin as [?|?]; [|done].
    simpl in *. congruence.
Qed.

Lemma dict_setitem_keys_new d k v : k ∉ d.*1 → (dict_setitem d k v).*1 = d.*1 ++ [k].
Proof.
  induction d as [|[k0 v0] d IH]; intros Hout; [done|].
  cbn [fmap list_fmap] in Hout. apply not_elem_of_cons in Hout as [Hne Hout].
  cbn [dict_setitem]. rewrite bool_decide_eq_false_2 by (simpl in Hne; congruence).
  cbn [fmap list_fmap]. simpl. f_equal. by apply IH.
Qed.

Lemma dict_setitem_NoDup d k v : NoDup d.*1 → NoDup (dict_setitem d k v).*1.
Proof.
  intros Hd. destruct (decide (k ∈ d.*1)) as [Hin|Hout].
  - by rewrite dict_setitem_keys_old.
  - rewrite dict_setitem_keys_new by done.
    apply NoDup_app. split; [done|]. split; [|apply NoDup_singleton].
    intros x Hx Hx'. apply list_elem_of_singleton in Hx'. by subst.
Qed.

Lemma dict_setitem_new d k v : k ∉ d.*1 → dict_setitem d k v = d ++ [(k, v)].
Proof.
  induction d as [|[k0 v0] d IH]; simpl; [done|].
  intros [Hne Hout]%not_elem_of_cons.
  rewrite bool_decide_eq_false_2 by congruence. by rewrite IH.
Qed.

Lemma dict_get_NoDup d k v : NoDup d.*1 → (k, v) ∈ d → dict_get d k = Some v.
Proof.
  induction d as [|[k0 v0] d IH]; simpl; intros Hd Hin.
  - by apply elem_of_nil in Hin.
  - apply NoDup_cons in Hd as [Hk0 Hd].
    apply elem_of_cons in Hin as [[= -> ->]|Hin].
    + by rewrite bool_decide_eq_true_2.
    + rewrite bool_decide_eq_false_2; [by apply IH|].
      intros ->. apply Hk0. apply list_elem_of_fmap. by exists (k, v).
Qed.

(** Updating with entries whose keys are new and distinct appends them. *)
Lemma dict_update_new d (other : pydict V) :
  NoDup other.*1 → (∀ k, k ∈ other.*1 → k ∉ d.*1) →
  dict_update d other = d ++ other.
Proof.
  unfold dict_update. revert d.
  induction other as [|[k v] other IH]; intros d Hnd Hnew; simpl.
  - by rewrite app_nil_r.
  - simpl in Hnd. apply NoDup_cons in Hnd as [Hk Hnd].
    rewrite dict_setitem_new by (apply Hnew; left).
    rewrite IH; [by rewrite <- app_assoc | done |].
    intros k' Hk'. rewrite fmap_app, elem_of_app. simpl.
    intros [Hin|Hin%list_elem_of_singleton].
    + by apply (Hnew k'); [right|].
    + by subst.
Qed.

End PyDictKeys.

(** ** The candidates of each character *)

Section CandidateLists.
Import SyncProcessor.
Implicit Types (characters : gset string) (acc : pydict (list string)).

Lemma add_filename_NoDup characters acc (item : string * string) :
  NoDup acc.*1 → NoDup (add_filename characters acc item).*1.
Proof.
  intros Hacc. unfold add_filename. destruct item as [filename character].
  case_bool_decide; [|done].
  destruct (dict_get acc character); by repeat apply dict_setitem_NoDup.
Qed.

Lemma add_filenames_lists characters (items : pydict string) acc (c : string) :
  dict_get (foldl (add_filename characters) acc items) c
  = if bool_decide (c ∈ characters ∧ c ∈ dict_values items)
    then Some (default [] (dict_get acc c) ++ (filter (λ item, item.2 = c) items).*1)
    else dict_get acc c.
Proof.
  unfold dict_values. revert acc.
  induction items as [|[filename character] items IH]; intros acc.
  - cbn [foldl]. rewrite bool_decide_eq_false_2; [done|].
    intros [_ Hin]. by apply elem_of_nil in Hin.
  - cbn [foldl]. rewrite IH. rewrite filter_cons.
    cbn [fmap list_fmap snd].
    destruct (decide (character ∈ characters)) as [Hin|Hout].
    + rewrite dict_get_add_filename by done.
      destruct (decide (character = c)) as [->|Hne].
      * rewrite (bool_decide_eq_true_2 (c = c)) by done. simpl.
        rewrite (bool_decide_eq_true_2 (c ∈ characters ∧ c ∈ c :: items.*2))
          by (split; [done | left]).
        case_bool_decide as Hc.
        -- rewrite <- app_assoc. reflexivity.
        -- do 3 f_equal.
           assert (Hnone : filter (λ item : string * string, item.2 = c) items = []).
           { destruct (filter (λ item : string * string, item.2 = c) items)
               as [|[f c'] rest] eqn:Hfilter; [done|].
             assert (Hf : (f, c') ∈ filter (λ item : string * string, item.2 = c) items)
               by (rewrite Hfilter; left).
             apply list_elem_of_filter in Hf as [Heq Hf]. simpl in Heq. subst c'.
             destruct Hc. split; [done|]. apply list_elem_of_fmap. by exists (f, c). }
           by rewrite Hnone.
      * rewrite (bool_decide_eq_false_2 (character = c)) by done.
        match goal with |- (if ?a then _ else _) = (if ?b then _ else _) =>
          replace a with b; [done|] end.
        apply bool_decide_ext. rewrite elem_of_cons. naive_solver.
    + rewrite add_filename_other by done.
      destruct (decide (character = c)) as [->|Hne].
      * rewrite !bool_decide_eq_false_2; [done | tauto | tauto].
      * match goal with |- (if ?a then _ else _) = (if ?b then _ else _) =>
          replace a with b; [done|] end.
        apply bool_decide_ext. rewrite elem_of_cons. naive_solver.
Qed.

Lemma get_filenames_for_characters_NoDup (filename_mapping : pydict string) characters :
  NoDup (get_filenames_for_characters filename_mapping characters).*1.
Proof.
  unfold get_filenames_for_characters.
  enough (∀ acc : pydict (list string), NoDup acc.*1 →
            NoDup (foldl (add_filename characters) acc filename_mapping).*1)
    as H by (apply H; constructor).
  induction filename_mapping as [|item rest IH]; intros acc Hacc; [done|].
  cbn [foldl]. apply IH. by apply add_filename_NoDup.
Qed.

End CandidateLists.

(** X14: [get_filenames_for_characters] gives each wanted character that the
    filename mapping uses the list of all its file names, in the order of the
    mapping; a character that is not wanted or not used has no entry, and no
    character has two entries. *)
Theorem get_filenames_for_characters_lists (filename_mapping : pydict string)
    (characters : gset string) (character : string) :
  dict_get (SyncProcessor.get_filenames_for_characters filename_mapping characters)
    character
  = (if bool_decide (character ∈ characters ∧ character ∈ dict_values filename_mapping)
     then Some (filter (λ item, item.2 = character) filename_mapping).*1
     else None)
  ∧ NoDup (SyncProcessor.get_filenames_for_characters filename_mapping characters).*1.
Proof.
  split.
  - unfold SyncProcessor.get_filenames_for_characters. by rewrite add_filenames_lists.
  - apply get_filenames_for_characters_NoDup.
Qed.

Example get_filenames_for_characters_example :
  SyncProcessor.get_filenames_for_characters
    [("a.png", "雨"); ("c.png", "云"); ("b.png", "雨"); ("d.png", "山")] {["雨"; "云"]}
  = [("雨", ["a.png"; "b.png"]); ("云", ["c.png"])].
Proof. vm_compute. reflexivity. Qed.

(** ** Hashing the candidates of a character *)

Section HashingLoop.
Import ImageDownloader SyncProcessor.
Implicit Types (E : env) (w : world) (hr : pydict string).

Lemma get_downloaded_image_path_cache E (domain filename : string) w w' :
  w_cache w' = w_cache w →
  get_downloaded_image_path E domain filename w'
  = get_downloaded_image_path E domain filename w.
Proof. intros Hc. unfold get_downloaded_image_path. by rewrite Hc. Qed.

Lemma hash_image_file_cache E (path : string) w w' :
  w_cache w' = w_cache w →
  (hash_image_file E path w').1 = (hash_image_file E path w).1
  ∧ w_cache (hash_image_file E path w).2 = w_cache w.
Proof.
  intros Hc. unfold hash_image_file. rewrite Hc.
  by destruct (w_cache w !! path).
Qed.

Lemma candidate_hash_cache E (domain filename : string) w w' :
  w_cache w' = w_cache w →
  candidate_hash E domain w' filename = candidate_hash E domain w filename.
Proof.
  intros Hc. unfold candidate_hash.
  rewrite (get_downloaded_image_path_cache E domain filename w w' Hc).
  destruct (get_downloaded_image_path E domain filename w) as [p|]; [|done].
  by rewrite (proj1 (hash_image_file_cache E p w w' Hc)).
Qed.

Lemma hash_image_file_log E (domain filename path : string) w :
  get_downloaded_image_path E domain filename w = Some path →
  w_log (hash_image_file E path w).2 = w_log w ++ [EvReadImage path]
  ∧ w_json (hash_image_file E path w).2 = w_json w.
Proof.
  unfold get_downloaded_image_path, hash_image_file.
  case_bool_decide as Hsome; [|done]. intros [= <-].
  by destruct Hsome as [data ->].
Qed.

(** The loop stops at the first candidate whose image hashes to a string that
    is not empty, having read the images of the candidates before it. *)
Lemma hash_first_image_success E (domain character : string) (w0 : world)
    (before after : list string) (filename h : string) hr :
  Forall (λ f, candidate_hash E domain w0 f = None
               ∨ candidate_hash E domain w0 f = Some "") before →
  candidate_hash E domain w0 filename = Some h → h ≠ "" →
  ∀ character_hash w, w_cache w = w_cache w0 →
    let res := hash_first_image E domain character (before ++ filename :: after)
                 character_hash hr w in
    res.1.1 = Some h
    ∧ res.1.2 = dict_setitem hr h character
    ∧ w_cache res.2 = w_cache w0
    ∧ w_json res.2 = w_json w
    ∧ w_log res.2
      = w_log w ++ (EvReadImage <$>
                      omap (λ f, get_downloaded_image_path E domain f w0)
                        (before ++ [filename])).
Proof.
  intros Hbefore Hthis Hne.
  induction Hbefore as [|f0 before Hf0 _ IH]; intros character_hash w Hc; cbv zeta.
  - cbn [app hash_first_image omap list_omap].
    rewrite <- (candidate_hash_cache E domain filename w0 w Hc) in Hthis.
    rewrite <- (get_downloaded_image_path_cache E domain filename w0 w Hc).
    unfold candidate_hash in Hthis.
    destruct (get_downloaded_image_path E domain filename w) as [p|] eqn:Hp; [|done].
    injection Hthis as Hh.
    destruct (hash_image_file_log E domain filename p w Hp) as [Hlog Hjson].
    pose proof (proj2 (hash_image_file_cache E p w w eq_refl)) as Hcache.
    destruct (hash_image_file E p w) as [h' w1]. simpl in *. subst h'.
    rewrite bool_decide_eq_true_2 by done. simpl.
    repeat split; [congruence | done | done].
  - cbn [app hash_first_image omap list_omap].
    rewrite <- (candidate_hash_cache E domain f0 w0 w Hc) in Hf0.
    rewrite <- (get_downloaded_image_path_cache E domain f0 w0 w Hc).
    unfold candidate_hash in Hf0.
    destruct (get_downloaded_image_path E domain f0 w) as [p|] eqn:Hp.
    + destruct Hf0 as [?|Hempty]; [done|]. injection Hempty as Hh.
      destruct (hash_image_file_log E domain f0 p w Hp) as [Hlog Hjson].
      pose proof (proj2 (hash_image_file_cache E p w w eq_refl)) as Hcache.
      destruct (hash_image_file E p w) as [h' w1]. simpl in *. subst h'.
      rewrite bool_decide_eq_false_2 by (intros Hx; by apply Hx).
      destruct (IH (Some "") w1) as (H1 & H2 & H3 & H4 & H5); [congruence|].
      cbv zeta in *. repeat split; [done | done | done | congruence |].
      rewrite H5, Hlog, <- app_assoc. done.
    + by apply IH.
Qed.

(** The hash of a character stays [None] exactly when none of its candidates
    has a downloaded image; the loop changes neither the cache nor a file. *)
Lemma hash_first_image_none E (domain character : string) (filenames : list string)
    (character_hash : option string) hr w :
  let res := hash_first_image E domain character filenames character_hash hr w in
  w_cache res.2 = w_cache w
  ∧ (res.1.1 = None ↔ character_hash = None ∧ Forall (no_image E domain w) filenames)
  ∧ (res.1.2 = hr ∨ ∃ h, h ≠ "" ∧ res.1.2 = dict_setitem hr h character).
Proof.
  cbv zeta. revert character_hash w.
  induction filenames as [|filename rest IH]; intros character_hash w;
    cbn [hash_first_image].
  - simpl. split; [done|]. split; [|by left]. split; [done | by intros [? _]].
  - destruct (get_downloaded_image_path E domain filename w) as [p|] eqn:Hp.
    + pose proof (proj2 (hash_image_file_cache E p w w eq_refl)) as Hcache.
      destruct (hash_image_file E p w) as [h w1]. simpl in Hcache.
      assert (Hnot : ¬ Forall (no_image E domain w) (filename :: rest)).
      { intros Hall. apply Forall_cons in Hall as [Hhead _].
        unfold no_image in Hhead. congruence. }
      case_bool_decide as Hh.
      * simpl. split; [done|]. split; [|right; eauto].
        split; [done | by intros [_ ?]].
      * destruct (IH (Some h) w1) as (Hc & Hiff & Hres).
        split; [congruence|]. split; [|done].
        rewrite Hiff. split; [by intros [? _] | by intros [_ ?]].
    + destruct (IH character_hash w) as (Hc & Hiff & Hres).
      split; [done|]. split; [|done]. rewrite Hiff, Forall_cons. unfold no_image at 2.
      tauto.
Qed.

End HashingLoop.

(** X15: first-success policy.  When the candidates before [filename] have no
    image or an image that cannot be hashed, and the image of [filename]
    hashes to a hash that is not empty, the loop over the candidates records
    that hash for the character and stops: it reads the images of the
    candidates up to [filename] and none of the later ones. *)
Theorem hash_first_image_first_success (E : env) (domain character : string)
    (w : world) (before after : list string) (filename h : string)
    (hash_results : pydict string) :
  Forall (λ f, candidate_hash E domain w f = None
               ∨ candidate_hash E domain w f = Some "") before →
  candidate_hash E domain w filename = Some h → h ≠ "" →
  let res := SyncProcessor.hash_first_image E domain character
               (before ++ filename :: after) None hash_results w in
  res.1.1 = Some h
  ∧ res.1.2 = dict_setitem hash_results h character
  ∧ ∃ evs, w_log res.2 = w_log w ++ evs
           ∧ images_read evs
             = omap (λ f, ImageDownloader.get_downloaded_image_path E domain f w)
                 (before ++ [filename]).
Proof.
  intros Hbefore Hthis Hne.
  destruct (hash_first_image_success E domain character w before after filename h
              hash_results Hbefore Hthis Hne None w eq_refl)
    as (H1 & H2 & _ & _ & Hlog).
  cbv zeta in *. split; [done|]. split; [done|].
  eexists. split; [exact Hlog|].
  generalize (omap (λ f, ImageDownloader.get_downloaded_image_path E domain f w)
                (before ++ [filename])).
  intros paths. unfold images_read.
  induction paths as [|p paths IH]; [done|]. simpl. f_equal. exact IH.
Qed.

Lemma hash_first_image_first_success_witness :
  let w := put_image "temp/example.com_b.png" Example.rising (Example.world_of [] []) in
  (SyncProcessor.hash_first_image Example.example_env "example.com" "雨"
     ["a.png"; "b.png"; "c.png"] None [] w).1.1 = Some Example.ones.
Proof.
  cbv zeta.
  refine (proj1 (hash_first_image_first_success Example.example_env "example.com" "雨"
                   (put_image "temp/example.com_b.png" Example.rising
                      (Example.world_of [] []))
                   ["a.png"] ["c.png"] "b.png" Example.ones [] _ _ _)).
  - constructor; [left; vm_compute; reflexivity | constructor].
  - vm_compute. reflexivity.
  - discriminate.
Defined.

(** ** Hashing all the characters *)

Section HashCharacters.
Import ImageDownloader SyncProcessor.
Implicit Types (E : env) (w : world) (hr : pydict string).

Lemma dict_setitem_values {V} (d : pydict V) (k : string) (v x : V) :
  x ∈ (dict_setitem d k v).*2 → x = v ∨ x ∈ d.*2.
Proof.
  induction d as [|[k0 v0] d IH]; cbn [dict_setitem].
  - simpl. intros ->%list_elem_of_singleton. by left.
  - case_bool_decide; cbn [fmap list_fmap]; simpl; rewrite !elem_of_cons.
    + intros [->|?]; [by left | right; by right].
    + intros [->|Hx]; [right; by left|]. destruct (IH Hx); [by left | right; by right].
Qed.

Lemma dict_setitem_values_NoDup {V} (d : pydict V) (k : string) (v : V) :
  NoDup d.*2 → v ∉ d.*2 → NoDup (dict_setitem d k v).*2.
Proof.
  induction d as [|[k0 v0] d IH]; cbn [dict_setitem]; intros Hd Hv.
  - simpl. apply NoDup_singleton.
  - cbn [fmap list_fmap] in Hd, Hv. simpl in Hd, Hv.
    apply NoDup_cons in Hd as [Hv0 Hd]. apply not_elem_of_cons in Hv as [Hne Hv].
    case_bool_decide; cbn [fmap list_fmap]; simpl; apply NoDup_cons.
    + done.
    + split; [|by apply IH].
      intros Hx. apply dict_setitem_values in Hx as [?|?]; [congruence | done].
Qed.

Lemma no_image_cache E (domain : string) w w' (filenames : list string) :
  w_cache w' = w_cache w →
  Forall (λ f, get_downloaded_image_path E domain f w' = None) filenames
  ↔ Forall (λ f, get_downloaded_image_path E domain f w = None) filenames.
Proof.
  intros Hc. apply Forall_iff. intros f.
  by rewrite (get_downloaded_image_path_cache E domain f w w' Hc).
Qed.

Lemma hash_characters_run E (domain : string) (items : pydict (list string))
    hr (failed_hashes : list string) w :
  let res := hash_characters E domain items hr failed_hashes w in
  w_cache res.2 = w_cache w
  ∧ res.1.2
    = failed_hashes
      ++ (filter (λ item, Forall (λ f, get_downloaded_image_path E domain f w = None)
                            item.2) items).*1
  ∧ (NoDup hr.*1 → NoDup res.1.1.*1)
  ∧ (NoDup items.*1 → NoDup hr.*2 → (∀ c, c ∈ hr.*2 → c ∉ items.*1) →
     NoDup res.1.1.*2 ∧ ∀ c, c ∈ res.1.1.*2 → c ∈ hr.*2 ∨ c ∈ items.*1).
Proof.
  cbv zeta. revert hr failed_hashes w.
  induction items as [|[character filenames] rest IH]; intros hr failed_hashes w;
    cbn [hash_characters].
  - simpl. rewrite app_nil_r. repeat split; auto.
  - pose proof (hash_first_image_none E domain character filenames None hr w) as Hone.
    cbv zeta in Hone.
    destruct (hash_first_image E domain character filenames None hr w)
      as [[character_hash hr1] w1].
    cbn [fst snd] in Hone. destruct Hone as (Hc1 & Hnone & Hres).
    destruct (IH hr1 (match character_hash with
                      | Some _ => failed_hashes
                      | None => failed_hashes ++ [character]
                      end) w1) as (Hc & Hfailed & Hkeys & Hvalues).
    split; [congruence|]. split; [|split].
    + rewrite Hfailed, filter_cons. cbn [snd].
      assert (Hsame : filter (λ item : string * list string,
                         Forall (λ f, get_downloaded_image_path E domain f w1 = None) item.2)
                        rest
                      = filter (λ item : string * list string,
                         Forall (λ f, get_downloaded_image_path E domain f w = None) item.2)
                        rest).
      { apply list_filter_iff. intros item. by apply no_image_cache. }
      rewrite Hsame. unfold no_image in Hnone.
      destruct character_hash as [h|].
      * rewrite decide_False; [done|]. intros Hall.
        pose proof (proj2 Hnone (conj eq_refl Hall)) as Hbad. discriminate Hbad.
      * rewrite decide_True by (by apply Hnone). simpl. by rewrite <- app_assoc.
    + intros Hhr. apply Hkeys.
      destruct Hres as [->|(h & _ & ->)]; [done | by apply dict_setitem_NoDup].
    + intros Hitems Hhr Hdisj. cbn [fmap list_fmap] in Hitems. simpl in Hitems.
      apply NoDup_cons in Hitems as [Hchar Hrest].
      assert (Hhr1 : NoDup hr1.*2 ∧ ∀ c, c ∈ hr1.*2 → c = character ∨ c ∈ hr.*2).
      { destruct Hres as [->|(h & _ & ->)]; [by auto|]. split.
        - apply dict_setitem_values_NoDup; [done|]. intros Hin.
          apply (Hdisj _ Hin). left.
        - intros c. apply dict_setitem_values. }
      destruct Hhr1 as [Hnd1 Hsub1].
      destruct Hvalues as [Hnd Hsub]; [done | done | |].
      { intros c Hc' Hin. destruct (Hsub1 c Hc') as [->|Hold]; [done|].
        apply (Hdisj c Hold). by right. }
      split; [done|]. intros c Hc'. cbn [fmap list_fmap]. simpl.
      rewrite elem_of_cons.
      destruct (Hsub c Hc') as [Hin|Hin]; [|by right; right].
      destruct (Hsub1 c Hin) as [->|?]; [right; by left | by left].
Qed.

End HashCharacters.

(** X16: the hashing loop records a character as failed exactly when none of
    its candidates has a downloaded image (in the order of the dictionary); a
    character whose images are there but cannot be hashed is not recorded. *)
Theorem failed_characters_have_no_image (E : env) (domain : string)
    (char_to_filenames : pydict (list string)) (w : world) :
  (SyncProcessor.hash_characters E domain char_to_filenames [] [] w).1.2
  = (filter (λ item,
               Forall (λ f, ImageDownloader.get_downloaded_image_path E domain f w = None)
                 item.2)
       char_to_filenames).*1.
Proof.
  by destruct (hash_characters_run E domain char_to_filenames [] [] w) as (_ & -> & _).
Qed.

Example failed_characters_example :
  let w := put_image "temp/example.com_a.png" Example.rising (Example.world_of [] []) in
  (SyncProcessor.hash_characters Example.example_env "example.com"
     [("雨", ["a.png"]); ("云", ["b.png"; "c.png"]); ("山", [])] [] [] w).1
  = ([(Example.ones, "雨")], ["云"; "山"]).
Proof. vm_compute. reflexivity. Qed.

(** ** The result of [process_missing_characters] *)

Section ProcessResult.
Import ImageDownloader SyncProcessor.
Implicit Types (E : env) (w : world).

Lemma foldl_add_error_map {A} (f : A → string) (r : ValidationResult) (xs : list A) :
  foldl (λ r x, add_error r (f x)) r xs = foldl add_error r (f <$> xs).
Proof. revert r. induction xs as [|x xs IH]; intros r; simpl; [done | apply IH]. Qed.

Lemma details_foldl_add_error (r : ValidationResult) (messages : list string) :
  details (foldl add_error r messages) = details r
  ∧ warnings (foldl add_error r messages) = warnings r.
Proof.
  revert r. induction messages as [|m ms IH]; intros r; simpl; [done|].
  destruct (IH (add_error r m)) as [-> ->]. done.
Qed.

(** What [process_missing_characters] returns once the download succeeded. *)
Lemma process_missing_characters_hashed E (domain : string)
    (char_to_filenames : pydict (list string)) w (config : DomainConfig) :
  char_to_filenames ≠ [] →
  get_domain_config E domain = Some config →
  success (download_images_sync E domain (download_list char_to_filenames) w).1 = true →
  let w1 := (download_images_sync E domain (download_list char_to_filenames) w).2 in
  let hashed := hash_characters E domain char_to_filenames [] [] w1 in
  let run := process_missing_characters E domain char_to_filenames w in
  run.2 = hashed.2
  ∧ success run.1 = bool_decide (hashed.1.2 = [])
  ∧ errors run.1 = (λ c, "Failed to create hash for character: " +:+ c) <$> hashed.1.2
  ∧ hash_results_of run.1 = hashed.1.1.
Proof.
  intros Hne Hconfig Hok. cbv zeta. unfold process_missing_characters.
  rewrite bool_decide_eq_false_2 by done. rewrite Hconfig.
  destruct (download_images_sync E domain (download_list char_to_filenames) w)
    as [download_result w1].
  cbn [fst snd] in *. rewrite Hok. cbn [negb].
  destruct (hash_characters E domain char_to_filenames [] [] w1)
    as [[hash_results failed_hashes] w2].
  cbn [fst snd]. split; [done|].
  rewrite foldl_add_error_map.
  assert (Hw : ∀ r0 : ValidationResult,
            success (if bool_decide (Z.of_nat (length failed_hashes) > 0)
                     then add_warning r0 ("Failed to create hashes for "
                            +:+ pretty (Z.of_nat (length failed_hashes)) +:+ " characters")
                     else r0) = success r0
            ∧ errors (if bool_decide (Z.of_nat (length failed_hashes) > 0)
                     then add_warning r0 ("Failed to create hashes for "
                            +:+ pretty (Z.of_nat (length failed_hashes)) +:+ " characters")
                     else r0) = errors r0
            ∧ details (if bool_decide (Z.of_nat (length failed_hashes) > 0)
                     then add_warning r0 ("Failed to create hashes for "
                            +:+ pretty (Z.of_nat (length failed_hashes)) +:+ " characters")
                     else r0) = details r0).
  { intros r0. by case_bool_decide. }
  unfold hash_results_of.
  cbn [success errors details set_details].
  match goal with |- context [foldl add_error ?r0 ?ms] =>
    destruct (Hw (foldl add_error r0 ms)) as (-> & -> & ->);
    rewrite success_foldl_add_error, errors_foldl_add_error;
    rewrite (proj1 (details_foldl_add_error r0 ms))
  end.
  cbn [success errors details set_details set_counts new_result app].
  split; [|split; [done|]].
  - destruct failed_hashes as [|c cs]; [done|].
    cbn [fmap list_fmap]. rewrite (bool_decide_eq_false_2 (_ :: _ = [])) by done.
    by rewrite bool_decide_eq_false_2 by done.
  - reflexivity.
Qed.

End ProcessResult.

(** X17: when every character has at least one candidate file name,
    [process_missing_characters] is successful exactly when the download of
    the candidates is: after a successful download every character has an
    image, so none is recorded as failed. *)
Theorem process_success_is_download_success (E : env) (domain : string)
    (char_to_filenames : pydict (list string)) (w : world) :
  (∀ character filenames, (character, filenames) ∈ char_to_filenames → filenames ≠ []) →
  success (SyncProcessor.process_missing_characters E domain char_to_filenames w).1
  = success (ImageDownloader.download_images_sync E domain
               (SyncProcessor.download_list char_to_filenames) w).1.
Proof.
  intros Hlists.
  destruct (decide (char_to_filenames = [])) as [->|Hne]; [done|].
  destruct (success (ImageDownloader.download_images_sync E domain
                       (SyncProcessor.download_list char_to_filenames) w).1) eqn:Hok.
  - destruct (get_domain_config E domain) as [config|] eqn:Hconfig.
    + destruct (process_missing_characters_hashed E domain char_to_filenames w config
                  Hne Hconfig Hok) as (_ & -> & _).
      apply bool_decide_eq_true_2.
      destruct (hash_characters_run E domain char_to_filenames [] []
                  (ImageDownloader.download_images_sync E domain
                     (SyncProcessor.download_list char_to_filenames) w).2)
        as (_ & -> & _).
      simpl.
      destruct (filter _ char_to_filenames) as [|[c fs] rest] eqn:Hfilter; [done|].
      exfalso.
      assert (Hin : (c, fs) ∈ filter (λ item : string * list string,
                Forall (λ f, ImageDownloader.get_downloaded_image_path E domain f
                               (ImageDownloader.download_images_sync E domain
                                  (SyncProcessor.download_list char_to_filenames) w).2
                             = None) item.2) char_to_filenames)
        by (rewrite Hfilter; left).
      apply list_elem_of_filter in Hin as [Hnone Hin]. simpl in Hnone.
      destruct fs as [|f fs]; [by apply (Hlists c [] Hin)|].
      apply Forall_cons in Hnone as [Hnone _].
      assert (Hf : f ∈ SyncProcessor.download_list char_to_filenames).
      { unfold SyncProcessor.download_list. rewrite collect_filenames_join.
        apply (remove_duplicates_first_seen _). apply list_elem_of_join.
        exists (f :: fs). split; [left|]. apply list_elem_of_fmap. by exists (c, f :: fs). }
      pose proof (download_sync_success_cache E domain _ w f Hok Hf) as Hsome.
      unfold ImageDownloader.get_downloaded_image_path in Hnone.
      by rewrite bool_decide_eq_true_2 in Hnone.
    + exfalso. unfold ImageDownloader.download_images_sync,
        ImageDownloader.download_images_batch_async in Hok.
      rewrite Hconfig in Hok. case_bool_decide as Hempty; [|done].
      destruct char_to_filenames as [|[c fs] rest]; [done|].
      destruct fs as [|f fs]; [apply (Hlists c []); [left | done]|].
      assert (Hf : f ∈ SyncProcessor.download_list ((c, f :: fs) :: rest)).
      { unfold SyncProcessor.download_list. rewrite collect_filenames_join.
        apply (remove_duplicates_first_seen _). simpl. left. }
      rewrite Hempty in Hf. by apply elem_of_nil in Hf.
  - unfold SyncProcessor.process_missing_characters.
    rewrite bool_decide_eq_false_2 by done.
    destruct (get_domain_config E domain) as [config|] eqn:Hconfig; [|done].
    destruct (ImageDownloader.download_images_sync E domain
                (SyncProcessor.download_list char_to_filenames) w)
      as [download_result w1].
    simpl in Hok. by rewrite Hok.
Qed.

Lemma process_success_is_download_success_witness :
  success (SyncProcessor.process_missing_characters Example.example_env "example.com"
             [("雨", ["a.png"]); ("云", ["c.png"])] (Example.world_of [] [])).1
  = success (ImageDownloader.download_images_sync Example.example_env "example.com"
               (SyncProcessor.download_list [("雨", ["a.png"]); ("云", ["c.png"])])
               (Example.world_of [] [])).1.
Proof.
  apply (process_success_is_download_success Example.example_env "example.com"
           [("雨", ["a.png"]); ("云", ["c.png"])] (Example.world_of [] [])).
  intros character filenames Hin.
  apply elem_of_cons in Hin as [[= -> ->]|Hin]; [done|].
  apply elem_of_cons in Hin as [[= -> ->]|Hin]; [done|].
  by apply elem_of_nil in Hin.
Defined.

(** ** What a merge stores and what it leaves alone *)

(** X18: after a successful [update_hash_mapping] whose file could be written,
    every entry of the batch is in the stored mapping. *)
Theorem update_hash_mapping_stores_batch (E : env) (hash_file : string)
    (new_hashes : pydict string) (w w' : world) (r : ValidationResult)
    (hash_value character : string) :
  SyncProcessor.update_hash_mapping E hash_file new_hashes w = (r, w') →
  success r = true →
  can_write E hash_file = true →
  NoDup new_hashes.*1 →
  (hash_value, character) ∈ new_hashes →
  dict_get (stored_mapping hash_file w') hash_value = Some character.
Proof.
  intros Hrun Hok Hwrite Hkeys Hin.
  assert (Hne : new_hashes ≠ []) by (intros ->; by apply elem_of_nil in Hin).
  rewrite update_hash_mapping_nonempty in Hrun by done. cbv zeta in Hrun.
  case_bool_decide as Hconf.
  { injection Hrun as <- <-. rewrite success_foldl_add_error in Hok.
    by rewrite bool_decide_eq_false_2 in Hok. }
  injection Hrun as <- <-. rewrite stored_mapping_after_write, Hwrite.
  rewrite dict_get_update.
  rewrite (dict_get_NoDup (reverse new_hashes) hash_value character); [done| |].
  - by rewrite fmap_reverse, reverse_Permutation.
  - by apply elem_of_reverse.
Qed.

Lemma update_hash_mapping_stores_batch_witness :
  dict_get
    (stored_mapping Example.hash_file
       (SyncProcessor.update_hash_mapping Example.example_env Example.hash_file
          [(Example.zeros, "云")] (Example.world_of [] [(Example.ones, "雨")])).2)
    Example.zeros = Some "云".
Proof.
  refine (update_hash_mapping_stores_batch Example.example_env Example.hash_file
            [(Example.zeros, "云")] (Example.world_of [] [(Example.ones, "雨")])
            _ _ Example.zeros "云" (surjective_pairing _) _ _ _ _).
  - vm_compute. reflexivity.
  - reflexivity.
  - apply NoDup_singleton.
  - apply list_elem_of_here.
Defined.

(** X19: the result of [write_json_file] is not looked at: when the file
    cannot be written, a batch without conflict is still reported as merged
    (success, no error), while every mapping file stays as it was. *)
Theorem update_hash_mapping_write_refused (E : env) (hash_file : string)
    (new_hashes : pydict string) (w w' : world) (r : ValidationResult) :
  SyncProcessor.update_hash_mapping E hash_file new_hashes w = (r, w') →
  (∀ entry, entry ∈ new_hashes → ¬ conflicting (stored_mapping hash_file w) entry) →
  can_write E hash_file = false →
  success r = true ∧ errors r = [] ∧ w_json w' = w_json w.
Proof.
  intros Hrun Hfree Hwrite. destruct (decide (new_hashes = [])) as [->|Hne].
  { by injection Hrun as <- <-. }
  rewrite update_hash_mapping_nonempty in Hrun by done. cbv zeta in Hrun.
  apply find_conflicts_nil in Hfree.
  rewrite bool_decide_eq_false_2 in Hrun by (intros Hc; by apply Hc).
  injection Hrun as <- <-. split; [done|]. split; [done|].
  unfold write_json_file. rewrite Hwrite. apply w_json_after_read.
Qed.

Lemma update_hash_mapping_write_refused_witness :
  let E := {| pil := Example.raw_pil; temp_dir := "temp"; DOMAIN_CONFIGS := ∅;
              http_download := λ _ _, inr "offline"; can_write := λ _, false;
              unicode_isalnum := λ _, false |} in
  success (SyncProcessor.update_hash_mapping E Example.hash_file
             [(Example.zeros, "云")] (Example.world_of [] [])).1 = true.
Proof.
  cbv zeta.
  refine (proj1 (update_hash_mapping_write_refused _ Example.hash_file
                   [(Example.zeros, "云")] (Example.world_of [] []) _ _
                   (surjective_pairing _) _ _)).
  - intros entry Hin (e & He & _). apply list_elem_of_singleton in Hin. subst entry.
    vm_compute in He. discriminate.
  - reflexivity.
Defined.

Section Frame.
Import ImageDownloader SyncProcessor.
Implicit Types (E : env) (w : world).

Lemma update_hash_mapping_frame E (hash_file : string) (new_hashes : pydict string) w :
  w_cache (update_hash_mapping E hash_file new_hashes w).2 = w_cache w
  ∧ ∀ path, path ≠ hash_file →
      w_json (update_hash_mapping E hash_file new_hashes w).2 !! path = w_json w !! path.
Proof.
  destruct (decide (new_hashes = [])) as [->|Hne]; [done|].
  rewrite update_hash_mapping_nonempty by done. cbv zeta.
  assert (Hread : w_cache (if json_exists hash_file w
                           then log (EvReadJson hash_file) w else w) = w_cache w)
    by (by destruct (json_exists hash_file w)).
  case_bool_decide; cbn [snd].
  - split; [done|]. intros path _. by rewrite w_json_after_read.
  - unfold write_json_file. destruct (can_write E hash_file); cbn [snd].
    + split; [done|]. intros path Hpath. simpl.
      by rewrite lookup_insert_ne, w_json_after_read.
    + split; [done|]. intros path _. by rewrite w_json_after_read.
Qed.

Lemma mapping_paths_differ (mappings_dir domain other : string) :
  filename_mapping_path mappings_dir other ≠ hash_mapping_path mappings_dir domain.
Proof.
  unfold filename_mapping_path, hash_mapping_path. intros Heq.
  apply append_inj_l in Heq. discriminate.
Qed.

(** [sync_domain], written out over the mappings the two files hold. *)
Lemma sync_domain_eq E (domain mappings_dir : string) w :
  let filename_mapping := stored_mapping (filename_mapping_path mappings_dir domain) w in
  let hash_mapping := stored_mapping (hash_mapping_path mappings_dir domain) w in
  let w1 := (load_mappings domain mappings_dir w).2 in
  let missing := find_missing_hashes filename_mapping hash_mapping in
  let run := process_missing_characters E domain
               (get_filenames_for_characters filename_mapping missing) w1 in
  let new_hashes := hash_results_of run.1 in
  let updated := update_hash_mapping E (hash_mapping_path mappings_dir domain)
                   new_hashes run.2 in
  let final := final_result domain missing filename_mapping hash_mapping new_hashes run.1 in
  sync_domain E domain mappings_dir w
  = if bool_decide (missing = ∅) then
      (set_details (new_result true)
         [("domain", DStr domain);
          ("message", DStr "All characters from filename mapping exist in hash mapping");
          ("filename_entries", DInt (dict_len filename_mapping));
          ("hash_entries", DInt (dict_len hash_mapping))], w1)
    else if negb (success run.1) then run
    else if bool_decide (new_hashes ≠ []) then
      if negb (success updated.1) then updated else (final, updated.2)
    else (final, run.2).
Proof.
  cbv zeta. unfold sync_domain. rewrite load_mappings_eq. cbv zeta. cbn [snd].
  case_bool_decide; [done|].
  destruct (process_missing_characters E domain _ _) as [process_result w2].
  cbn [fst snd]. destruct (success process_result); cbn [negb]; [|done].
  case_bool_decide; [|done].
  destruct (update_hash_mapping E _ _ w2) as [update_result w3]. cbn [fst snd].
  by destruct (success update_result).
Qed.

End Frame.

(** ** The runs of [sync_domain] *)

Section SyncFlow.
Import ImageDownloader SyncProcessor.
Implicit Types (E : env) (w : world).

Lemma dict_get_is_Some {V} (d : pydict V) (k : string) :
  is_Some (dict_get d k) ↔ k ∈ d.*1.
Proof.
  rewrite <- not_eq_None_Some, dict_get_None. split; [apply dec_stable | auto].
Qed.

Lemma candidates_keys (filename_mapping : pydict string) (characters : gset string)
    (c : string) :
  c ∈ (get_filenames_for_characters filename_mapping characters).*1
  ↔ c ∈ characters ∧ c ∈ dict_values filename_mapping.
Proof.
  rewrite <- dict_get_is_Some. unfold get_filenames_for_characters.
  rewrite add_filenames_lists.
  destruct (decide (c ∈ characters ∧ c ∈ dict_values filename_mapping)) as [Hc|Hc].
  - rewrite bool_decide_eq_true_2 by done. split; [done | by eexists].
  - rewrite bool_decide_eq_false_2 by done. simpl. split; [by intros [? [=]] | done].
Qed.

Lemma elem_of_find_missing_hashes (filename_mapping hash_mapping : pydict string)
    (c : string) :
  c ∈ find_missing_hashes filename_mapping hash_mapping
  ↔ c ∈ dict_values filename_mapping ∧ c ∉ dict_values hash_mapping.
Proof.
  unfold find_missing_hashes. by rewrite elem_of_difference, !elem_of_list_to_set.
Qed.

(** The candidates of the missing characters: one list per missing character. *)
Lemma candidates_of_missing (filename_mapping hash_mapping : pydict string) (c : string) :
  c ∈ (get_filenames_for_characters filename_mapping
         (find_missing_hashes filename_mapping hash_mapping)).*1
  ↔ c ∈ find_missing_hashes filename_mapping hash_mapping.
Proof.
  rewrite candidates_keys, elem_of_find_missing_hashes. tauto.
Qed.

(** A batch download succeeds exactly when it records no error, and it never
    removes a file of the cache. *)
Lemma download_sync_result E (domain : string) (filenames : list string) w :
  (success (download_images_sync E domain filenames w).1 = true
   ↔ errors (download_images_sync E domain filenames w).1 = [])
  ∧ ∀ path, is_Some (w_cache w !! path) →
            is_Some (w_cache (download_images_sync E domain filenames w).2 !! path).
Proof.
  unfold download_images_sync, download_images_batch_async.
  case_bool_decide; [done|].
  destruct (get_domain_config E domain) as [config|]; [|done].
  pose proof (download_all_steps E config domain filenames [] [] reset_stats w) as Hall.
  cbv zeta in Hall.
  destruct (download_all E config domain filenames [] [] reset_stats w)
    as [[[sd fd] st] w1].
  cbn [fst snd] in *. destruct Hall as (Hkeep & _ & Hle & _ & Herr & _).
  split; [|done]. simpl in Hle, Herr.
  destruct (decide (failed st = 0)) as [H0|Hn0].
  - rewrite (bool_decide_eq_true_2 (failed st = 0)) by done. cbn [negb].
    assert (stat_errors st = []) as -> by (apply length_zero_iff_nil; lia).
    done.
  - rewrite (bool_decide_eq_false_2 (failed st = 0)) by done. cbn [negb].
    unfold add_warning. cbn [success errors].
    rewrite success_foldl_add_error, errors_foldl_add_error.
    destruct (stat_errors st) as [|e es]; [simpl in Herr; lia|].
    simpl. split; [discriminate | done].
Qed.

(** [process_missing_characters] succeeds exactly when it records no error,
    and it never removes a file of the cache. *)
Lemma process_missing_characters_result E (domain : string)
    (char_to_filenames : pydict (list string)) w :
  (success (process_missing_characters E domain char_to_filenames w).1 = true
   ↔ errors (process_missing_characters E domain char_to_filenames w).1 = [])
  ∧ ∀ path, is_Some (w_cache w !! path) →
            is_Some (w_cache (process_missing_characters E domain char_to_filenames w).2
                     !! path).
Proof.
  destruct (decide (char_to_filenames = [])) as [->|Hne]; [done|].
  destruct (get_domain_config E domain) as [config|] eqn:Hconfig.
  2:{ unfold process_missing_characters. rewrite bool_decide_eq_false_2 by done.
      rewrite Hconfig. done. }
  destruct (download_sync_result E domain (download_list char_to_filenames) w)
    as [Hiff Hkeep].
  destruct (success (download_images_sync E domain (download_list char_to_filenames) w).1)
    eqn:Hok.
  - destruct (process_missing_characters_hashed E domain char_to_filenames w config
                Hne Hconfig Hok) as (-> & -> & -> & _).
    destruct (hash_characters_run E domain char_to_filenames [] []
                (download_images_sync E domain (download_list char_to_filenames) w).2)
      as (-> & _). split; [|done].
    by destruct (hash_characters E domain char_to_filenames [] [] _).1.2.
  - unfold process_missing_characters. rewrite bool_decide_eq_false_2 by done.
    rewrite Hconfig.
    destruct (download_images_sync E domain (download_list char_to_filenames) w)
      as [download_result w1].
    cbn [fst snd] in *. rewrite Hok. cbn [negb fst snd]. rewrite Hok. done.
Qed.

(** A successful [process_missing_characters] on candidates that are not empty
    went through a successful download. *)
Lemma process_missing_characters_success E (domain : string)
    (char_to_filenames : pydict (list string)) w :
  char_to_filenames ≠ [] →
  success (process_missing_characters E domain char_to_filenames w).1 = true →
  ∃ config, get_domain_config E domain = Some config
    ∧ success (download_images_sync E domain (download_list char_to_filenames) w).1 = true.
Proof.
  intros Hne Hok. unfold process_missing_characters in Hok.
  rewrite bool_decide_eq_false_2 in Hok by done.
  destruct (get_domain_config E domain) as [config|]; [|done].
  exists config. split; [done|].
  destruct (download_images_sync E domain (download_list char_to_filenames) w)
    as [download_result w1].
  cbn [fst snd] in *. destruct (success download_result) eqn:Hd; [done|].
  cbn [negb fst] in Hok. congruence.
Qed.

(** The hashes a successful processing of the missing characters hands to the
    merge: distinct hashes, each for a character of its own that was missing. *)
Lemma sync_domain_new_hashes E (domain : string)
    (filename_mapping hash_mapping : pydict string) w :
  let missing := find_missing_hashes filename_mapping hash_mapping in
  let run := process_missing_characters E domain
               (get_filenames_for_characters filename_mapping missing) w in
  success run.1 = true →
  NoDup (hash_results_of run.1).*1
  ∧ NoDup (hash_results_of run.1).*2
  ∧ ∀ c, c ∈ (hash_results_of run.1).*2 → c ∈ missing.
Proof.
  cbv zeta. intros Hok.
  destruct (decide (get_filenames_for_characters filename_mapping
                      (find_missing_hashes filename_mapping hash_mapping) = []))
    as [Hnil|Hne].
  { rewrite Hnil. cbn. split; [constructor|]. split; [constructor|].
    intros c Hc. by apply elem_of_nil in Hc. }
  destruct (process_missing_characters_success E domain _ w Hne Hok)
    as (config & Hconfig & Hdown).
  destruct (process_missing_characters_hashed E domain _ w config Hne Hconfig Hdown)
    as (_ & _ & _ & ->).
  match goal with |- context [hash_characters E domain ?items [] [] ?w1] =>
    destruct (hash_characters_run E domain items [] [] w1) as (_ & _ & Hkeys & Hvalues)
  end.
  split; [apply Hkeys; constructor|].
  destruct Hvalues as [Hnd Hsub].
  - apply get_filenames_for_characters_NoDup.
  - constructor.
  - intros c Hc. by apply elem_of_nil in Hc.
  - split; [done|]. intros c Hc. destruct (Hsub c Hc) as [Hin|Hin].
    + by apply elem_of_nil in Hin.
    + by apply candidates_of_missing.
Qed.

End SyncFlow.

Section SyncRuns.
Import ImageDownloader SyncProcessor.
Implicit Types (E : env) (w : world).

Lemma stored_mapping_json (path : string) w w' :
  w_json w' = w_json w → stored_mapping path w' = stored_mapping path w.
Proof. unfold stored_mapping. by intros ->. Qed.

Lemma load_mappings_json (domain mappings_dir : string) w :
  w_json (load_mappings domain mappings_dir w).2 = w_json w
  ∧ w_cache (load_mappings domain mappings_dir w).2 = w_cache w.
Proof.
  destruct (load_mappings domain mappings_dir w) as [[fm hm] w1] eqn:Hload.
  by destruct (load_mappings_frame _ _ _ _ _ _ Hload) as (_ & _ & ? & ? & _).
Qed.

(** The hashes of missing characters are new keys whenever none conflicts. *)
Lemma new_hashes_fresh (filename_mapping hash_mapping new_hashes : pydict string) :
  (∀ c, c ∈ new_hashes.*2 → c ∈ find_missing_hashes filename_mapping hash_mapping) →
  find_conflicts hash_mapping new_hashes = [] →
  ∀ h, h ∈ new_hashes.*1 → h ∉ hash_mapping.*1.
Proof.
  intros Hsub Hfree h Hh Hin.
  apply list_elem_of_fmap in Hh as ([h' c] & -> & Hentry). simpl in Hin.
  apply dict_get_is_Some in Hin as [c' Hc'].
  assert (Hc : c ∈ find_missing_hashes filename_mapping hash_mapping).
  { apply Hsub, list_elem_of_fmap. by exists (h', c). }
  apply elem_of_find_missing_hashes in Hc as [_ Hout].
  destruct (decide (c' = c)) as [->|Hne].
  - apply Hout. apply dict_get_elem in Hc'. unfold dict_values.
    apply list_elem_of_fmap. by exists (h', c).
  - apply (proj1 (find_conflicts_nil _ _) Hfree (h', c) Hentry).
    exists c'. by split.
Qed.

(** What a successful [sync_domain] has done. *)
Lemma sync_domain_success_shape E (domain mappings_dir : string) w :
  success (sync_domain E domain mappings_dir w).1 = true →
  ∃ new_hashes : pydict string,
    NoDup new_hashes.*1 ∧ NoDup new_hashes.*2
    ∧ (∀ c, c ∈ new_hashes.*2 →
         c ∈ find_missing_hashes
               (stored_mapping (filename_mapping_path mappings_dir domain) w)
               (stored_mapping (hash_mapping_path mappings_dir domain) w))
    ∧ (∀ h, h ∈ new_hashes.*1 →
         h ∉ (stored_mapping (hash_mapping_path mappings_dir domain) w).*1)
    ∧ processed_files (sync_domain E domain mappings_dir w).1 = dict_len new_hashes
    ∧ (warnings (sync_domain E domain mappings_dir w).1 = [] →
         (size (find_missing_hashes
                  (stored_mapping (filename_mapping_path mappings_dir domain) w)
                  (stored_mapping (hash_mapping_path mappings_dir domain) w))
          ≤ length new_hashes)%nat)
    ∧ stored_mapping (hash_mapping_path mappings_dir domain)
        (sync_domain E domain mappings_dir w).2
      = if can_write E (hash_mapping_path mappings_dir domain)
        then stored_mapping (hash_mapping_path mappings_dir domain) w ++ new_hashes
        else stored_mapping (hash_mapping_path mappings_dir domain) w.
Proof.
  rewrite sync_domain_eq. cbv zeta.
  destruct (load_mappings_json domain mappings_dir w) as [Hjson1 _].
  set (fm := stored_mapping (filename_mapping_path mappings_dir domain) w).
  set (hm := stored_mapping (hash_mapping_path mappings_dir domain) w).
  set (w1 := (load_mappings domain mappings_dir w).2) in *.
  set (missing := find_missing_hashes fm hm).
  set (run := process_missing_characters E domain
                (get_filenames_for_characters fm missing) w1).
  pose proof (process_missing_characters_io E domain
                (get_filenames_for_characters fm missing) w1) as [Hjson2 _].
  fold run in Hjson2.
  assert (Hfinal : ∀ w2,
    w_json w2 = w_json w →
    success run.1 = true →
    hash_results_of run.1 = [] →
    ∃ new_hashes : pydict string,
      NoDup new_hashes.*1 ∧ NoDup new_hashes.*2
      ∧ (∀ c, c ∈ new_hashes.*2 → c ∈ missing)
      ∧ (∀ h, h ∈ new_hashes.*1 → h ∉ hm.*1)
      ∧ processed_files (final_result domain missing fm hm (hash_results_of run.1) run.1)
        = dict_len new_hashes
      ∧ (warnings (final_result domain missing fm hm (hash_results_of run.1) run.1) = [] →
           (size missing ≤ length new_hashes)%nat)
      ∧ stored_mapping (hash_mapping_path mappings_dir domain) w2
        = if can_write E (hash_mapping_path mappings_dir domain)
          then hm ++ new_hashes else hm).
  { intros w2 Hw2 Hrun Hnil. exists []. rewrite Hnil.
    split; [constructor|]. split; [constructor|].
    split; [intros c Hc; by apply elem_of_nil in Hc|].
    split; [intros h Hh; by apply elem_of_nil in Hh|].
    split; [unfold final_result; by case_bool_decide|].
    split.
    - unfold final_result. case_bool_decide as Hlt; [done|].
      intros _. unfold dict_len in Hlt. simpl in *. lia.
    - rewrite (stored_mapping_json _ _ _ Hw2), app_nil_r. by destruct (can_write E _). }
  case_bool_decide as Hmiss.
  - intros _. exists []. cbn [fst snd].
    split; [constructor|]. split; [constructor|].
    split; [intros c Hc; by apply elem_of_nil in Hc|].
    split; [intros h Hh; by apply elem_of_nil in Hh|].
    split; [done|]. split.
    + intros _. rewrite Hmiss, size_empty. simpl. lia.
    + rewrite (stored_mapping_json _ _ _ Hjson1), app_nil_r. by destruct (can_write E _).
  - destruct (success run.1) eqn:Hrun; cbn [negb]; [|by rewrite Hrun].
    destruct (sync_domain_new_hashes E domain fm hm w1 Hrun) as (Hkeys & Hvalues & Hsub).
    fold missing run in Hkeys, Hvalues, Hsub.
    destruct (decide (hash_results_of run.1 = [])) as [Hnil|Hnew].
    { rewrite bool_decide_eq_false_2 by (intros Hne; by apply Hne).
      cbn [fst snd]. intros _. apply Hfinal; [congruence | done | done]. }
    rewrite bool_decide_eq_true_2 by done.
    rewrite update_hash_mapping_nonempty by done. cbv zeta.
    rewrite (stored_mapping_json _ w run.2) by congruence. fold hm.
    destruct (decide (find_conflicts hm (hash_results_of run.1) = [])) as [Hfree|Hconf].
    2:{ rewrite (bool_decide_eq_true_2 (find_conflicts hm (hash_results_of run.1) ≠ []))
          by done.
        cbn [fst snd]. rewrite success_foldl_add_error.
        rewrite (bool_decide_eq_false_2 (find_conflicts hm (hash_results_of run.1) = []))
          by done.
        cbn [negb fst]. rewrite success_foldl_add_error.
        by rewrite (bool_decide_eq_false_2 (find_conflicts hm (hash_results_of run.1) = [])). }
    rewrite Hfree. rewrite (bool_decide_eq_false_2 ([] ≠ [])) by (intros Hne; by apply Hne).
    cbn [fst snd success set_details set_counts new_result negb].
    intros _. exists (hash_results_of run.1).
    pose proof (new_hashes_fresh fm hm _ Hsub Hfree) as Hfresh.
    split; [done|]. split; [done|]. split; [done|]. split; [done|].
    split; [unfold final_result; by case_bool_decide|].
    split.
    + unfold final_result. case_bool_decide as Hlt; [done|].
      intros _. unfold dict_len in Hlt. lia.
    + rewrite stored_mapping_after_write.
      destruct (can_write E _).
      * by apply dict_update_new.
      * apply stored_mapping_json. rewrite w_json_after_read. congruence.
Qed.

End SyncRuns.

Section SyncWorlds.
Import ImageDownloader SyncProcessor.
Implicit Types (E : env) (w : world).

Lemma update_hash_mapping_keeps E (hash_file : string) (new_hashes : pydict string) w
    (path : string) :
  is_Some (w_json w !! path) →
  is_Some (w_json (update_hash_mapping E hash_file new_hashes w).2 !! path).
Proof.
  intros Hsome. destruct (decide (path = hash_file)) as [->|Hne].
  - destruct (decide (new_hashes = [])) as [->|Hnew]; [done|].
    rewrite update_hash_mapping_nonempty by done. cbv zeta.
    case_bool_decide; cbn [snd].
    + by rewrite w_json_after_read.
    + unfold write_json_file. destruct (can_write E hash_file); cbn [snd].
      * simpl. by rewrite lookup_insert_eq.
      * by rewrite w_json_after_read.
  - by rewrite (proj2 (update_hash_mapping_frame E hash_file new_hashes w) path Hne).
Qed.

Lemma update_hash_mapping_result E (hash_file : string) (new_hashes : pydict string) w :
  success (update_hash_mapping E hash_file new_hashes w).1 = true
  ↔ errors (update_hash_mapping E hash_file new_hashes w).1 = [].
Proof.
  destruct (decide (new_hashes = [])) as [->|Hnew]; [done|].
  rewrite update_hash_mapping_nonempty by done. cbv zeta.
  destruct (find_conflicts (stored_mapping hash_file w) new_hashes) as [|m ms] eqn:Hc.
  - by rewrite (bool_decide_eq_false_2 ([] ≠ [])) by (intros Hne; by apply Hne).
  - rewrite (bool_decide_eq_true_2 (m :: ms ≠ [])) by done. cbn [fst].
    rewrite success_foldl_add_error, errors_foldl_add_error.
    by rewrite bool_decide_eq_false_2.
Qed.

(** The three worlds a run of [sync_domain] can end in, against the world it
    started from. *)
Lemma sync_domain_worlds E (domain mappings_dir : string) w (path : string) :
  (path ≠ hash_mapping_path mappings_dir domain →
     w_json (sync_domain E domain mappings_dir w).2 !! path = w_json w !! path)
  ∧ (is_Some (w_json w !! path) →
     is_Some (w_json (sync_domain E domain mappings_dir w).2 !! path))
  ∧ (is_Some (w_cache w !! path) →
     is_Some (w_cache (sync_domain E domain mappings_dir w).2 !! path)).
Proof.
  rewrite sync_domain_eq. cbv zeta.
  destruct (load_mappings_json domain mappings_dir w) as [Hj1 Hc1].
  set (fm := stored_mapping (filename_mapping_path mappings_dir domain) w).
  set (hm := stored_mapping (hash_mapping_path mappings_dir domain) w).
  set (w1 := (load_mappings domain mappings_dir w).2) in *.
  set (missing := find_missing_hashes fm hm).
  pose proof (process_missing_characters_io E domain
                (get_filenames_for_characters fm missing) w1) as [Hj2 _].
  pose proof (process_missing_characters_result E domain
                (get_filenames_for_characters fm missing) w1) as [_ Hc2].
  set (run := process_missing_characters E domain
                (get_filenames_for_characters fm missing) w1) in *.
  destruct (update_hash_mapping_frame E (hash_mapping_path mappings_dir domain)
              (hash_results_of run.1) run.2) as [Hc3 Hj3].
  pose proof (update_hash_mapping_keeps E (hash_mapping_path mappings_dir domain)
                (hash_results_of run.1) run.2 path) as Hk3.
  set (updated := update_hash_mapping E (hash_mapping_path mappings_dir domain)
                    (hash_results_of run.1) run.2) in *.
  set (P := λ w' : world,
         (path ≠ hash_mapping_path mappings_dir domain →
            w_json w' !! path = w_json w !! path)
         ∧ (is_Some (w_json w !! path) → is_Some (w_json w' !! path))
         ∧ (is_Some (w_cache w !! path) → is_Some (w_cache w' !! path))).
  assert (H1 : P w1).
  { unfold P. rewrite Hj1, Hc1. done. }
  assert (H2 : P run.2).
  { unfold P. rewrite Hj2, Hj1. split; [done|]. split; [done|].
    intros Hsome. apply Hc2. by rewrite Hc1. }
  assert (H3 : P updated.2).
  { unfold P. split; [|split].
    - intros Hne. by rewrite Hj3, Hj2, Hj1.
    - intros Hsome. apply Hk3. by rewrite Hj2, Hj1.
    - intros Hsome. rewrite Hc3. apply Hc2. by rewrite Hc1. }
  case_bool_decide; [exact H1|].
  destruct (success run.1); cbn [negb]; [|exact H2].
  case_bool_decide; [|exact H2].
  destruct (success updated.1); cbn [negb snd]; exact H3.
Qed.

Lemma sync_domain_result E (domain mappings_dir : string) w :
  success (sync_domain E domain mappings_dir w).1 = true
  ↔ errors (sync_domain E domain mappings_dir w).1 = [].
Proof.
  rewrite sync_domain_eq. cbv zeta.
  set (fm := stored_mapping (filename_mapping_path mappings_dir domain) w).
  set (hm := stored_mapping (hash_mapping_path mappings_dir domain) w).
  set (w1 := (load_mappings domain mappings_dir w).2).
  set (missing := find_missing_hashes fm hm).
  pose proof (process_missing_characters_result E domain
                (get_filenames_for_characters fm missing) w1) as [Hrun _].
  set (run := process_missing_characters E domain
                (get_filenames_for_characters fm missing) w1) in *.
  pose proof (update_hash_mapping_result E (hash_mapping_path mappings_dir domain)
                (hash_results_of run.1) run.2) as Hupd.
  set (updated := update_hash_mapping E (hash_mapping_path mappings_dir domain)
                    (hash_results_of run.1) run.2) in *.
  assert (Hfinal : success (final_result domain missing fm hm (hash_results_of run.1) run.1)
                   = true
                   ∧ errors (final_result domain missing fm hm (hash_results_of run.1) run.1)
                     = []).
  { unfold final_result. by case_bool_decide. }
  destruct Hfinal as [Hfs Hfe].
  case_bool_decide; [done|].
  destruct (success run.1) eqn:Hs; cbn [negb].
  2:{ by rewrite <- Hrun, Hs. }
  case_bool_decide.
  - destruct (success updated.1) eqn:Hu; cbn [negb fst].
    + by rewrite Hfs, Hfe.
    + by rewrite <- Hupd, Hu.
  - cbn [fst]. by rewrite Hfs, Hfe.
Qed.

End SyncWorlds.

(** ** What a run of [sync_domain] changes *)

(** X20: a run of [sync_domain] changes no mapping file but the hash mapping
    of its own domain, deletes no mapping file and removes nothing from the
    image cache. *)
Theorem sync_domain_frame (E : env) (domain mappings_dir : string) (w : world)
    (path : string) :
  (path ≠ SyncProcessor.hash_mapping_path mappings_dir domain →
     w_json (SyncProcessor.sync_domain E domain mappings_dir w).2 !! path
     = w_json w !! path)
  ∧ (is_Some (w_json w !! path) →
     is_Some (w_json (SyncProcessor.sync_domain E domain mappings_dir w).2 !! path))
  ∧ (is_Some (w_cache w !! path) →
     is_Some (w_cache (SyncProcessor.sync_domain E domain mappings_dir w).2 !! path)).
Proof.
  destruct (sync_domain_worlds E domain mappings_dir w path) as (Hother & Hjson & Hcache).
  split; [|split].
  - intros Hne. by apply Hother.
  - intros [content Hc]. apply Hjson. by exists content.
  - intros [data Hd]. apply Hcache. by exists data.
Qed.

(** X21: [sync_domain] reports success exactly when its result carries no
    error: a failed run always names its reason, and a run that recorded an
    error never counts as successful. *)
Theorem sync_domain_success_iff_no_error (E : env) (domain mappings_dir : string)
    (w : world) :
  success (SyncProcessor.sync_domain E domain mappings_dir w).1 = true
  ↔ errors (SyncProcessor.sync_domain E domain mappings_dir w).1 = [].
Proof.
  split.
  - intros Hok. by apply sync_domain_result.
  - intros Hnone. by apply sync_domain_result.
Qed.

(** X22: a successful [sync_domain] whose hash-mapping file can be written
    only appends to the stored hash mapping: the entries it held stay in
    place, and the added entries have distinct hashes that were not stored
    before, for distinct characters of the filename mapping that had no hash;
    [processed_files] counts them. *)
Theorem sync_domain_appends (E : env) (domain mappings_dir : string) (w w' : world)
    (r : ValidationResult) :
  SyncProcessor.sync_domain E domain mappings_dir w = (r, w') →
  success r = true →
  can_write E (SyncProcessor.hash_mapping_path mappings_dir domain) = true →
  ∃ new_hashes : pydict string,
    stored_mapping (SyncProcessor.hash_mapping_path mappings_dir domain) w'
    = stored_mapping (SyncProcessor.hash_mapping_path mappings_dir domain) w ++ new_hashes
    ∧ processed_files r = SyncProcessor.dict_len new_hashes
    ∧ NoDup new_hashes.*1 ∧ NoDup new_hashes.*2
    ∧ ∀ hash_value character, (hash_value, character) ∈ new_hashes →
        (hash_value ∉ (stored_mapping
                         (SyncProcessor.hash_mapping_path mappings_dir domain) w).*1)
        ∧ (character ∈ dict_values
                         (stored_mapping
                            (SyncProcessor.filename_mapping_path mappings_dir domain) w))
        ∧ (character ∉ dict_values
                         (stored_mapping
                            (SyncProcessor.hash_mapping_path mappings_dir domain) w)).
Proof.
  intros Hrun Hok Hwrite.
  pose proof (sync_domain_success_shape E domain mappings_dir w) as Hshape.
  rewrite Hrun in Hshape. cbn [fst snd] in Hshape.
  destruct (Hshape Hok) as (new_hashes & Hkeys & Hvalues & Hsub & Hfresh & Hcount & _ & Hst).
  rewrite Hwrite in Hst. exists new_hashes.
  split; [done|]. split; [done|]. split; [done|]. split; [done|].
  intros hash_value character Hin. split.
  - apply Hfresh, list_elem_of_fmap. by exists (hash_value, character).
  - apply elem_of_find_missing_hashes, Hsub, list_elem_of_fmap.
    by exists (hash_value, character).
Qed.

Lemma sync_domain_appends_witness :
  let w := Example.world_of [("a.png", "雨"); ("c.png", "云")]
             [("0101010101010101010101010101010101010101010101010101010101010101", "晴")] in
  ∃ new_hashes : pydict string,
    stored_mapping (SyncProcessor.hash_mapping_path "." "example.com")
      (SyncProcessor.sync_domain Example.example_env "example.com" "." w).2
    = stored_mapping (SyncProcessor.hash_mapping_path "." "example.com") w ++ new_hashes.
Proof.
  cbv zeta.
  destruct (sync_domain_appends Example.example_env "example.com" "."
              (Example.world_of [("a.png", "雨"); ("c.png", "云")]
                 [("0101010101010101010101010101010101010101010101010101010101010101",
                   "晴")])
              _ _ (surjective_pairing _))
    as (new_hashes & Hst & _).
  - vm_compute. reflexivity.
  - reflexivity.
  - by exists new_hashes.
Defined.

(** Distinct values that all lie in a set no larger than their number are the
    whole set. *)
Lemma covers_missing (missing : gset string) (values : list string) :
  NoDup values → (∀ c, c ∈ values → c ∈ missing) →
  (size missing ≤ length values)%nat →
  ∀ c, c ∈ missing → c ∈ values.
Proof.
  intros Hnd Hsub Hlen c Hc.
  assert (Hperm : values ≡ₚ elements missing).
  { apply submseteq_length_Permutation; [|exact Hlen].
    apply NoDup_submseteq; [done|]. intros x Hx. apply elem_of_elements. auto. }
  rewrite Hperm. by apply elem_of_elements.
Qed.

(** Nothing is missing after a successful run without warning that could
    write the hash mapping. *)
Lemma sync_domain_complete_after (E : env) (domain mappings_dir : string) (w : world) :
  success (SyncProcessor.sync_domain E domain mappings_dir w).1 = true →
  warnings (SyncProcessor.sync_domain E domain mappings_dir w).1 = [] →
  can_write E (SyncProcessor.hash_mapping_path mappings_dir domain) = true →
  SyncProcessor.find_missing_hashes
    (stored_mapping (SyncProcessor.filename_mapping_path mappings_dir domain)
       (SyncProcessor.sync_domain E domain mappings_dir w).2)
    (stored_mapping (SyncProcessor.hash_mapping_path mappings_dir domain)
       (SyncProcessor.sync_domain E domain mappings_dir w).2) = ∅.
Proof.
  intros Hok Hwarn Hwrite.
  destruct (sync_domain_success_shape E domain mappings_dir w Hok)
    as (new_hashes & _ & Hvalues & Hsub & _ & _ & Hsize & Hst).
  destruct (sync_domain_worlds E domain mappings_dir w
              (SyncProcessor.filename_mapping_path mappings_dir domain)) as [Hfm _].
  rewrite Hwrite in Hst. rewrite Hst. unfold stored_mapping at 1.
  rewrite Hfm by apply mapping_paths_differ.
  fold (stored_mapping (SyncProcessor.filename_mapping_path mappings_dir domain) w).
  apply find_missing_hashes_empty. intros character Hc.
  unfold dict_values. rewrite fmap_app, elem_of_app.
  destruct (decide (character ∈ (stored_mapping
              (SyncProcessor.hash_mapping_path mappings_dir domain) w).*2))
    as [Hin|Hout]; [by left | right].
  apply (covers_missing _ _ Hvalues Hsub); [rewrite length_fmap; by apply Hsize|].
  by apply elem_of_find_missing_hashes.
Qed.

(** X23: after a successful [sync_domain] without warning whose hash-mapping
    file can be written, every character of the filename mapping has a hash:
    nothing is missing any more, and running [sync_domain] again changes no
    mapping file. *)
Theorem sync_domain_completes (E : env) (domain mappings_dir : string) (w w' : world)
    (r : ValidationResult) :
  SyncProcessor.sync_domain E domain mappings_dir w = (r, w') →
  success r = true →
  warnings r = [] →
  can_write E (SyncProcessor.hash_mapping_path mappings_dir domain) = true →
  SyncProcessor.find_missing_hashes
    (stored_mapping (SyncProcessor.filename_mapping_path mappings_dir domain) w')
    (stored_mapping (SyncProcessor.hash_mapping_path mappings_dir domain) w') = ∅
  ∧ w_json (SyncProcessor.sync_domain E domain mappings_dir w').2 = w_json w'.
Proof.
  intros Hrun Hok Hwarn Hwrite.
  pose proof (sync_domain_complete_after E domain mappings_dir w) as Hnone.
  rewrite Hrun in Hnone. cbn [fst snd] in Hnone.
  specialize (Hnone Hok Hwarn Hwrite).
  split; [done|].
  rewrite sync_domain_eq. cbv zeta. rewrite bool_decide_eq_true_2 by done.
  cbn [snd]. apply load_mappings_json.
Qed.

Lemma sync_domain_completes_witness :
  let w := Example.world_of [("a.png", "雨"); ("c.png", "云")]
             [("0101010101010101010101010101010101010101010101010101010101010101", "晴")] in
  let w' := (SyncProcessor.sync_domain Example.example_env "example.com" "." w).2 in
  w_json (SyncProcessor.sync_domain Example.example_env "example.com" "." w').2 = w_json w'.
Proof.
  cbv zeta.
  refine (proj2 (sync_domain_completes Example.example_env "example.com" "."
                   (Example.world_of [("a.png", "雨"); ("c.png", "云")]
                      [("0101010101010101010101010101010101010101010101010101010101010101",
                        "晴")])
                   _ _ (surjective_pairing _) _ _ _)).
  - vm_compute. reflexivity.
  - vm_compute. reflexivity.
  - reflexivity.
Defined.

(** X24: when characters are missing and the domain has no configuration,
    [sync_domain] fails with the single error "No configuration found for
    domain: ..." after only reading the mapping files: nothing is downloaded,
    and no mapping file and no cached image changes. *)
Theorem sync_domain_unknown_domain (E : env) (domain mappings_dir : string)
    (w w' : world) (r : ValidationResult) (character : string) :
  SyncProcessor.sync_domain E domain mappings_dir w = (r, w') →
  get_domain_config E domain = None →
  character ∈ dict_values
    (stored_mapping (SyncProcessor.filename_mapping_path mappings_dir domain) w) →
  character ∉ dict_values
    (stored_mapping (SyncProcessor.hash_mapping_path mappings_dir domain) w) →
  success r = false
  ∧ errors r = ["No configuration found for domain: " +:+ domain]
  ∧ w_json w' = w_json w
  ∧ w_cache w' = w_cache w
  ∧ ∃ evs, w_log w' = w_log w ++ evs ∧ Forall is_json_read evs.
Proof.
  intros Hrun Hconfig Hin Hout.
  rewrite sync_domain_eq in Hrun. cbv zeta in Hrun.
  assert (Hmiss : character ∈ SyncProcessor.find_missing_hashes
            (stored_mapping (SyncProcessor.filename_mapping_path mappings_dir domain) w)
            (stored_mapping (SyncProcessor.hash_mapping_path mappings_dir domain) w))
    by (by apply elem_of_find_missing_hashes).
  rewrite bool_decide_eq_false_2 in Hrun
    by (intros Hempty; rewrite Hempty in Hmiss; by apply not_elem_of_empty in Hmiss).
  apply candidates_of_missing in Hmiss.
  unfold SyncProcessor.process_missing_characters in Hrun.
  rewrite bool_decide_eq_false_2 in Hrun
    by (intros Hnil; rewrite Hnil in Hmiss; by apply elem_of_nil in Hmiss).
  rewrite Hconfig in Hrun. cbn [fst snd success add_error negb] in Hrun.
  destruct (SyncProcessor.load_mappings domain mappings_dir w) as [[fm hm] w1] eqn:Hload.
  cbn [snd] in Hrun. injection Hrun as <- <-.
  destruct (load_mappings_frame _ _ _ _ _ _ Hload) as (_ & _ & Hjson & Hcache & Hlog).
  done.
Qed.

Lemma sync_domain_unknown_domain_witness :
  let w := {| w_json := {[ SyncProcessor.filename_mapping_path "." "unknown.org"
                           := JsonObject [("a.png", "雨")] ]};
              w_cache := ∅; w_log := [] |} in
  errors (SyncProcessor.sync_domain Example.example_env "unknown.org" "." w).1
  = ["No configuration found for domain: unknown.org"].
Proof.
  cbv zeta.
  refine (proj1 (proj2 (sync_domain_unknown_domain Example.example_env "unknown.org" "."
                          _ _ _ "雨" (surjective_pairing _) _ _ _))).
  - vm_compute. reflexivity.
  - vm_compute. left.
  - intros Hin. vm_compute in Hin. inversion Hin.
Defined.

(** ** One run over several domains *)

Section CallersFacts.
Import SyncProcessor Callers.
Implicit Types (E : env) (w : world) (results : pydict ValidationResult).

Lemma string_length_app (a b : string) :
  String.length (a +:+ b) = (String.length a + String.length b)%nat.
Proof. induction a as [|c a IH]; simpl; [done | by rewrite IH]. Qed.

Lemma append_inj_r (a b q : string) : a +:+ q = b +:+ q → a = b.
Proof.
  revert b. induction a as [|c a IH]; intros [|c' b] Heq.
  - done.
  - apply (f_equal String.length) in Heq.
    rewrite (string_length_app (String c' b) q) in Heq.
    change (String.length ("" +:+ q)) with (String.length q) in Heq.
    simpl in Heq. exfalso. lia.
  - apply (f_equal String.length) in Heq.
    rewrite (string_length_app (String c a) q) in Heq.
    change (String.length ("" +:+ q)) with (String.length q) in Heq.
    simpl in Heq. exfalso. lia.
  - change (String c (a +:+ q) = String c' (b +:+ q)) in Heq.
    injection Heq as -> Heq. f_equal. by apply IH.
Qed.

(** Two domains never share a hash-mapping file. *)
Lemma hash_mapping_path_inj (mappings_dir domain other : string) :
  hash_mapping_path mappings_dir domain = hash_mapping_path mappings_dir other →
  domain = other.
Proof.
  unfold hash_mapping_path. intros Heq.
  apply append_inj_l in Heq. apply (append_inj_l "/hash-mappings/") in Heq.
  by apply append_inj_r in Heq.
Qed.

Lemma dict_setitem_keys_elem {V} (d : pydict V) (k : string) (v : V) (x : string) :
  x ∈ (dict_setitem d k v).*1 ↔ x = k ∨ x ∈ d.*1.
Proof.
  destruct (decide (k ∈ d.*1)) as [Hin|Hout].
  - rewrite dict_setitem_keys_old by done. split; [by right|]. by intros [->|?].
  - rewrite dict_setitem_keys_new by done. rewrite elem_of_app, list_elem_of_singleton.
    tauto.
Qed.

Lemma sync_domains_worlds E (mappings_dir : string) (domains : list string) results w
    (path : string) :
  ((∀ d, d ∈ domains → path ≠ hash_mapping_path mappings_dir d) →
     w_json (sync_domains E mappings_dir domains results w).2 !! path = w_json w !! path)
  ∧ (is_Some (w_json w !! path) →
     is_Some (w_json (sync_domains E mappings_dir domains results w).2 !! path))
  ∧ (is_Some (w_cache w !! path) →
     is_Some (w_cache (sync_domains E mappings_dir domains results w).2 !! path)).
Proof.
  revert results w. induction domains as [|d rest IH]; intros results w;
    cbn [sync_domains]; [done|].
  destruct (sync_domain_worlds E d mappings_dir w path) as (H1 & H2 & H3).
  destruct (sync_domain E d mappings_dir w) as [r w1]. cbn [snd] in H1, H2, H3.
  destruct (IH (dict_setitem results d r) w1) as (I1 & I2 & I3).
  split; [|split; auto].
  intros Hne. rewrite I1, H1; [done | apply Hne; left |].
  intros d' Hd'. apply Hne. by right.
Qed.

Lemma sync_domains_keys E (mappings_dir : string) (domains : list string) results w :
  (NoDup results.*1 → NoDup (sync_domains E mappings_dir domains results w).1.*1)
  ∧ ∀ d, d ∈ (sync_domains E mappings_dir domains results w).1.*1
         ↔ d ∈ results.*1 ∨ d ∈ domains.
Proof.
  revert results w. induction domains as [|d0 rest IH]; intros results w;
    cbn [sync_domains].
  - split; [done|]. intros d. rewrite elem_of_nil. tauto.
  - destruct (sync_domain E d0 mappings_dir w) as [r w1].
    destruct (IH (dict_setitem results d0 r) w1) as [Hnd Hkeys].
    split.
    + intros Hres. by apply Hnd, dict_setitem_NoDup.
    + intros d. rewrite Hkeys, dict_setitem_keys_elem, elem_of_cons. tauto.
Qed.

Lemma sync_domains_get E (mappings_dir : string) (domains : list string) results w
    (d : string) :
  d ∉ domains →
  dict_get (sync_domains E mappings_dir domains results w).1 d = dict_get results d.
Proof.
  revert results w. induction domains as [|d0 rest IH]; intros results w Hout;
    cbn [sync_domains]; [done|].
  apply not_elem_of_cons in Hout as [Hne Hout].
  destruct (sync_domain E d0 mappings_dir w) as [r w1].
  rewrite IH by done. rewrite dict_get_setitem.
  by rewrite bool_decide_eq_false_2 by congruence.
Qed.

(** A domain whose recorded result is a success without warning has nothing
    missing at the end of the loop: the runs for the other domains do not
    touch its files. *)
Lemma sync_domains_complete E (mappings_dir : string) (domains : list string) results w
    (d : string) (r : ValidationResult) :
  d ∈ domains →
  dict_get (sync_domains E mappings_dir domains results w).1 d = Some r →
  success r = true → warnings r = [] →
  can_write E (hash_mapping_path mappings_dir d) = true →
  find_missing_hashes
    (stored_mapping (filename_mapping_path mappings_dir d)
       (sync_domains E mappings_dir domains results w).2)
    (stored_mapping (hash_mapping_path mappings_dir d)
       (sync_domains E mappings_dir domains results w).2) = ∅.
Proof.
  revert results w. induction domains as [|d0 rest IH]; intros results w Hin Hget Hok
    Hwarn Hwrite.
  { by apply elem_of_nil in Hin. }
  cbn [sync_domains] in *.
  pose proof (sync_domain_complete_after E d0 mappings_dir w) as Hdone.
  destruct (sync_domain E d0 mappings_dir w) as [r0 w1]. cbn [fst snd] in Hdone.
  destruct (decide (d ∈ rest)) as [Hrest|Hrest]; [by apply (IH _ _ Hrest Hget)|].
  apply elem_of_cons in Hin as [->|Hin]; [|done].
  rewrite sync_domains_get in Hget by done.
  rewrite dict_get_setitem, bool_decide_eq_true_2 in Hget by done.
  injection Hget as ->.
  destruct (sync_domains_worlds E mappings_dir rest (dict_setitem results d0 r) w1
              (filename_mapping_path mappings_dir d0)) as [Hfm _].
  destruct (sync_domains_worlds E mappings_dir rest (dict_setitem results d0 r) w1
              (hash_mapping_path mappings_dir d0)) as [Hhm _].
  unfold stored_mapping. rewrite Hfm, Hhm.
  - by apply Hdone.
  - intros d' Hd' Heq. apply hash_mapping_path_inj in Heq. by subst.
  - intros d' _. apply mapping_paths_differ.
Qed.

(** The results and the last world of [run_synchronization] are those of the
    loop over some list of domains, from no result at all, for a processor of
    some temporary directory, or nothing was run. *)
Lemma run_synchronization_loop E (domain_files : option (list string))
    (mappings_dir temp_dir : string) (domains : list string) (dry_run : bool) w :
  run_synchronization E domain_files mappings_dir temp_dir domains dry_run w = ([], w)
  ∨ ∃ dir ds,
      run_synchronization E domain_files mappings_dir temp_dir domains dry_run w
      = sync_domains (with_temp_dir E dir) mappings_dir ds [] w.
Proof.
  unfold run_synchronization. destruct dry_run; [by left|].
  case_bool_decide; [right; by eexists _, _|].
  unfold sync_all_domain_mappings, sync_all_domains.
  destruct domain_files as [files|]; [|by left].
  case_bool_decide; [by left|]. right. by eexists _, _.
Qed.

End CallersFacts.

(** X25: whatever [run_synchronization] is asked (a dry run, a list of
    domains, or all the domains of the directory), it changes no mapping file
    other than the hash mappings of the domains it returns a result for,
    deletes no mapping file and removes nothing from the image cache. *)
Theorem run_synchronization_frame (E : env) (domain_files : option (list string))
    (mappings_dir temp_dir : string) (domains : list string) (dry_run : bool)
    (w : world) (path : string) :
  ((∀ d, d ∈ (Callers.run_synchronization E domain_files mappings_dir temp_dir
                domains dry_run w).1.*1 →
         path ≠ SyncProcessor.hash_mapping_path mappings_dir d) →
     w_json (Callers.run_synchronization E domain_files mappings_dir temp_dir
               domains dry_run w).2 !! path = w_json w !! path)
  ∧ (is_Some (w_json w !! path) →
     is_Some (w_json (Callers.run_synchronization E domain_files mappings_dir temp_dir
                        domains dry_run w).2 !! path))
  ∧ (is_Some (w_cache w !! path) →
     is_Some (w_cache (Callers.run_synchronization E domain_files mappings_dir temp_dir
                         domains dry_run w).2 !! path)).
Proof.
  destruct (run_synchronization_loop E domain_files mappings_dir temp_dir domains
              dry_run w) as [->|(dir & ds & ->)]; [done|].
  destruct (sync_domains_worlds (Callers.with_temp_dir E dir) mappings_dir ds [] w path)
    as (Hother & Hjson & Hcache).
  split; [|by split].
  intros Hne. apply Hother. intros d Hd. apply Hne.
  apply (sync_domains_keys (Callers.with_temp_dir E dir) mappings_dir ds [] w). by right.
Qed.

(** X26: after [run_synchronization], every domain whose result is a success
    without warning, and whose hash-mapping file can be written, has a hash
    for every character of its filename mapping: the runs for the other
    domains leave what a run completed as it is. *)
Theorem run_synchronization_completes (E : env) (domain_files : option (list string))
    (mappings_dir temp_dir : string) (domains : list string) (dry_run : bool)
    (w w' : world) (results : pydict ValidationResult) (domain : string)
    (r : ValidationResult) :
  Callers.run_synchronization E domain_files mappings_dir temp_dir domains dry_run w
  = (results, w') →
  dict_get results domain = Some r →
  success r = true →
  warnings r = [] →
  can_write E (SyncProcessor.hash_mapping_path mappings_dir domain) = true →
  SyncProcessor.find_missing_hashes
    (stored_mapping (SyncProcessor.filename_mapping_path mappings_dir domain) w')
    (stored_mapping (SyncProcessor.hash_mapping_path mappings_dir domain) w') = ∅.
Proof.
  intros Hrun Hget Hok Hwarn Hwrite.
  destruct (run_synchronization_loop E domain_files mappings_dir temp_dir domains
              dry_run w) as [Hnone|(dir & ds & Hloop)]; rewrite Hrun in *.
  { injection Hnone as -> _. done. }
  pose proof (sync_domains_complete (Callers.with_temp_dir E dir) mappings_dir ds [] w
                domain r) as Hdone.
  pose proof (sync_domains_keys (Callers.with_temp_dir E dir) mappings_dir ds [] w)
    as [_ Hkeys].
  rewrite <- Hloop in Hdone, Hkeys. cbn [fst snd] in Hdone, Hkeys.
  apply Hdone; [|done..].
  assert (Hin : domain ∈ results.*1) by (apply dict_get_is_Some; by eexists).
  apply Hkeys in Hin as [Hin|Hin]; [by apply elem_of_nil in Hin | done].
Qed.

Lemma run_synchronization_completes_witness :
  let w := Example.world_of [("a.png", "雨"); ("c.png", "云")] [] in
  let w' := (Callers.run_synchronization Example.example_env None "." "temp"
               ["example.com"] false w).2 in
  SyncProcessor.find_missing_hashes
    (stored_mapping (SyncProcessor.filename_mapping_path "." "example.com") w')
    (stored_mapping (SyncProcessor.hash_mapping_path "." "example.com") w') = ∅.
Proof.
  cbv zeta.
  refine (run_synchronization_completes Example.example_env None "." "temp"
            ["example.com"] false
            (Example.world_of [("a.png", "雨"); ("c.png", "云")] []) _ _ "example.com" _
            (surjective_pairing _) _ _ _ _).
  - vm_compute. reflexivity.
  - reflexivity.
  - reflexivity.
  - reflexivity.
Defined.

(** X27: when [run_synchronization] is given domains and is not a dry run, it
    returns one result for each of them and for no other domain, however
    often a domain is listed. *)
Theorem run_synchronization_results (E : env) (domain_files : option (list string))
    (mappings_dir temp_dir : string) (domains : list string) (w : world) :
  domains ≠ [] →
  NoDup (Callers.run_synchronization E domain_files mappings_dir temp_dir
           domains false w).1.*1
  ∧ ∀ domain,
      domain ∈ (Callers.run_synchronization E domain_files mappings_dir temp_dir
                  domains false w).1.*1
      ↔ domain ∈ domains.
Proof.
  intros Hne. unfold Callers.run_synchronization.
  rewrite bool_decide_eq_true_2 by done.
  destruct (sync_domains_keys (Callers.with_temp_dir E temp_dir) mappings_dir domains [] w)
    as [Hnd Hkeys].
  split; [apply Hnd; constructor|].
  intros domain. rewrite Hkeys, elem_of_nil. tauto.
Qed.

Lemma run_synchronization_results_witness :
  NoDup (Callers.run_synchronization Example.example_env None "." "temp"
           ["example.com"; "unknown.org"; "example.com"] false
           (Example.world_of [("a.png", "雨")] [])).1.*1.
Proof.
  refine (proj1 (run_synchronization_results Example.example_env None "." "temp"
                   ["example.com"; "unknown.org"; "example.com"]
                   (Example.world_of [("a.png", "雨")] []) _)).
  done.
Defined.

(** ** The domains [sync_all_domains] finds *)

Section Discovery.
Import SyncProcessor Callers.

Lemma substring_app (a b : string) :
  String.substring 0 (String.length a) (a +:+ b) = a.
Proof.
  induction a as [|c a IH].
  - by destruct b.
  - change (String c a +:+ b) with (String c (a +:+ b)). simpl. by rewrite IH.
Qed.

Lemma rfind_dot_json (a : string) (i : nat) :
  rfind_dot (a +:+ ".json") i = Some (i + String.length a)%nat.
Proof.
  revert i. induction a as [|c a IH]; intros i.
  - cbn. f_equal. lia.
  - change (String c a +:+ ".json") with (String c (a +:+ ".json")).
    cbn [rfind_dot]. rewrite IH. simpl. f_equal. lia.
Qed.

(** The stem of [<domain>.json] is the domain. *)
Lemma stem_json (a : string) : a ≠ "" → stem (a +:+ ".json") = a.
Proof.
  intros Hne. unfold stem. rewrite rfind_dot_json, string_length_app. simpl.
  rewrite bool_decide_eq_true_2; [apply substring_app|].
  destruct a; [done|]. simpl. lia.
Qed.

End Discovery.

(** X28: when the directory listing holds names of the form [<name>.json], as
    [glob("*.json")] gives them, [sync_all_domains] returns a result for a
    domain exactly when the file [<domain>.json] is listed and is not skipped
    as a minified file, a backup or a hidden file. *)
Theorem sync_all_domains_results (E : env) (domain_files : list string)
    (mappings_dir : string) (w : world) (domain : string) :
  Forall (λ name, ∃ d, name = d +:+ ".json") domain_files →
  domain ∈ (Callers.sync_all_domains E (Some domain_files) mappings_dir w).1.*1
  ↔ (domain +:+ ".json") ∈ domain_files
    ∧ Callers.skipped (domain +:+ ".json") = false.
Proof.
  intros Hfiles.
  assert (Hstem : ∀ name, name ∈ domain_files → Callers.skipped name = false →
            name = Callers.stem name +:+ ".json").
  { intros name Hin Hskip. rewrite Forall_forall in Hfiles.
    destruct (Hfiles name Hin) as [d ->].
    destruct d as [|c d]; [done|]. by rewrite stem_json. }
  assert (Hkeys : domain ∈ Callers.stem <$> filter (λ name, Callers.skipped name = false)
                                              domain_files
                  ↔ (domain +:+ ".json") ∈ domain_files
                    ∧ Callers.skipped (domain +:+ ".json") = false).
  { rewrite list_elem_of_fmap. split.
    - intros (name & -> & [Hskip Hin]%list_elem_of_filter).
      by rewrite <- (Hstem name Hin Hskip).
    - intros [Hin Hskip]. exists (domain +:+ ".json"). split.
      + pose proof (Hstem _ Hin Hskip) as Heq. by apply append_inj_r in Heq.
      + by apply list_elem_of_filter. }
  rewrite <- Hkeys. unfold Callers.sync_all_domains.
  case_bool_decide as Hnil.
  - rewrite Hnil. done.
  - destruct (sync_domains_keys E mappings_dir
                (Callers.stem <$> filter (λ name, Callers.skipped name = false)
                                    domain_files) [] w) as [_ Hloop].
    rewrite Hloop, elem_of_nil. tauto.
Qed.

Lemma sync_all_domains_results_witness :
  "example.com"
  ∈ (Callers.sync_all_domains Example.example_env
       (Some ["example.com.min.json"; "example.com.json"; ".hidden.json"]) "."
       (Example.world_of [("a.png", "雨")] [])).1.*1.
Proof.
  apply (sync_all_domains_results Example.example_env
           ["example.com.min.json"; "example.com.json"; ".hidden.json"] "."
           (Example.world_of [("a.png", "雨")] []) "example.com").
  - repeat constructor.
    + by exists "example.com.min".
    + by exists "example.com".
    + by exists ".hidden".
  - split; [|reflexivity]. right. left.
Defined.

(** ** An unparsable hash mapping *)

(** X29: a hash-mapping file that does not parse is read as the empty mapping,
    and a successful [sync_domain] that created hashes and could write
    replaces it: afterwards the file holds exactly the new hashes, as many as
    [processed_files] counts. *)
Theorem sync_domain_replaces_unparsable (E : env) (domain mappings_dir : string)
    (w w' : world) (r : ValidationResult) :
  SyncProcessor.sync_domain E domain mappings_dir w = (r, w') →
  w_json w !! SyncProcessor.hash_mapping_path mappings_dir domain = Some Unparsable →
  success r = true →
  processed_files r ≠ 0 →
  can_write E (SyncProcessor.hash_mapping_path mappings_dir domain) = true →
  ∃ new_hashes : pydict string,
    w_json w' !! SyncProcessor.hash_mapping_path mappings_dir domain
    = Some (JsonObject new_hashes)
    ∧ SyncProcessor.dict_len new_hashes = processed_files r
    ∧ ∀ character, character ∈ dict_values new_hashes →
        character ∈ dict_values
          (stored_mapping (SyncProcessor.filename_mapping_path mappings_dir domain) w).
Proof.
  intros Hrun Hbad Hok Hcount Hwrite.
  pose proof (sync_domain_success_shape E domain mappings_dir w) as Hshape.
  rewrite Hrun in Hshape. cbn [fst snd] in Hshape.
  destruct (Hshape Hok) as (new_hashes & _ & _ & Hsub & _ & Hlen & _ & Hst).
  rewrite Hwrite in Hst. exists new_hashes.
  assert (Hnew : new_hashes ≠ []).
  { intros ->. apply Hcount. by rewrite Hlen. }
  unfold stored_mapping in Hst at 2. rewrite Hbad in Hst. simpl in Hst.
  split; [|split; [done|]].
  - unfold stored_mapping in Hst.
    destruct (w_json w' !! SyncProcessor.hash_mapping_path mappings_dir domain)
      as [[|d]|]; by subst.
  - intros character Hc.
    by destruct (proj1 (elem_of_find_missing_hashes _ _ _) (Hsub _ Hc)) as [? _].
Qed.

Lemma sync_domain_replaces_unparsable_witness :
  let w := {| w_json := {[ Example.filename_file := JsonObject [("a.png", "雨")];
                           Example.hash_file := Unparsable ]};
              w_cache := ∅; w_log := [] |} in
  ∃ new_hashes : pydict string,
    w_json (SyncProcessor.sync_domain Example.example_env "example.com" "." w).2
    !! SyncProcessor.hash_mapping_path "." "example.com" = Some (JsonObject new_hashes).
Proof.
  cbv zeta.
  destruct (sync_domain_replaces_unparsable Example.example_env "example.com" "."
              {| w_json := {[ Example.filename_file := JsonObject [("a.png", "雨")];
                              Example.hash_file := Unparsable ]};
                 w_cache := ∅; w_log := [] |}
              _ _ (surjective_pairing _))
    as (new_hashes & Hfile & _).
  - vm_compute. reflexivity.
  - vm_compute. reflexivity.
  - vm_compute. discriminate.
  - reflexivity.
  - by exists new_hashes.
Defined.

(** ** Similarity of two hashes *)

